(** * Handover data collection (scratch/handover-simulation.cc)

    A shallow embedding of the trace callbacks, the two periodic samplers and
    the CSV logger of the ns-3 handover simulation, with the properties of the
    per-UE state they maintain and of the rows they write.

    Conventions of the embedding:
    - [double] is the primitive binary64 type [float]; every arithmetic
      expression of the source is evaluated with IEEE operations;
    - [uint64_t], [uint32_t], [uint16_t] and [uint8_t] values are [N] or [Z];
      the only wrapping arithmetic of the source ([i + 1] and
      [rxPackets - 1] on [uint32_t]) is written out modulo [2^32];
    - every global [std::map] is a [gmap]; [m.find (k) != m.end ()] is
      [m !! k = Some _] and the assignment [m[k] = v] is [<[k:=v]> m];
    - [Simulator::Now ().GetSeconds ()] is an argument [time] of the
      callback that reads it; the event queue of the simulator itself is
      not modelled, a periodic callback is run once per tick by its caller;
    - a row of the CSV file is the sequence of values inserted into the
      stream, in source order. *)

From Stdlib Require Import ZArith NArith QArith Uint63 Lia Lqa.
From Stdlib Require Import Floats.PrimFloat Floats.SpecFloat Floats.FloatOps
  Floats.FloatAxioms.
From Stdlib Require Import Strings.String Strings.Ascii.
From stdpp Require Import gmap strings list fin_maps.

Close Scope Q_scope.
Local Open Scope string_scope.
Local Open Scope list_scope.

(** ** Values written to the output stream *)

Module Csv.

(** One [operator<<] insertion. *)
Inductive item :=
| IDouble (d : float)
| IU64 (n : N)
| IU16 (n : N)
| IStr (s : string).

(** What ends up in a column: a formatted number (kept symbolic, a number
    printed with [std::fixed] holds no comma and no newline) or a character
    of a string literal. *)
Inductive atom :=
| ADouble (d : float)
| AU64 (n : N)
| AU16 (n : N)
| AChar (c : ascii).

Definition nl : string := String (ascii_of_nat 10) EmptyString.

Fixpoint chars (s : string) : list atom :=
  match s with
  | EmptyString => []
  | String c s' => AChar c :: chars s'
  end.

Definition explode_item (i : item) : list atom :=
  match i with
  | IDouble d => [ADouble d]
  | IU64 n => [AU64 n]
  | IU16 n => [AU16 n]
  | IStr s => chars s
  end.

Definition explode (row : list item) : list atom :=
  concat (map explode_item row).

Definition is_char (n : nat) (a : atom) : bool :=
  match a with
  | AChar c => Nat.eqb (nat_of_ascii c) n
  | _ => false
  end.

(** Columns of one line: split at commas, stop at the newline. *)
Fixpoint split_cols (cur : list atom) (l : list atom) : list (list atom) :=
  match l with
  | [] => [rev cur]
  | a :: l' =>
      if is_char 44 a then rev cur :: split_cols [] l'
      else if is_char 10 a then [rev cur]
      else split_cols (a :: cur) l'
  end.

Definition columns (row : list item) : list (list atom) :=
  split_cols [] (explode row).

Definition text (s : string) : list atom := chars s.

End Csv.

Import Csv.

(** ** The logger object *)

Record HandoverDataLogger := { m_file : list (list item) }.

Definition header : list item :=
  [ IStr "Time,UE_ID,Old_gNB_ID,New_gNB_ID,RSRP_Old,RSRP_New,";
    IStr "RSRQ_Old,RSRQ_New,SINR_Old,SINR_New,Throughput_DL,Throughput_UL,";
    IStr (String.append "X_Position,Y_Position,Speed,Handover_Type" nl) ].

Definition Initialize (filename : string) (lg : HandoverDataLogger)
  : HandoverDataLogger :=
  {| m_file := m_file lg ++ [header] |}.

(** The line that [LogHandover] inserts into the stream. *)
Definition handover_line (time : float) (ueId oldCellId newCellId : N)
    (rsrpOld rsrpNew rsrqOld rsrqNew sinrOld sinrNew : float)
    (throughputDl throughputUl x y speed : float) (hoType : string)
  : list item :=
  [ IDouble time; IStr ","; IU64 ueId; IStr ","; IU16 oldCellId;
    IStr ","; IU16 newCellId; IStr ",";
    IDouble rsrpOld; IStr ","; IDouble rsrpNew; IStr ",";
    IDouble rsrqOld; IStr ","; IDouble rsrqNew; IStr ",";
    IDouble sinrOld; IStr ","; IDouble sinrNew; IStr ",";
    IDouble throughputDl; IStr ","; IDouble throughputUl; IStr ",";
    IDouble x; IStr ","; IDouble y; IStr ","; IDouble speed; IStr ",";
    IStr hoType; IStr nl ].

Definition LogHandover (time : float) (ueId oldCellId newCellId : N)
    (rsrpOld rsrpNew rsrqOld rsrqNew sinrOld sinrNew : float)
    (throughputDl throughputUl x y speed : float) (hoType : string)
    (lg : HandoverDataLogger) : HandoverDataLogger :=
  {| m_file := m_file lg ++
       [handover_line time ueId oldCellId newCellId rsrpOld rsrpNew
          rsrqOld rsrqNew sinrOld sinrNew throughputDl throughputUl
          x y speed hoType] |}.

(** The line that [LogMeasurement] inserts: the serving cell twice, and
    RSRP/RSRQ/SINR after an extra comma, that is in the "_New" columns. *)
Definition measurement_line (time : float) (ueId cellId : N)
    (rsrp rsrq sinr x y speed throughputDl throughputUl : float)
  : list item :=
  [ IDouble time; IStr ","; IU64 ueId; IStr ","; IU16 cellId;
    IStr ","; IU16 cellId; IStr ",";
    IStr ","; IDouble rsrp; IStr ","; IStr ","; IDouble rsrq; IStr ",";
    IStr ","; IDouble sinr; IStr ",";
    IDouble throughputDl; IStr ","; IDouble throughputUl; IStr ",";
    IDouble x; IStr ","; IDouble y; IStr ","; IDouble speed;
    IStr (String.append ",MEASUREMENT" nl) ].

Definition LogMeasurement (time : float) (ueId cellId : N)
    (rsrp rsrq sinr x y speed throughputDl throughputUl : float)
    (lg : HandoverDataLogger) : HandoverDataLogger :=
  {| m_file := m_file lg ++
       [measurement_line time ueId cellId rsrp rsrq sinr x y speed
          throughputDl throughputUl] |}.

(** The column of a row that stands under a given header name. *)
Fixpoint col_is (name : string) (c : list atom) : bool :=
  match name, c with
  | EmptyString, [] => true
  | String a name', AChar b :: c' => Ascii.eqb a b && col_is name' c'
  | _, _ => false
  end.

Fixpoint index_of (name : string) (cols : list (list atom)) (i : nat)
  : option nat :=
  match cols with
  | [] => None
  | c :: cols' => if col_is name c then Some i else index_of name cols' (S i)
  end.

Definition field (name : string) (row : list item) : option (list atom) :=
  match index_of name (columns header) 0 with
  | Some i => nth_error (columns row) i
  | None => None
  end.

(** ** The global maps *)

Record Vector := { v_x : float; v_y : float; v_z : float }.

Record State := {
  g_logger : option HandoverDataLogger;  (* [None]: the null pointer *)
  ueCurrentCell : gmap N N;              (* IMSI -> Cell ID *)
  ueLastPosition : gmap N Vector;        (* IMSI -> Last position *)
  ueLastSpeed : gmap N float;            (* IMSI -> Last speed *)
  ueThroughputDl : gmap N float;         (* IMSI -> Downlink throughput *)
  ueThroughputUl : gmap N float;         (* IMSI -> Uplink throughput *)
  ueLastRsrp : gmap N float;             (* IMSI -> Last RSRP value (dBm) *)
  ueLastRsrq : gmap N float;             (* IMSI -> Last RSRQ value (dB) *)
  ueLastSinr : gmap N float;             (* IMSI -> Last SINR value (dB) *)
  cellRsrp : gmap N float;               (* CellId -> Latest RSRP *)
  cellSinr : gmap N float                (* CellId -> Latest SINR *)
}.

Definition set_g_logger (v : option HandoverDataLogger) (st : State) : State :=
  {| g_logger := v; ueCurrentCell := ueCurrentCell st;
     ueLastPosition := ueLastPosition st; ueLastSpeed := ueLastSpeed st;
     ueThroughputDl := ueThroughputDl st; ueThroughputUl := ueThroughputUl st;
     ueLastRsrp := ueLastRsrp st; ueLastRsrq := ueLastRsrq st;
     ueLastSinr := ueLastSinr st; cellRsrp := cellRsrp st;
     cellSinr := cellSinr st |}.

Definition set_ueCurrentCell (v : gmap N N) (st : State) : State :=
  {| g_logger := g_logger st; ueCurrentCell := v;
     ueLastPosition := ueLastPosition st; ueLastSpeed := ueLastSpeed st;
     ueThroughputDl := ueThroughputDl st; ueThroughputUl := ueThroughputUl st;
     ueLastRsrp := ueLastRsrp st; ueLastRsrq := ueLastRsrq st;
     ueLastSinr := ueLastSinr st; cellRsrp := cellRsrp st;
     cellSinr := cellSinr st |}.

Definition set_ueLastPosition (v : gmap N Vector) (st : State) : State :=
  {| g_logger := g_logger st; ueCurrentCell := ueCurrentCell st;
     ueLastPosition := v; ueLastSpeed := ueLastSpeed st;
     ueThroughputDl := ueThroughputDl st; ueThroughputUl := ueThroughputUl st;
     ueLastRsrp := ueLastRsrp st; ueLastRsrq := ueLastRsrq st;
     ueLastSinr := ueLastSinr st; cellRsrp := cellRsrp st;
     cellSinr := cellSinr st |}.

Definition set_ueLastSpeed (v : gmap N float) (st : State) : State :=
  {| g_logger := g_logger st; ueCurrentCell := ueCurrentCell st;
     ueLastPosition := ueLastPosition st; ueLastSpeed := v;
     ueThroughputDl := ueThroughputDl st; ueThroughputUl := ueThroughputUl st;
     ueLastRsrp := ueLastRsrp st; ueLastRsrq := ueLastRsrq st;
     ueLastSinr := ueLastSinr st; cellRsrp := cellRsrp st;
     cellSinr := cellSinr st |}.

Definition set_ueThroughputDl (v : gmap N float) (st : State) : State :=
  {| g_logger := g_logger st; ueCurrentCell := ueCurrentCell st;
     ueLastPosition := ueLastPosition st; ueLastSpeed := ueLastSpeed st;
     ueThroughputDl := v; ueThroughputUl := ueThroughputUl st;
     ueLastRsrp := ueLastRsrp st; ueLastRsrq := ueLastRsrq st;
     ueLastSinr := ueLastSinr st; cellRsrp := cellRsrp st;
     cellSinr := cellSinr st |}.

Definition set_ueThroughputUl (v : gmap N float) (st : State) : State :=
  {| g_logger := g_logger st; ueCurrentCell := ueCurrentCell st;
     ueLastPosition := ueLastPosition st; ueLastSpeed := ueLastSpeed st;
     ueThroughputDl := ueThroughputDl st; ueThroughputUl := v;
     ueLastRsrp := ueLastRsrp st; ueLastRsrq := ueLastRsrq st;
     ueLastSinr := ueLastSinr st; cellRsrp := cellRsrp st;
     cellSinr := cellSinr st |}.

Definition set_ueLastRsrp (v : gmap N float) (st : State) : State :=
  {| g_logger := g_logger st; ueCurrentCell := ueCurrentCell st;
     ueLastPosition := ueLastPosition st; ueLastSpeed := ueLastSpeed st;
     ueThroughputDl := ueThroughputDl st; ueThroughputUl := ueThroughputUl st;
     ueLastRsrp := v; ueLastRsrq := ueLastRsrq st;
     ueLastSinr := ueLastSinr st; cellRsrp := cellRsrp st;
     cellSinr := cellSinr st |}.

Definition set_ueLastRsrq (v : gmap N float) (st : State) : State :=
  {| g_logger := g_logger st; ueCurrentCell := ueCurrentCell st;
     ueLastPosition := ueLastPosition st; ueLastSpeed := ueLastSpeed st;
     ueThroughputDl := ueThroughputDl st; ueThroughputUl := ueThroughputUl st;
     ueLastRsrp := ueLastRsrp st; ueLastRsrq := v;
     ueLastSinr := ueLastSinr st; cellRsrp := cellRsrp st;
     cellSinr := cellSinr st |}.

Definition set_ueLastSinr (v : gmap N float) (st : State) : State :=
  {| g_logger := g_logger st; ueCurrentCell := ueCurrentCell st;
     ueLastPosition := ueLastPosition st; ueLastSpeed := ueLastSpeed st;
     ueThroughputDl := ueThroughputDl st; ueThroughputUl := ueThroughputUl st;
     ueLastRsrp := ueLastRsrp st; ueLastRsrq := ueLastRsrq st;
     ueLastSinr := v; cellRsrp := cellRsrp st;
     cellSinr := cellSinr st |}.

Definition set_cellRsrp (v : gmap N float) (st : State) : State :=
  {| g_logger := g_logger st; ueCurrentCell := ueCurrentCell st;
     ueLastPosition := ueLastPosition st; ueLastSpeed := ueLastSpeed st;
     ueThroughputDl := ueThroughputDl st; ueThroughputUl := ueThroughputUl st;
     ueLastRsrp := ueLastRsrp st; ueLastRsrq := ueLastRsrq st;
     ueLastSinr := ueLastSinr st; cellRsrp := v;
     cellSinr := cellSinr st |}.

Definition set_cellSinr (v : gmap N float) (st : State) : State :=
  {| g_logger := g_logger st; ueCurrentCell := ueCurrentCell st;
     ueLastPosition := ueLastPosition st; ueLastSpeed := ueLastSpeed st;
     ueThroughputDl := ueThroughputDl st; ueThroughputUl := ueThroughputUl st;
     ueLastRsrp := ueLastRsrp st; ueLastRsrq := ueLastRsrq st;
     ueLastSinr := ueLastSinr st; cellRsrp := cellRsrp st;
     cellSinr := v |}.

(** The state at program start: empty maps, no logger yet. *)
Definition initial : State :=
  {| g_logger := None; ueCurrentCell := ∅; ueLastPosition := ∅;
     ueLastSpeed := ∅; ueThroughputDl := ∅; ueThroughputUl := ∅;
     ueLastRsrp := ∅; ueLastRsrq := ∅; ueLastSinr := ∅;
     cellRsrp := ∅; cellSinr := ∅ |}.

(** [g_logger = CreateObject<HandoverDataLogger> ();
     g_logger->Initialize ("handover_dataset.csv");] at the top of [main]. *)
Definition main_create_logger (st : State) : State :=
  set_g_logger (Some (Initialize "handover_dataset.csv" {| m_file := [] |})) st.

(** ** Handover callbacks *)

Definition NotifyHandoverStartEnb (context : string)
    (imsi cellid rnti targetCellId : N) (st : State) : State :=
  match ueCurrentCell st !! imsi with
  | None => set_ueCurrentCell (<[imsi := cellid]> (ueCurrentCell st)) st
  | Some _ => st
  end.

(** The lookups with a default that the callbacks repeat before they log:
    [double x = 0, y = 0, speed = 0; if (ueLastPosition.find (imsi) != ...] *)
Definition last_xy (imsi : N) (st : State) : float * float :=
  match ueLastPosition st !! imsi with
  | Some p => (v_x p, v_y p)
  | None => (0%float, 0%float)
  end.

Definition last_speed (imsi : N) (st : State) : float :=
  match ueLastSpeed st !! imsi with
  | Some v => v
  | None => 0%float
  end.

Definition last_throughputDl (imsi : N) (st : State) : float :=
  match ueThroughputDl st !! imsi with
  | Some v => v
  | None => 0.0%float
  end.

Definition last_throughputUl (imsi : N) (st : State) : float :=
  match ueThroughputUl st !! imsi with
  | Some v => v
  | None => 0.0%float
  end.

Definition NotifyHandoverEndOkEnb (context : string) (imsi cellid rnti : N)
    (time : float) (st : State) : State :=
  let targetCellId := cellid in
  let oldCellId :=
    match ueCurrentCell st !! imsi with
    | Some c => c
    | None => cellid
    end in
  match g_logger st with
  | Some lg =>
      let '(x, y) := last_xy imsi st in
      let speed := last_speed imsi st in
      let rsrpNew :=
        match ueLastRsrp st !! imsi with Some v => v | None => (-100.0)%float end in
      let rsrpOld := rsrpNew in
      let rsrqNew :=
        match ueLastRsrq st !! imsi with Some v => v | None => (-20.0)%float end in
      let rsrqOld := rsrqNew in
      let sinrNew :=
        match ueLastSinr st !! imsi with Some v => v | None => 0.0%float end in
      let sinrOld := sinrNew in
      let throughputDl := last_throughputDl imsi st in
      let throughputUl := last_throughputUl imsi st in
      let lg' := LogHandover time imsi oldCellId targetCellId
                   rsrpOld rsrpNew rsrqOld rsrqNew sinrOld sinrNew
                   throughputDl throughputUl x y speed "HANDOVER" lg in
      set_ueCurrentCell (<[imsi := targetCellId]> (ueCurrentCell st))
        (set_g_logger (Some lg') st)
  | None => st
  end.

Definition NotifyConnectionEstablishedUe (context : string)
    (imsi cellid rnti : N) (st : State) : State :=
  set_ueCurrentCell (<[imsi := cellid]> (ueCurrentCell st)) st.

(** The PHY trace is keyed by cell; the context string is searched but
    nothing is done with the result. *)
Definition UePhyRsrpSinr (context : string) (cellId rnti : N)
    (rsrp sinr : float) (componentCarrierId : N) (st : State) : State :=
  set_cellSinr (<[cellId := sinr]> (cellSinr st))
    (set_cellRsrp (<[cellId := rsrp]> (cellRsrp st)) st).

(** ** Measurement reports *)

(** The part of [LteRrcSap::MeasurementReport] that the callback reads. *)
Record MeasResultPCell := { rsrpResult : Z; rsrqResult : Z }.  (* uint8_t *)
Record MeasResults := { measResultPCell : MeasResultPCell }.
Record MeasurementReport := { measResults : MeasResults }.

(** [(double) n] for an unsigned integer below [2^64]. The primitive
    conversion takes 63 bits; above that the low bit is folded into the
    next one (sticky bit), which leaves the rounding to 53 bits unchanged. *)
Definition u2d (n : Z) : float :=
  if (n <? 2 ^ 63)%Z then of_uint63 (Uint63.of_Z n)
  else (of_uint63 (Uint63.of_Z (Z.lor (Z.shiftr n 1) (Z.land n 1))) * 2)%float.

(** [rsrp = -140.0 + (double)rsrpEncoded] *)
Definition rsrp_decode (rsrpEncoded : Z) : float :=
  ((-140.0) + u2d rsrpEncoded)%float.

(** [rsrq = -19.5 + (double)rsrqEncoded / 2.0] *)
Definition rsrq_decode (rsrqEncoded : Z) : float :=
  ((-19.5) + u2d rsrqEncoded / 2.0)%float.

(** [if (ueLastSinr.find (imsi) != ...) ... else if (cellId > 0 && ...)]:
    the resolved value and the state with the cached entry. *)
Definition resolve_sinr (imsi cellId : N) (st : State) : float * State :=
  match ueLastSinr st !! imsi with
  | Some v => (v, st)
  | None =>
      if (0 <? cellId)%N then
        match cellSinr st !! cellId with
        | Some v => (v, set_ueLastSinr (<[imsi := v]> (ueLastSinr st)) st)
        | None => (0.0%float, st)
        end
      else (0.0%float, st)
  end.

Definition NotifyRecvMeasurementReport (context : string)
    (imsi cellId rnti : N) (msg : MeasurementReport)
    (time : float) (st : State) : State :=
  let rsrpEncoded := rsrpResult (measResultPCell (measResults msg)) in
  let rsrp := rsrp_decode rsrpEncoded in
  let st := set_ueLastRsrp (<[imsi := rsrp]> (ueLastRsrp st)) st in
  let rsrqEncoded := rsrqResult (measResultPCell (measResults msg)) in
  let rsrq := rsrq_decode rsrqEncoded in
  let st := set_ueLastRsrq (<[imsi := rsrq]> (ueLastRsrq st)) st in
  let '(sinr, st) := resolve_sinr imsi cellId st in
  match g_logger st with
  | Some lg =>
      let '(x, y) := last_xy imsi st in
      let speed := last_speed imsi st in
      let throughputDl := last_throughputDl imsi st in
      let throughputUl := last_throughputUl imsi st in
      set_g_logger
        (Some (LogMeasurement time imsi cellId rsrp rsrq sinr x y speed
                 throughputDl throughputUl lg)) st
  | None => st
  end.

(** The UE-side alternative (its trace is not connected in [main]). *)
Definition NotifyReportUeMeasurements (context : string) (imsi cellId : N)
    (rsrp rsrq : float) (servingCell : bool) (componentCarrierId : N)
    (time : float) (st : State) : State :=
  if negb servingCell then st
  else
    let st := set_ueLastRsrp (<[imsi := rsrp]> (ueLastRsrp st)) st in
    let st := set_ueLastRsrq (<[imsi := rsrq]> (ueLastRsrq st)) st in
    match g_logger st with
    | Some lg =>
        let '(x, y) := last_xy imsi st in
        let speed := last_speed imsi st in
        let throughputDl := last_throughputDl imsi st in
        let throughputUl := last_throughputUl imsi st in
        let '(sinr, st) := resolve_sinr imsi cellId st in
        set_g_logger
          (Some (LogMeasurement time imsi cellId rsrp rsrq sinr x y speed
                   throughputDl throughputUl lg)) st
    | None => st
    end.

(** ** The snapshot sampler *)

(** A node as the sampler finds it at a tick: its mobility model (if it
    has one) answers with the position and velocity of that instant. *)
Record MobilityModel := { GetPosition : Vector; GetVelocity : Vector }.
Record Node := { mobility : option MobilityModel }.
Record LteUeNetDevice := { GetImsi : N }.
Record NetDevice := { lteUeDev : option LteUeNetDevice }.

Definition resolve_rsrp (imsi cellId : N) (st : State) : float * State :=
  match ueLastRsrp st !! imsi with
  | Some v => (v, st)
  | None =>
      if (0 <? cellId)%N then
        match cellRsrp st !! cellId with
        | Some v => (v, set_ueLastRsrp (<[imsi := v]> (ueLastRsrp st)) st)
        | None => ((-100.0)%float, st)
        end
      else ((-100.0)%float, st)
  end.

Definition resolve_rsrq (imsi : N) (st : State) : float :=
  match ueLastRsrq st !! imsi with
  | Some v => v
  | None => (-20.0)%float
  end.

Definition resolve_cell (imsi : N) (st : State) : N :=
  match ueCurrentCell st !! imsi with
  | Some c => c
  | None => 0%N
  end.

(** [imsi] of the [i]-th node: from its LTE device, else [i + 1]
    ([uint32_t] arithmetic). *)
Definition node_imsi (ueDevs : list NetDevice) (i : nat) : N :=
  match ueDevs !! i with
  | Some ueDev =>
      match lteUeDev ueDev with
      | Some d => GetImsi d
      | None => ((N.of_nat i + 1) mod 2 ^ 32)%N
      end
  | None => ((N.of_nat i + 1) mod 2 ^ 32)%N
  end.

(** [sqrt (vel.x * vel.x + vel.y * vel.y)] *)
Definition speed_of (vel : Vector) : float :=
  sqrt (v_x vel * v_x vel + v_y vel * v_y vel)%float.

(** The body of the [for] loop for node [i]. *)
Definition LogEverySecond_body (time : float) (ueDevs : list NetDevice)
    (i : nat) (node : Node) (st : State) : State :=
  match mobility node with
  | Some mob =>
      let pos := GetPosition mob in
      let vel := GetVelocity mob in
      let speed := speed_of vel in
      let imsi := node_imsi ueDevs i in
      let st := set_ueLastPosition (<[imsi := pos]> (ueLastPosition st)) st in
      let st := set_ueLastSpeed (<[imsi := speed]> (ueLastSpeed st)) st in
      match g_logger st with
      | Some lg =>
          let cellId := resolve_cell imsi st in
          let '(rsrp, st) := resolve_rsrp imsi cellId st in
          let rsrq := resolve_rsrq imsi st in
          let '(sinr, st) := resolve_sinr imsi cellId st in
          let throughputDl := last_throughputDl imsi st in
          let throughputUl := last_throughputUl imsi st in
          set_g_logger
            (Some (LogMeasurement time imsi cellId rsrp rsrq sinr
                     (v_x pos) (v_y pos) speed throughputDl throughputUl
                     lg)) st
      | None => st
      end
  | None => st
  end.

Fixpoint LogEverySecond_loop (time : float) (ueDevs : list NetDevice)
    (i : nat) (nodes : list Node) (st : State) : State :=
  match nodes with
  | [] => st
  | node :: nodes' =>
      LogEverySecond_loop time ueDevs (S i) nodes'
        (LogEverySecond_body time ueDevs i node st)
  end.

Definition LogEverySecond (ueNodes : list Node) (ueDevs : list NetDevice)
    (time : float) (st : State) : State :=
  LogEverySecond_loop time ueDevs 0 ueNodes st.

(** ** The traffic sampler *)

(** The arithmetic of the rate expression. The program computes in
    [double]; the second instance reads the same expression over the
    rationals, where the algebraic laws of the running average are stated. *)
Class DoubleArith (D : Type) := {
  of_u64 : Z -> D;          (* the conversion of a [uint64_t] counter *)
  dmul : D -> D -> D;
  ddiv : D -> D -> D;
  lit_8 : D;                (* 8.0 *)
  lit_1000000 : D           (* 1000000.0 *)
}.

#[export] Instance float_arith : DoubleArith float := {
  of_u64 := u2d;
  dmul := PrimFloat.mul;
  ddiv := PrimFloat.div;
  lit_8 := 8.0%float;
  lit_1000000 := 1000000.0%float
}.


(** [bytes * 8.0 / (currentTime * 1000000.0)], in Mbps. *)
Definition flowThroughput {D : Type} `{DoubleArith D}
    (bytes : Z) (currentTime : D) : D :=
  ddiv (dmul (of_u64 bytes) lit_8) (dmul currentTime lit_1000000).

Record FiveTuple := { sourceAddress : N; destinationAddress : N }.
Record Time := { GetSeconds : float }.
Record FlowStats := {
  rxBytes : Z; txBytes : Z;             (* uint64_t *)
  txPackets : Z; rxPackets : Z; lostPackets : Z;   (* uint32_t *)
  delaySum : Time; jitterSum : Time
}.

(** One round of the loop that builds [ipToImsi]. *)
Definition ipToImsi_step (ueDevs : list NetDevice) (ueIpIfaces : list N)
    (m : gmap N N) (i : nat) : gmap N N :=
  match ueIpIfaces !! i with
  | Some ueIp =>
      match ueDevs !! i with
      | Some ueDev =>
          match lteUeDev ueDev with
          | Some d => <[ueIp := GetImsi d]> m
          | None => m
          end
      | None => m
      end
  | None => m
  end.

Definition build_ipToImsi (ueDevs : list NetDevice) (ueIpIfaces : list N)
    (numUes : nat) : gmap N N :=
  fold_left (ipToImsi_step ueDevs ueIpIfaces) (seq 0 numUes) ∅.

(** [total[imsi] += x]: [operator[]] creates the entry as [0.0] first. *)
Definition add_to (imsi : N) (x : float) (total : gmap N float)
  : gmap N float :=
  <[imsi := (default 0.0%float (total !! imsi) + x)%float]> total.

(** The body of the loop over the flow statistics. *)
Definition accumulate_flow (classifier : N -> FiveTuple) (ipToImsi : gmap N N)
    (currentTime : float) (totals : gmap N float * gmap N float)
    (it : N * FlowStats) : gmap N float * gmap N float :=
  let t := classifier (fst it) in
  if (0 <? currentTime)%float then
    let flowThroughputDl := flowThroughput (rxBytes (snd it)) currentTime in
    let flowThroughputUl := flowThroughput (txBytes (snd it)) currentTime in
    let totalThroughputDl :=
      match ipToImsi !! destinationAddress t with
      | Some imsi => add_to imsi flowThroughputDl (fst totals)
      | None => fst totals
      end in
    let totalThroughputUl :=
      match ipToImsi !! sourceAddress t with
      | Some imsi => add_to imsi flowThroughputUl (snd totals)
      | None => snd totals
      end in
    (totalThroughputDl, totalThroughputUl)
  else totals.

(** [for (it in total) global[it->first] = it->second;] *)
Definition overwrite (total global : gmap N float) : gmap N float :=
  map_fold (fun k v g => <[k := v]> g) global total.

(** [stats] lists the flows in the order of the [std::map] iteration;
    [classifier] is [classifier->FindFlow]. *)
Definition SampleThroughput (stats : list (N * FlowStats))
    (classifier : N -> FiveTuple) (ueDevs : list NetDevice)
    (ueIpIfaces : list N) (numUes : nat) (period : float)
    (currentTime : float) (st : State) : State :=
  let ipToImsi := build_ipToImsi ueDevs ueIpIfaces numUes in
  let totals :=
    fold_left (accumulate_flow classifier ipToImsi currentTime) stats (∅, ∅) in
  let st := set_ueThroughputDl (overwrite (fst totals) (ueThroughputDl st)) st in
  set_ueThroughputUl (overwrite (snd totals) (ueThroughputUl st)) st.

(** ** The traffic summary written at the end of [main] *)

(** The divisors of the two means, as the [uint32_t] expressions compute
    them. *)
Definition delay_divisor (fs : FlowStats) : Z := rxPackets fs.
Definition jitter_divisor (fs : FlowStats) : Z :=
  ((rxPackets fs - 1) mod 2 ^ 32)%Z.

Record FlowRow := {
  row_throughputDl : float; row_throughputUl : float;
  row_delayMean : float; row_jitterMean : float
}.

Definition flow_row (simTime : float) (fs : FlowStats) : FlowRow :=
  let throughputDl :=
    if (0 <? simTime)%float then flowThroughput (rxBytes fs) simTime
    else 0.0%float in
  let throughputUl :=
    if (0 <? simTime)%float then flowThroughput (txBytes fs) simTime
    else 0.0%float in
  let delayMean :=
    if (0 <? rxPackets fs)%Z
    then (GetSeconds (delaySum fs) / u2d (delay_divisor fs) * 1000.0)%float
    else 0.0%float in
  let jitterMean :=
    if (0 <? rxPackets fs)%Z
    then (GetSeconds (jitterSum fs) / u2d (jitter_divisor fs) * 1000.0)%float
    else 0.0%float in
  {| row_throughputDl := throughputDl; row_throughputUl := throughputUl;
     row_delayMean := delayMean; row_jitterMean := jitterMean |}.

(** The rows of the event log ([[]] while there is no logger). *)
Definition rows (st : State) : list (list item) :=
  match g_logger st with
  | Some lg => m_file lg
  | None => []
  end.

(** ** States used in the examples *)

(** The logger exists and nothing has been observed yet. *)
Definition st_started : State := main_create_logger initial.

(** UE 7 has attached to cell 1. *)
Definition st_attached : State :=
  NotifyConnectionEstablishedUe "" 7 1 0 st_started.

(** No map holds anything for the UE. *)
Definition never_observed (imsi : N) (st : State) : Prop :=
  ueCurrentCell st !! imsi = None /\
  ueLastPosition st !! imsi = None /\
  ueLastSpeed st !! imsi = None /\
  ueThroughputDl st !! imsi = None /\
  ueThroughputUl st !! imsi = None /\
  ueLastRsrp st !! imsi = None /\
  ueLastRsrq st !! imsi = None /\
  ueLastSinr st !! imsi = None.

(** ** The exact value of a [double] *)

(** The rational that a finite binary64 number denotes ([None] for an
    infinity or NaN). *)
Definition SF2Q (f : spec_float) : option Q :=
  match f with
  | S754_zero _ => Some 0%Q
  | S754_finite s m e =>
      Some ((if s then -1 else 1) * inject_Z (Z.pos m) * Qpower 2 e)%Q
  | S754_infinity _ => None
  | S754_nan => None
  end.

Definition exact_value (f : float) : option Q := SF2Q (Prim2SF f).

(** [f] denotes exactly the rational [q]. *)
Definition denotes (f : float) (q : Q) : bool :=
  match exact_value f with
  | Some r => Qeq_bool r q
  | None => false
  end.

(** The codes a [uint8_t] can hold. *)
Definition codes : list Z := map Z.of_nat (seq 0 256).

Definition decode_exact_b (v : Z) : bool :=
  denotes (rsrp_decode v) (inject_Z v - 140)%Q &&
  denotes (rsrq_decode v) (- (39 # 2) + inject_Z v / 2)%Q.

Definition decode_increasing_b (v w : Z) : bool :=
  implb (v <? w)%Z
    ((rsrp_decode v <? rsrp_decode w)%float &&
     (rsrq_decode v <? rsrq_decode w)%float).

(** ** The fallback chain in the words of the specification *)

(** Entity-specific value, else the broadcast value of the serving cell,
    else the hardcoded default. *)
Definition spec_chain3 (entity cell : option float) (dflt : float) : float :=
  match entity with
  | Some v => v
  | None => match cell with Some v => v | None => dflt end
  end.

(** Entity-specific value, else the hardcoded default. *)
Definition spec_chain2 (entity : option float) (dflt : float) : float :=
  match entity with
  | Some v => v
  | None => dflt
  end.

(** The latest broadcast value of the serving cell, when the serving cell
    is known (cell 0 stands for "unassigned") and has one. *)
Definition broadcast_of (table : gmap N float) (cellId : N) : option float :=
  if (0 <? cellId)%N then table !! cellId else None.

(** A column of the row written last. *)
Definition latest_field (name : string) (st : State) : option (list atom) :=
  match last (rows st) with
  | Some row => field name row
  | None => None
  end.

(** "The sampler resolves the metric in column [name] by the three-step
    chain over the per-UE map [ue] and the per-cell map [cell]." *)
Definition resolved_by_chain3 (name : string)
    (ue cell : State -> gmap N float) (dflt : float) : Prop :=
  forall time ueDevs i node st lg mob,
    mobility node = Some mob ->
    g_logger st = Some lg ->
    let imsi := node_imsi ueDevs i in
    latest_field name (LogEverySecond_body time ueDevs i node st) =
      Some [ADouble (spec_chain3 (ue st !! imsi)
                       (broadcast_of (cell st) (resolve_cell imsi st)) dflt)].

Definition resolved_by_chain2 (name : string)
    (ue : State -> gmap N float) (dflt : float) : Prop :=
  forall time ueDevs i node st lg mob,
    mobility node = Some mob ->
    g_logger st = Some lg ->
    let imsi := node_imsi ueDevs i in
    latest_field name (LogEverySecond_body time ueDevs i node st) =
      Some [ADouble (spec_chain2 (ue st !! imsi) dflt)].

(** The three link-quality metrics of a row. *)
Inductive Metric := RSRP | RSRQ | SINR.

Definition column_of (m : Metric) : string :=
  match m with
  | RSRP => "RSRP_New"
  | RSRQ => "RSRQ_New"
  | SINR => "SINR_New"
  end.

(** The entity-specific last-known values. *)
Definition ue_table (m : Metric) (st : State) : gmap N float :=
  match m with
  | RSRP => ueLastRsrp st
  | RSRQ => ueLastRsrq st
  | SINR => ueLastSinr st
  end.

(** What one broadcast of a cell (a PHY sample) brings for the metric: the
    trace carries an RSRP and a SINR, and no RSRQ. *)
Definition broadcast_value (m : Metric) (rsrp sinr : float) : option float :=
  match m with
  | RSRP => Some rsrp
  | RSRQ => None
  | SINR => Some sinr
  end.

(** The latest broadcast values per cell. The program keeps a map for RSRP
    and one for SINR; as no broadcast brings an RSRQ, no cell ever has
    one. *)
Definition cell_table (m : Metric) (st : State) : gmap N float :=
  match m with
  | RSRP => cellRsrp st
  | RSRQ => ∅
  | SINR => cellSinr st
  end.

(** The hardcoded defaults. *)
Definition default_of (m : Metric) : float :=
  match m with
  | RSRP => (-100.0)%float
  | RSRQ => (-20.0)%float
  | SINR => 0.0%float
  end.

(** UE 7 is attached to cell 1, and a PHY sample has been received for
    cell 1: RSRP -90 dBm, SINR 5.5 dB. *)
Definition st_broadcast : State :=
  UePhyRsrpSinr "" 1 0 (-90.0)%float 5.5%float 0 st_attached.

Definition node_at (x y vx vy : float) : Node :=
  {| mobility := Some {| GetPosition := {| v_x := x; v_y := y; v_z := 0%float |};
                         GetVelocity := {| v_x := vx; v_y := vy; v_z := 0%float |} |} |}.

Definition dev_of (imsi : N) : NetDevice :=
  {| lteUeDev := Some {| GetImsi := imsi |} |}.

(** ** Runs *)

(** The five trace callbacks that [main] connects and the two periodic
    functions it schedules. *)
Inductive Event :=
| HandoverStart (context : string) (imsi cellid rnti targetCellId : N)
| HandoverEndOk (context : string) (imsi cellid rnti : N) (time : float)
| ConnectionEstablished (context : string) (imsi cellid rnti : N)
| PhyRsrpSinr (context : string) (cellId rnti : N) (rsrp sinr : float)
    (componentCarrierId : N)
| RecvMeasurementReport (context : string) (imsi cellId rnti : N)
    (msg : MeasurementReport) (time : float)
| SnapshotTick (ueNodes : list Node) (ueDevs : list NetDevice) (time : float)
| ThroughputTick (stats : list (N * FlowStats)) (classifier : N -> FiveTuple)
    (ueDevs : list NetDevice) (ueIpIfaces : list N) (numUes : nat)
    (period currentTime : float).

Definition dispatch (e : Event) (st : State) : State :=
  match e with
  | HandoverStart context imsi cellid rnti targetCellId =>
      NotifyHandoverStartEnb context imsi cellid rnti targetCellId st
  | HandoverEndOk context imsi cellid rnti time =>
      NotifyHandoverEndOkEnb context imsi cellid rnti time st
  | ConnectionEstablished context imsi cellid rnti =>
      NotifyConnectionEstablishedUe context imsi cellid rnti st
  | PhyRsrpSinr context cellId rnti rsrp sinr cc =>
      UePhyRsrpSinr context cellId rnti rsrp sinr cc st
  | RecvMeasurementReport context imsi cellId rnti msg time =>
      NotifyRecvMeasurementReport context imsi cellId rnti msg time st
  | SnapshotTick ueNodes ueDevs time =>
      LogEverySecond ueNodes ueDevs time st
  | ThroughputTick stats classifier ueDevs ueIpIfaces numUes period currentTime =>
      SampleThroughput stats classifier ueDevs ueIpIfaces numUes period
        currentTime st
  end.

(** The events in the order the simulator delivers them. *)
Definition run (evs : list Event) (st : State) : State :=
  fold_left (fun st e => dispatch e st) evs st.

Definition is_handover_line (row : list item) : Prop :=
  exists time ueId oldCellId newCellId rsrpOld rsrpNew rsrqOld rsrqNew
         sinrOld sinrNew throughputDl throughputUl x y speed,
    row = handover_line time ueId oldCellId newCellId rsrpOld rsrpNew
            rsrqOld rsrqNew sinrOld sinrNew throughputDl throughputUl
            x y speed "HANDOVER".

Definition is_measurement_line (row : list item) : Prop :=
  exists time ueId cellId rsrp rsrq sinr x y speed throughputDl throughputUl,
    row = measurement_line time ueId cellId rsrp rsrq sinr x y speed
            throughputDl throughputUl.

(** What the event log can hold. *)
Definition log_row (row : list item) : Prop :=
  row = header \/ is_handover_line row \/ is_measurement_line row.

(** The shape of a MEASUREMENT row: the serving cell in both cell columns,
    nothing in the "_Old" columns, a number in each "_New" column. *)
Definition measurement_shape (row : list item) : Prop :=
  exists cellId rsrp rsrq sinr,
    field "Old_gNB_ID" row = Some [AU16 cellId] /\
    field "New_gNB_ID" row = Some [AU16 cellId] /\
    field "RSRP_Old" row = Some [] /\
    field "RSRQ_Old" row = Some [] /\
    field "SINR_Old" row = Some [] /\
    field "RSRP_New" row = Some [ADouble rsrp] /\
    field "RSRQ_New" row = Some [ADouble rsrq] /\
    field "SINR_New" row = Some [ADouble sinr].

Definition has_mobility (node : Node) : Prop := is_Some (mobility node).

(** The nodes of three moving UEs. *)
Definition three_nodes : list Node :=
  [node_at 0 0 3 4; node_at 10 0 0 0; node_at 20 5 6 8].

(** *** One row per entity *)

(** A MEASUREMENT row of UE [imsi] whose two cell columns hold the serving
    cell tracked for that UE in [st] (0 when none is tracked). *)
Definition serving_cell_row (st : State) (imsi : N) (row : list item) : Prop :=
  field "Handover_Type" row = Some (text "MEASUREMENT") /\
  measurement_shape row /\
  field "UE_ID" row = Some [AU64 imsi] /\
  (forall c, ueCurrentCell st !! imsi = Some c ->
     field "Old_gNB_ID" row = Some [AU16 c] /\
     field "New_gNB_ID" row = Some [AU16 c]) /\
  (ueCurrentCell st !! imsi = None ->
     field "Old_gNB_ID" row = Some [AU16 0] /\
     field "New_gNB_ID" row = Some [AU16 0]).

(** The rows of one tick over the UEs [imsis]: as many rows as UEs, the
    [j]-th row being that of the [j]-th UE. *)
Definition tick_rows (imsis : list N) (st : State)
    (new : list (list item)) : Prop :=
  length new = length imsis /\
  forall j imsi, imsis !! j = Some imsi ->
    exists row, new !! j = Some row /\ serving_cell_row st imsi row.

(** Exactly one row of [new] is a row of UE [imsi]. *)
Definition one_row_of (imsi : N) (new : list (list item)) : Prop :=
  exists j row,
    new !! j = Some row /\ field "UE_ID" row = Some [AU64 imsi] /\
    forall k row', new !! k = Some row' ->
      field "UE_ID" row' = Some [AU64 imsi] -> k = j.

(** A snapshot tick over nodes whose devices are the LTE UE devices with
    the IMSIs [imsis], as [main] installs them; the three ticks at 1 s, 2 s
    and 3 s. *)
Definition entity_tick (imsis : list N) (t : list Node * float) : Event :=
  SnapshotTick (fst t) (map dev_of imsis) (snd t).

Definition three_entity_ticks : list (list Node * float) :=
  [ (three_nodes, 1.0%float); (three_nodes, 2.0%float);
    (three_nodes, 3.0%float) ].

(** UE 1 is attached to cell 1 and UE 2 to cell 2; UE 3 has not been seen. *)
Definition st_two_cells : State :=
  run [ ConnectionEstablished "" 1 1 0; ConnectionEstablished "" 2 2 0 ]
    st_started.

(** An event that brings a UE-specific RSRP value for [imsi]: only a
    measurement report of that UE does; no event brings a UE-specific SINR. *)
Definition observes_rsrp (imsi : N) (e : Event) : Prop :=
  match e with
  | RecvMeasurementReport _ imsi' _ _ _ _ => imsi' = imsi
  | _ => False
  end.

(** UE 7 on cell 1 after one snapshot tick has cached the PHY values of
    cell 1; then cell 1 broadcasts new values. *)
Definition st_cached : State :=
  LogEverySecond_body 1.0%float [dev_of 7] 0 (node_at 3 4 3 4) st_broadcast.

Definition later_broadcasts : list Event :=
  [ PhyRsrpSinr "" 1 0 (-70.0)%float 12.0%float 0;
    ConnectionEstablished "" 7 2 0;
    PhyRsrpSinr "" 2 0 (-60.0)%float 20.0%float 0 ].

(** ** Per-UE sums of the traffic sampler *)

(** The rates of the flows attributed to [imsi], in iteration order:
    [addr_of] picks the end of the flow that is looked up in [ipToImsi],
    [bytes_of] the counter. *)
Definition contributions (addr_of : FiveTuple -> N) (bytes_of : FlowStats -> Z)
    (classifier : N -> FiveTuple) (ipToImsi : gmap N N) (currentTime : float)
    (imsi : N) (stats : list (N * FlowStats)) : list float :=
  map (fun it => flowThroughput (bytes_of (snd it)) currentTime)
    (List.filter
       (fun it => bool_decide (ipToImsi !! addr_of (classifier (fst it)) = Some imsi))
       stats).

Definition sum_from (init : float) (xs : list float) : float :=
  fold_left PrimFloat.add xs init.

(** An entry of a per-UE total after rates [xs] have been added to it
    ([operator[]] starts a missing entry at 0.0). *)
Definition accumulated (old : option float) (xs : list float) : option float :=
  match xs with
  | [] => old
  | _ :: _ => Some (sum_from (default 0.0%float old) xs)
  end.

(** What the sampler leaves in a throughput map for [imsi]: the sum of its
    flows, or the old entry when no flow is attributed to it. *)
Definition sampled (old : option float) (xs : list float) : option float :=
  match xs with
  | [] => old
  | _ :: _ => Some (sum_from 0.0%float xs)
  end.




(** A flow with one packet received: one delay sample, no jitter sample. *)
Definition flow_one_packet (delay : float) : FlowStats :=
  {| rxBytes := 1024; txBytes := 1024; txPackets := 1; rxPackets := 1;
     lostPackets := 0; delaySum := {| GetSeconds := delay |};
     jitterSum := {| GetSeconds := 0.0%float |} |}.

(** One downlink flow of 5000 bytes towards UE 7 (address 100) from the
    remote host (address 200). *)
Definition one_flow : list (N * FlowStats) :=
  [ (1%N, {| rxBytes := 5000; txBytes := 5000; txPackets := 5; rxPackets := 5;
             lostPackets := 0; delaySum := {| GetSeconds := 0.0625%float |};
             jitterSum := {| GetSeconds := 0.0%float |} |}) ].

Definition one_flow_classifier (flowId : N) : FiveTuple :=
  {| sourceAddress := 200; destinationAddress := 100 |}.

(** ** Bookkeeping over runs *)

(** An event that sets the tracked serving cell of [imsi] whatever it was:
    connection-established and handover-complete of that UE. *)
Definition changes_cell (imsi : N) (e : Event) : Prop :=
  match e with
  | HandoverEndOk _ imsi' _ _ _ => imsi' = imsi
  | ConnectionEstablished _ imsi' _ _ => imsi' = imsi
  | _ => False
  end.

Definition is_snapshot_tick (e : Event) : Prop :=
  match e with
  | SnapshotTick _ _ _ => True
  | _ => False
  end.

Definition mobile (node : Node) : bool :=
  match mobility node with
  | Some _ => true
  | None => false
  end.

(** The number of lines an event writes while the logger exists. *)
Definition rows_written (e : Event) : nat :=
  match e with
  | HandoverEndOk _ _ _ _ _ => 1
  | RecvMeasurementReport _ _ _ _ _ _ => 1
  | SnapshotTick ueNodes _ _ => length (List.filter mobile ueNodes)
  | _ => 0
  end.

(** The PHY values of the last sample for cell [c] in a run, if any. *)
Fixpoint last_phy (c : N) (evs : list Event) : option (float * float) :=
  match evs with
  | [] => None
  | e :: evs' =>
      match last_phy c evs' with
      | Some s => Some s
      | None =>
          match e with
          | PhyRsrpSinr _ cellId _ rsrp sinr _ =>
              if decide (cellId = c) then Some (rsrp, sinr) else None
          | _ => None
          end
      end
  end.

(** Every key that a map of [st] holds, the same map of [st'] holds too. *)
Definition keeps_keys (st st' : State) : Prop :=
  dom (ueCurrentCell st) ⊆ dom (ueCurrentCell st') /\
  dom (ueLastPosition st) ⊆ dom (ueLastPosition st') /\
  dom (ueLastSpeed st) ⊆ dom (ueLastSpeed st') /\
  dom (ueThroughputDl st) ⊆ dom (ueThroughputDl st') /\
  dom (ueThroughputUl st) ⊆ dom (ueThroughputUl st') /\
  dom (ueLastRsrp st) ⊆ dom (ueLastRsrp st') /\
  dom (ueLastRsrq st) ⊆ dom (ueLastRsrq st') /\
  dom (ueLastSinr st) ⊆ dom (ueLastSinr st') /\
  dom (cellRsrp st) ⊆ dom (cellRsrp st') /\
  dom (cellSinr st) ⊆ dom (cellSinr st').

(** UE 7 has moved from cell 1 to cell 2. *)
Definition st_handed_over : State :=
  NotifyHandoverEndOkEnb "" 7 2 0 5.0%float st_attached.

(** Events that do not set the serving cell of UE 7: a handover-start of
    the UE, a handover of UE 8, PHY samples, a report and a tick. *)
Definition other_events : list Event :=
  [ HandoverStart "" 7 9 0 3;
    HandoverEndOk "" 8 3 0 5.5%float;
    PhyRsrpSinr "" 2 0 (-80.0)%float 9.0%float 0;
    RecvMeasurementReport "" 7 2 0
      {| measResults := {| measResultPCell :=
           {| rsrpResult := 50; rsrqResult := 20 |} |} |} 6.0%float;
    SnapshotTick [node_at 3 4 3 4] [dev_of 7] 6.0%float ].

(** A run from program start: UE 7 attaches to cell 1, is handed over to
    cell 2, and the events above follow. *)
Definition whole_run : list Event :=
  ConnectionEstablished "" 7 1 0 :: HandoverEndOk "" 7 2 0 5.0%float
    :: other_events.

(** Two reports of UE 7 on cell 1: codes (50, 20), then (60, 30). *)
Definition report_of (rsrp rsrq : Z) : MeasurementReport :=
  {| measResults := {| measResultPCell :=
       {| rsrpResult := rsrp; rsrqResult := rsrq |} |} |}.

(** Events without a snapshot tick and without a report of UE 7. *)
Definition quiet_events : list Event :=
  [ PhyRsrpSinr "" 1 0 (-70.0)%float 12.0%float 0;
    HandoverStart "" 7 1 0 2;
    RecvMeasurementReport "" 8 1 0 (report_of 10 10) 2.5%float;
    ThroughputTick one_flow one_flow_classifier [dev_of 7] [100%N] 1
      0.5%float 5.0%float ].

(** ** Set-up in [main] *)

(** *** Mobility of the UEs *)

Inductive MobilityKind :=
| Ns2Trace (file : string)     (* Ns2MobilityHelper on the SUMO trace *)
| RandomWaypoint.              (* ns3::RandomWaypointMobilityModel *)

Inductive MobilityOutcome :=
| FatalError (message : string)          (* NS_FATAL_ERROR *)
| Installed (models : list MobilityKind).

(** The two [if] blocks of [main] that install the UE mobility.
    [traceFileGood] is what [traceFileCheck.good ()] answers; the result
    lists the models installed on the UE nodes, in order. *)
Definition select_mobility (useSumo : bool) (sumoTraceFile : string)
    (traceFileGood : bool) : MobilityOutcome :=
  let useSumoTrace := negb (String.eqb sumoTraceFile "") in
  let first : string + (list MobilityKind * bool) :=
    if useSumo || useSumoTrace then
      if useSumoTrace then
        if negb traceFileGood then
          inl (String.append "SUMO trace file not found: "
                 (String.append sumoTraceFile
                    ". Please generate it using sumo_to_ns3_trace.py or sumo_helper.py"))
        else inr ([Ns2Trace sumoTraceFile], useSumo)
      else if useSumo then inr ([], false)    (* useSumo = false; *)
      else inr ([], useSumo)
    else inr ([], useSumo) in
  match first with
  | inl message => FatalError message
  | inr (installed, useSumo) =>
      if negb useSumo && negb useSumoTrace
      then Installed (installed ++ [RandomWaypoint])
      else Installed installed
  end.

(** *** Positions of the gNBs *)

(** The arithmetic of the grid, in [double] and, for the geometry, over
    the rationals. *)
Class GridArith (D : Type) := {
  g_add : D -> D -> D;
  g_sub : D -> D -> D;
  g_mul : D -> D -> D;
  g_div : D -> D -> D;
  g_of_int : Z -> D;        (* the conversion of [col + 1], [row + 1] *)
  g_lit_2 : D;              (* 2.0 *)
  g_lit_3 : D;              (* 3.0 *)
  g_lit_30 : D              (* 30.0 *)
}.

#[export] Instance float_grid : GridArith float := {
  g_add := PrimFloat.add; g_sub := PrimFloat.sub;
  g_mul := PrimFloat.mul; g_div := PrimFloat.div;
  g_of_int := u2d;
  g_lit_2 := 2.0%float; g_lit_3 := 3.0%float; g_lit_30 := 30.0%float
}.

#[export] Instance Q_grid : GridArith Q := {
  g_add := Qplus; g_sub := Qminus; g_mul := Qmult; g_div := Qdiv;
  g_of_int := inject_Z;
  g_lit_2 := 2%Q; g_lit_3 := 3%Q; g_lit_30 := 30%Q
}.

Section Grid.

Context {D : Type} `{GridArith D}.
Variables (areaXMin areaXMax areaYMin areaYMax : D).

(** [double xStep = (areaXMax - areaXMin) / 3.0;]
    [double yStep = (areaYMax - areaYMin) / 2.0;] *)
Definition xStep : D := g_div (g_sub areaXMax areaXMin) g_lit_3.
Definition yStep : D := g_div (g_sub areaYMax areaYMin) g_lit_2.

(** [Vector (x, y, 30.0)] for the cell in [row], [col]. *)
Definition grid_position (row col : nat) : D * D * D :=
  (g_add areaXMin (g_mul (g_of_int (Z.of_nat col + 1)) xStep),
   g_add areaYMin (g_mul (g_of_int (Z.of_nat row + 1)) yStep),
   g_lit_30).

(** One round of the inner loop. Both loops run while
    [gnbIndex < numGnbs]; once that fails no later round adds anything. *)
Definition grid_step (numGnbs : nat) (row : nat)
    (acc : nat * list (D * D * D)) (col : nat) : nat * list (D * D * D) :=
  if (fst acc <? numGnbs)%nat
  then (S (fst acc), snd acc ++ [grid_position row col])
  else acc.

Definition grid_row (numGnbs : nat) (acc : nat * list (D * D * D))
    (row : nat) : nat * list (D * D * D) :=
  if (fst acc <? numGnbs)%nat
  then fold_left (grid_step numGnbs row) (seq 0 3) acc
  else acc.

(** The positions handed to the [ListPositionAllocator], in order. *)
Definition gnb_positions (numGnbs : nat) : list (D * D * D) :=
  snd (fold_left (grid_row numGnbs) (seq 0 3) (0%nat, [])).

End Grid.

(** The default area of [main]. *)
Definition default_positions (numGnbs : nat) : list (float * float * float) :=
  gnb_positions (-5.0)%float 3230.0%float (-5.0)%float 1210.0%float numGnbs.

(** A flow with five packets received, 0.5 s of summed delay and 0.125 s
    of summed jitter. *)
Definition flow_five_packets : FlowStats :=
  {| rxBytes := 5120; txBytes := 5120; txPackets := 5; rxPackets := 5;
     lostPackets := 0; delaySum := {| GetSeconds := 0.5%float |};
     jitterSum := {| GetSeconds := 0.125%float |} |}.

(** A flow of which nothing arrived. *)
Definition flow_nothing_received : FlowStats :=
  {| rxBytes := 0; txBytes := 2048; txPackets := 2; rxPackets := 0;
     lostPackets := 2; delaySum := {| GetSeconds := 0.0%float |};
     jitterSum := {| GetSeconds := 0.0%float |} |}.

(** *** Initial attachment *)

Section Attach.

(** [std::pow (d, 2)] of the C library. *)
Variable pow2 : float -> float.

(** [std::sqrt (std::pow (uePos.x - enbPos.x, 2) +
               std::pow (uePos.y - enbPos.y, 2))] *)
Definition distance (uePos enbPos : Vector) : float :=
  sqrt (pow2 (v_x uePos - v_x enbPos) + pow2 (v_y uePos - v_y enbPos))%float.

(** [std::numeric_limits<double>::max ()] *)
Definition DBL_MAX : float := 0x1.fffffffffffffp+1023%float.

(** The loop over the eNBs from index [j] on: [closestEnb] and
    [minDistance] so far, then the result. *)
Fixpoint closest_loop (uePos : Vector) (enbs : list Vector) (j : nat)
    (closestEnb : nat) (minDistance : float) : nat * float :=
  match enbs with
  | [] => (closestEnb, minDistance)
  | enbPos :: enbs' =>
      let d := distance uePos enbPos in
      if (d <? minDistance)%float
      then closest_loop uePos enbs' (S j) j d
      else closest_loop uePos enbs' (S j) closestEnb minDistance
  end.

(** The index passed to [gnbDevs.Get] in [lteHelper->Attach]. *)
Definition closest_enb (uePos : Vector) (enbs : list Vector) : nat :=
  fst (closest_loop uePos enbs 0 0 DBL_MAX).

End Attach.

(** *** The order of [double]

    [SFcompare] orders the numbers by sign, then exponent, then mantissa;
    the key below puts them on a scale of integer triples in the same
    order. *)
Definition sf_key (f : spec_float) : Z * Z * Z :=
  match f with
  | S754_nan => (0, 0, 0)
  | S754_infinity true => (-2, 0, 0)
  | S754_infinity false => (2, 0, 0)
  | S754_zero _ => (0, 0, 0)
  | S754_finite true m e => (-1, - e, - Z.pos m)
  | S754_finite false m e => (1, e, Z.pos m)
  end%Z.

Definition key_lt (a b : Z * Z * Z) : Prop :=
  (fst (fst a) < fst (fst b) \/
   fst (fst a) = fst (fst b) /\
   (snd (fst a) < snd (fst b) \/
    snd (fst a) = snd (fst b) /\ snd a < snd b))%Z.

(** A UE at the origin and four eNBs, the second and third equally far. *)
Definition plain_vector (x y : float) : Vector :=
  {| v_x := x; v_y := y; v_z := 0%float |}.

Definition four_enbs : list Vector :=
  [ plain_vector 30 40; plain_vector 3 4; plain_vector 4 3;
    plain_vector 6 8 ].

(** ** What a UE's entries depend on *)

(** Everything the maps hold for one UE. *)
Definition ue_view (st : State) (imsi : N) :=
  (ueCurrentCell st !! imsi, ueLastPosition st !! imsi, ueLastSpeed st !! imsi,
   ueThroughputDl st !! imsi, ueThroughputUl st !! imsi,
   ueLastRsrp st !! imsi, ueLastRsrq st !! imsi, ueLastSinr st !! imsi).

(** The events that are about the UE [imsi]: its own notifications, a
    snapshot tick over a node with a mobility model that has this IMSI, and
    a traffic sample at a positive time with a flow attributed to it. *)
Definition involves (imsi : N) (e : Event) : Prop :=
  match e with
  | HandoverStart _ imsi' _ _ _ => imsi' = imsi
  | HandoverEndOk _ imsi' _ _ _ => imsi' = imsi
  | ConnectionEstablished _ imsi' _ _ => imsi' = imsi
  | PhyRsrpSinr _ _ _ _ _ _ => False
  | RecvMeasurementReport _ imsi' _ _ _ _ => imsi' = imsi
  | SnapshotTick ueNodes ueDevs _ =>
      exists j node,
        ueNodes !! j = Some node /\ mobile node = true /\
        node_imsi ueDevs j = imsi
  | ThroughputTick stats classifier ueDevs ueIpIfaces numUes _ t =>
      (0 <? t)%float = true /\
      let ipToImsi := build_ipToImsi ueDevs ueIpIfaces numUes in
      (contributions destinationAddress rxBytes classifier ipToImsi t imsi stats
         <> [] \/
       contributions sourceAddress txBytes classifier ipToImsi t imsi stats
         <> [])
  end.

(** Notifications of UE 8, PHY samples, a tick over UE 8 only and a traffic
    sample whose only flow belongs to UE 8 (address 100). *)
Definition events_of_ue8 : list Event :=
  [ ConnectionEstablished "" 8 3 0;
    PhyRsrpSinr "" 2 0 (-80.0)%float 9.0%float 0;
    RecvMeasurementReport "" 8 3 0 (report_of 40 12) 6.0%float;
    SnapshotTick [node_at 1 1 0 0] [dev_of 8] 6.0%float;
    HandoverEndOk "" 8 4 0 6.5%float;
    ThroughputTick one_flow one_flow_classifier [dev_of 8] [100%N] 1
      0.5%float 7.0%float ].

(** * Properties *)

(** ** Rows of the event log *)

(** All sixteen columns of a HANDOVER line, by header name. *)
Lemma handover_line_fields :
  forall time ueId oldCellId newCellId rsrpOld rsrpNew rsrqOld rsrqNew
         sinrOld sinrNew throughputDl throughputUl x y speed,
    columns (handover_line time ueId oldCellId newCellId rsrpOld rsrpNew
               rsrqOld rsrqNew sinrOld sinrNew throughputDl throughputUl
               x y speed "HANDOVER") =
      [ [ADouble time]; [AU64 ueId]; [AU16 oldCellId]; [AU16 newCellId];
        [ADouble rsrpOld]; [ADouble rsrpNew]; [ADouble rsrqOld];
        [ADouble rsrqNew]; [ADouble sinrOld]; [ADouble sinrNew];
        [ADouble throughputDl]; [ADouble throughputUl];
        [ADouble x]; [ADouble y]; [ADouble speed]; text "HANDOVER" ].
Proof. intros. reflexivity. Qed.

Lemma measurement_line_fields :
  forall time ueId cellId rsrp rsrq sinr x y speed throughputDl throughputUl,
    columns (measurement_line time ueId cellId rsrp rsrq sinr x y speed
               throughputDl throughputUl) =
      [ [ADouble time]; [AU64 ueId]; [AU16 cellId]; [AU16 cellId];
        []; [ADouble rsrp]; []; [ADouble rsrq]; []; [ADouble sinr];
        [ADouble throughputDl]; [ADouble throughputUl];
        [ADouble x]; [ADouble y]; [ADouble speed]; text "MEASUREMENT" ].
Proof. intros. reflexivity. Qed.

(** The header names the sixteen columns in this order. *)
Lemma header_index :
  map (fun name => index_of name (columns header) 0)
    [ "Time"; "UE_ID"; "Old_gNB_ID"; "New_gNB_ID"; "RSRP_Old"; "RSRP_New";
      "RSRQ_Old"; "RSRQ_New"; "SINR_Old"; "SINR_New"; "Throughput_DL";
      "Throughput_UL"; "X_Position"; "Y_Position"; "Speed"; "Handover_Type" ]
  = map Some (seq 0 16).
Proof. reflexivity. Qed.

Ltac field_of_line :=
  unfold field;
  first [rewrite handover_line_fields | rewrite measurement_line_fields];
  reflexivity.

Lemma measurement_line_shape :
  forall row, is_measurement_line row ->
    field "Handover_Type" row = Some (text "MEASUREMENT") /\
    measurement_shape row.
Proof.
  intros row (time & ueId & cellId & rsrp & rsrq & sinr & x & y & speed
              & tdl & tul & ->).
  split; [field_of_line|].
  exists cellId, rsrp, rsrq, sinr.
  repeat (split; [field_of_line|]). field_of_line.
Qed.

(** ** Lookups with a default *)

Lemma resolve_rsrp_frame :
  forall imsi cellId st,
    let st' := snd (resolve_rsrp imsi cellId st) in
    st' = set_ueLastRsrp (ueLastRsrp st') st.
Proof.
  intros imsi cellId st. unfold resolve_rsrp.
  destruct (ueLastRsrp st !! imsi); [destruct st; reflexivity|].
  destruct (0 <? cellId)%N; [|destruct st; reflexivity].
  destruct (cellRsrp st !! cellId); destruct st; reflexivity.
Qed.

Lemma resolve_sinr_frame :
  forall imsi cellId st,
    let st' := snd (resolve_sinr imsi cellId st) in
    st' = set_ueLastSinr (ueLastSinr st') st.
Proof.
  intros imsi cellId st. unfold resolve_sinr.
  destruct (ueLastSinr st !! imsi); [destruct st; reflexivity|].
  destruct (0 <? cellId)%N; [|destruct st; reflexivity].
  destruct (cellSinr st !! cellId); destruct st; reflexivity.
Qed.

Lemma resolve_rsrp_value :
  forall imsi cellId st,
    fst (resolve_rsrp imsi cellId st) =
      spec_chain3 (ueLastRsrp st !! imsi) (broadcast_of (cellRsrp st) cellId)
        (-100.0)%float.
Proof.
  intros imsi cellId st. unfold resolve_rsrp, spec_chain3, broadcast_of.
  destruct (ueLastRsrp st !! imsi); [reflexivity|].
  destruct (0 <? cellId)%N; [|reflexivity].
  destruct (cellRsrp st !! cellId); reflexivity.
Qed.

Lemma resolve_sinr_value :
  forall imsi cellId st,
    fst (resolve_sinr imsi cellId st) =
      spec_chain3 (ueLastSinr st !! imsi) (broadcast_of (cellSinr st) cellId)
        0.0%float.
Proof.
  intros imsi cellId st. unfold resolve_sinr, spec_chain3, broadcast_of.
  destruct (ueLastSinr st !! imsi); [reflexivity|].
  destruct (0 <? cellId)%N; [|reflexivity].
  destruct (cellSinr st !! cellId); reflexivity.
Qed.

Lemma resolve_rsrp_keeps :
  forall imsi cellId st k v,
    ueLastRsrp st !! k = Some v ->
    ueLastRsrp (snd (resolve_rsrp imsi cellId st)) !! k = Some v.
Proof.
  intros imsi cellId st k v Hk. unfold resolve_rsrp.
  destruct (ueLastRsrp st !! imsi) eqn:E; [exact Hk|].
  destruct (0 <? cellId)%N; [|exact Hk].
  destruct (cellRsrp st !! cellId); [|exact Hk].
  cbn. rewrite lookup_insert_ne; [exact Hk|]. congruence.
Qed.

Lemma resolve_sinr_keeps :
  forall imsi cellId st k v,
    ueLastSinr st !! k = Some v ->
    ueLastSinr (snd (resolve_sinr imsi cellId st)) !! k = Some v.
Proof.
  intros imsi cellId st k v Hk. unfold resolve_sinr.
  destruct (ueLastSinr st !! imsi) eqn:E; [exact Hk|].
  destruct (0 <? cellId)%N; [|exact Hk].
  destruct (cellSinr st !! cellId); [|exact Hk].
  cbn. rewrite lookup_insert_ne; [exact Hk|]. congruence.
Qed.

Lemma resolve_rsrp_caches :
  forall imsi cellId st v,
    ueLastRsrp st !! imsi = None ->
    (0 <? cellId)%N = true ->
    cellRsrp st !! cellId = Some v ->
    resolve_rsrp imsi cellId st =
      (v, set_ueLastRsrp (<[imsi := v]> (ueLastRsrp st)) st).
Proof.
  intros imsi cellId st v Hue Hpos Hcell. unfold resolve_rsrp.
  rewrite Hue, Hpos, Hcell. reflexivity.
Qed.

Lemma resolve_sinr_caches :
  forall imsi cellId st v,
    ueLastSinr st !! imsi = None ->
    (0 <? cellId)%N = true ->
    cellSinr st !! cellId = Some v ->
    resolve_sinr imsi cellId st =
      (v, set_ueLastSinr (<[imsi := v]> (ueLastSinr st)) st).
Proof.
  intros imsi cellId st v Hue Hpos Hcell. unfold resolve_sinr.
  rewrite Hue, Hpos, Hcell. reflexivity.
Qed.

(** Every lookup-with-default of the callbacks, on a UE that no map knows. *)
Lemma defaults_of_never_observed :
  forall imsi st,
    never_observed imsi st ->
    resolve_cell imsi st = 0%N /\
    resolve_rsrp imsi (resolve_cell imsi st) st = ((-100.0)%float, st) /\
    resolve_rsrq imsi st = (-20.0)%float /\
    resolve_sinr imsi (resolve_cell imsi st) st = (0.0%float, st) /\
    last_throughputDl imsi st = 0.0%float /\
    last_throughputUl imsi st = 0.0%float /\
    last_xy imsi st = (0%float, 0%float) /\
    last_speed imsi st = 0%float.
Proof.
  intros imsi st (Hc & Hp & Hs & Hd & Hu & Hrp & Hrq & Hsi).
  unfold resolve_cell, resolve_rsrp, resolve_rsrq, resolve_sinr,
    last_throughputDl, last_throughputUl, last_xy, last_speed.
  rewrite Hc, Hp, Hs, Hd, Hu, Hrp, Hrq, Hsi. cbn.
  repeat split; reflexivity.
Qed.

(** ** The callbacks in one equation *)

(** The effect of the callback when the logger exists, in one equation. *)
Lemma NotifyHandoverEndOkEnb_logged :
  forall context imsi cellid rnti time st lg,
    g_logger st = Some lg ->
    exists row,
      NotifyHandoverEndOkEnb context imsi cellid rnti time st =
        set_ueCurrentCell (<[imsi := cellid]> (ueCurrentCell st))
          (set_g_logger (Some {| m_file := m_file lg ++ [row] |}) st) /\
      row = handover_line time imsi
              (default cellid (ueCurrentCell st !! imsi)) cellid
              (default (-100.0)%float (ueLastRsrp st !! imsi))
              (default (-100.0)%float (ueLastRsrp st !! imsi))
              (default (-20.0)%float (ueLastRsrq st !! imsi))
              (default (-20.0)%float (ueLastRsrq st !! imsi))
              (default 0.0%float (ueLastSinr st !! imsi))
              (default 0.0%float (ueLastSinr st !! imsi))
              (last_throughputDl imsi st) (last_throughputUl imsi st)
              (fst (last_xy imsi st)) (snd (last_xy imsi st))
              (last_speed imsi st) "HANDOVER".
Proof.
  intros context imsi cellid rnti time st lg Hlg.
  unfold NotifyHandoverEndOkEnb. rewrite Hlg.
  destruct (last_xy imsi st) as [x y]. cbn [fst snd].
  eexists. split; [reflexivity|].
  destruct (ueCurrentCell st !! imsi), (ueLastRsrp st !! imsi),
    (ueLastRsrq st !! imsi), (ueLastSinr st !! imsi); reflexivity.
Qed.

(** What a measurement report leaves in the per-UE link-quality maps. *)
Lemma NotifyRecvMeasurementReport_maps :
  forall context imsi cellId rnti msg time st,
    let st' := NotifyRecvMeasurementReport context imsi cellId rnti msg time st in
    let code := measResultPCell (measResults msg) in
    ueLastRsrp st' = <[imsi := rsrp_decode (rsrpResult code)]> (ueLastRsrp st) /\
    ueLastSinr st' = ueLastSinr (snd (resolve_sinr imsi cellId st)).
Proof.
  intros context imsi cellId rnti msg time st st' code. subst st'.
  unfold NotifyRecvMeasurementReport. fold code.
  set (st2 := set_ueLastRsrq _ _).
  pose proof (resolve_sinr_frame imsi cellId st2) as Hq. cbv zeta in Hq.
  assert (Es : ueLastSinr (snd (resolve_sinr imsi cellId st2)) =
               ueLastSinr (snd (resolve_sinr imsi cellId st))).
  { unfold resolve_sinr. subst st2.
    cbn [ueLastSinr cellSinr set_ueLastRsrq set_ueLastRsrp].
    destruct (ueLastSinr st !! imsi); [reflexivity|].
    destruct (0 <? cellId)%N; [|reflexivity].
    destruct (cellSinr st !! cellId); reflexivity. }
  destruct (resolve_sinr imsi cellId st2) as [sinr st3]. cbn [fst snd] in *.
  assert (Er : ueLastRsrp st3 =
               <[imsi := rsrp_decode (rsrpResult code)]> (ueLastRsrp st))
    by (rewrite Hq; reflexivity).
  destruct (g_logger st3); [destruct (last_xy imsi st3)|];
    cbn [ueLastRsrp ueLastSinr set_g_logger]; split; assumption.
Qed.

Lemma NotifyRecvMeasurementReport_log :
  forall context imsi cellId rnti msg time st lg,
    g_logger st = Some lg ->
    exists row,
      g_logger (NotifyRecvMeasurementReport context imsi cellId rnti msg time st)
        = Some {| m_file := m_file lg ++ [row] |} /\
      is_measurement_line row.
Proof.
  intros context imsi cellId rnti msg time st lg Hlg.
  unfold NotifyRecvMeasurementReport.
  set (st2 := set_ueLastRsrq _ _).
  pose proof (resolve_sinr_frame imsi cellId st2) as Hq. cbv zeta in Hq.
  destruct (resolve_sinr imsi cellId st2) as [sinr st3]. cbn [fst snd] in Hq.
  assert (Hlg3 : g_logger st3 = Some lg) by (rewrite Hq; exact Hlg).
  rewrite Hlg3. destruct (last_xy imsi st3) as [x y].
  eexists. split; [reflexivity|].
  unfold is_measurement_line. do 11 eexists. reflexivity.
Qed.

(** The callback stores the decoded values and logs them. *)
Lemma NotifyRecvMeasurementReport_decoded :
  forall context imsi cellId rnti msg time st lg,
    g_logger st = Some lg ->
    let st' := NotifyRecvMeasurementReport context imsi cellId rnti msg time st in
    let code := measResultPCell (measResults msg) in
    ueLastRsrp st' !! imsi = Some (rsrp_decode (rsrpResult code)) /\
    ueLastRsrq st' !! imsi = Some (rsrq_decode (rsrqResult code)) /\
    exists row,
      rows st' = rows st ++ [row] /\
      field "RSRP_New" row = Some [ADouble (rsrp_decode (rsrpResult code))] /\
      field "RSRQ_New" row = Some [ADouble (rsrq_decode (rsrqResult code))] /\
      field "Handover_Type" row = Some (text "MEASUREMENT").
Proof.
  intros context imsi cellId rnti msg time st lg Hlg st' code. subst st'.
  unfold NotifyRecvMeasurementReport. fold code.
  set (st2 := set_ueLastRsrq _ _).
  pose proof (resolve_sinr_frame imsi cellId st2) as Hq. cbv zeta in Hq.
  destruct (resolve_sinr imsi cellId st2) as [sinr st3]. cbn [fst snd] in Hq.
  assert (Hlg3 : g_logger st3 = Some lg) by (rewrite Hq; exact Hlg).
  rewrite Hlg3. destruct (last_xy imsi st3) as [x y].
  assert (Hp : ueLastRsrp st3 !! imsi = Some (rsrp_decode (rsrpResult code))).
  { rewrite Hq. cbn. apply lookup_insert_eq. }
  assert (Hqq : ueLastRsrq st3 !! imsi = Some (rsrq_decode (rsrqResult code))).
  { rewrite Hq. cbn. apply lookup_insert_eq. }
  split; [exact Hp|]. split; [exact Hqq|].
  eexists. split; [unfold rows; cbn; rewrite Hlg; reflexivity|].
  repeat (split; [field_of_line|]). field_of_line.
Qed.

Lemma NotifyRecvMeasurementReport_cells :
  forall context imsi cellId rnti msg time st lg,
    g_logger st = Some lg ->
    let st' := NotifyRecvMeasurementReport context imsi cellId rnti msg time st in
    latest_field "Handover_Type" st' = Some (text "MEASUREMENT") /\
    latest_field "UE_ID" st' = Some [AU64 imsi] /\
    latest_field "Old_gNB_ID" st' = Some [AU16 cellId] /\
    latest_field "New_gNB_ID" st' = Some [AU16 cellId].
Proof.
  intros context imsi cellId rnti msg time st lg Hlg st'. subst st'.
  unfold NotifyRecvMeasurementReport.
  set (st2 := set_ueLastRsrq _ _).
  pose proof (resolve_sinr_frame imsi cellId st2) as Hq. cbv zeta in Hq.
  destruct (resolve_sinr imsi cellId st2) as [sinr st3]. cbn [fst snd] in *.
  assert (Hlg3 : g_logger st3 = Some lg) by (rewrite Hq; exact Hlg).
  rewrite Hlg3. destruct (last_xy imsi st3) as [x y].
  unfold latest_field, rows. cbn [g_logger set_g_logger LogMeasurement m_file].
  rewrite last_snoc. repeat split; field_of_line.
Qed.

Lemma NotifyRecvMeasurementReport_sinr :
  forall context imsi cellId rnti msg time st lg,
    g_logger st = Some lg ->
    latest_field "SINR_New"
      (NotifyRecvMeasurementReport context imsi cellId rnti msg time st) =
      Some [ADouble (spec_chain3 (ueLastSinr st !! imsi)
                       (broadcast_of (cellSinr st) cellId) 0.0%float)].
Proof.
  intros context imsi cellId rnti msg time st lg Hlg.
  unfold NotifyRecvMeasurementReport.
  set (st2 := set_ueLastRsrq _ _).
  pose proof (resolve_sinr_frame imsi cellId st2) as Hq. cbv zeta in Hq.
  pose proof (resolve_sinr_value imsi cellId st2) as Vq.
  change (ueLastSinr st2) with (ueLastSinr st) in Vq.
  change (cellSinr st2) with (cellSinr st) in Vq.
  destruct (resolve_sinr imsi cellId st2) as [sinr st3]. cbn [fst snd] in *.
  assert (Hlg3 : g_logger st3 = Some lg) by (rewrite Hq; exact Hlg).
  rewrite Hlg3. destruct (last_xy imsi st3) as [x y].
  unfold latest_field, rows. cbn [g_logger set_g_logger LogMeasurement m_file].
  rewrite last_snoc, <- Vq. field_of_line.
Qed.

(** ** The snapshot sampler *)

(** One node of the loop that has a mobility model, with the logger in
    place. *)
Section SamplerNode.

Variables (time : float) (ueDevs : list NetDevice) (i : nat) (node : Node).
Variables (st : State) (lg : HandoverDataLogger) (mob : MobilityModel).
Hypothesis Hmob : mobility node = Some mob.
Hypothesis Hlg : g_logger st = Some lg.

Local Abbreviation imsi := (node_imsi ueDevs i).
Local Abbreviation cellId := (resolve_cell (node_imsi ueDevs i) st).
Local Abbreviation pos := (GetPosition mob).
Local Abbreviation speed := (speed_of (GetVelocity mob)).

(** Position and speed are stored, the two resolutions may cache a value,
    and one MEASUREMENT line is appended. *)
Lemma LogEverySecond_body_logged :
  let st2 := set_ueLastSpeed (<[imsi := speed]> (ueLastSpeed st))
               (set_ueLastPosition (<[imsi := pos]> (ueLastPosition st)) st) in
  let r := resolve_rsrp imsi cellId st2 in
  let q := resolve_sinr imsi cellId (snd r) in
  LogEverySecond_body time ueDevs i node st =
    set_g_logger
      (Some {| m_file := m_file lg ++
                 [measurement_line time imsi cellId (fst r)
                    (resolve_rsrq imsi st) (fst q) (v_x pos) (v_y pos) speed
                    (last_throughputDl imsi st) (last_throughputUl imsi st)] |})
      (snd q).
Proof.
  intros st2 r q.
  unfold LogEverySecond_body. rewrite Hmob. cbv zeta.
  cbn [g_logger set_ueLastSpeed set_ueLastPosition]. rewrite Hlg.
  change (resolve_cell imsi (set_ueLastSpeed _ _)) with cellId.
  change (set_ueLastSpeed _ _) with st2. fold r.
  pose proof (resolve_rsrp_frame imsi cellId st2) as Hr. cbv zeta in Hr.
  fold r in Hr. destruct r as [rsrp st3]. cbn [fst snd] in *.
  fold q.
  pose proof (resolve_sinr_frame imsi cellId st3) as Hq. cbv zeta in Hq.
  fold q in Hq. destruct q as [sinr st4]. cbn [fst snd] in *.
  replace (resolve_rsrq imsi st3) with (resolve_rsrq imsi st)
    by (rewrite Hr; reflexivity).
  replace (last_throughputDl imsi st4) with (last_throughputDl imsi st)
    by (rewrite Hq, Hr; reflexivity).
  replace (last_throughputUl imsi st4) with (last_throughputUl imsi st)
    by (rewrite Hq, Hr; reflexivity).
  reflexivity.
Qed.

(** The three link-quality columns of the row the node gets. *)
Lemma LogEverySecond_body_quality :
  let st' := LogEverySecond_body time ueDevs i node st in
  latest_field "RSRP_New" st' =
    Some [ADouble (spec_chain3 (ueLastRsrp st !! imsi)
                     (broadcast_of (cellRsrp st) cellId) (-100.0)%float)] /\
  latest_field "RSRQ_New" st' =
    Some [ADouble (spec_chain2 (ueLastRsrq st !! imsi) (-20.0)%float)] /\
  latest_field "SINR_New" st' =
    Some [ADouble (spec_chain3 (ueLastSinr st !! imsi)
                     (broadcast_of (cellSinr st) cellId) 0.0%float)].
Proof.
  intros st'. subst st'. rewrite LogEverySecond_body_logged.
  set (st2 := set_ueLastSpeed _ _).
  pose proof (resolve_rsrp_frame imsi cellId st2) as Hr. cbv zeta in Hr.
  pose proof (resolve_rsrp_value imsi cellId st2) as Vr.
  pose proof (resolve_sinr_value imsi cellId (snd (resolve_rsrp imsi cellId st2)))
    as Vq.
  rewrite Hr in Vq at 2 3.
  change (ueLastRsrp st2) with (ueLastRsrp st) in Vr.
  change (cellRsrp st2) with (cellRsrp st) in Vr.
  change (ueLastSinr (set_ueLastRsrp _ st2)) with (ueLastSinr st) in Vq.
  change (cellSinr (set_ueLastRsrp _ st2)) with (cellSinr st) in Vq.
  rewrite Vr, Vq.
  unfold latest_field, rows. cbn [g_logger set_g_logger m_file].
  rewrite last_snoc.
  repeat split; field_of_line.
Qed.

(** The two caches afterwards, in terms of the two resolutions. *)
Lemma LogEverySecond_body_caches :
  let st' := LogEverySecond_body time ueDevs i node st in
  ueLastRsrp st' = ueLastRsrp (snd (resolve_rsrp imsi cellId st)) /\
  ueLastSinr st' = ueLastSinr (snd (resolve_sinr imsi cellId st)).
Proof.
  intros st'. subst st'. rewrite LogEverySecond_body_logged.
  cbn [ueLastRsrp ueLastSinr set_g_logger].
  set (st2 := set_ueLastSpeed _ _).
  pose proof (resolve_rsrp_frame imsi cellId st2) as Hr. cbv zeta in Hr.
  set (st3 := snd (resolve_rsrp imsi cellId st2)) in *.
  pose proof (resolve_sinr_frame imsi cellId st3) as Hq. cbv zeta in Hq.
  split.
  - rewrite Hq. cbn [ueLastRsrp set_ueLastSinr]. subst st3.
    unfold resolve_rsrp. subst st2.
    cbn [ueLastRsrp cellRsrp set_ueLastSpeed set_ueLastPosition].
    destruct (ueLastRsrp st !! imsi); [reflexivity|].
    destruct (0 <? cellId)%N; [|reflexivity].
    destruct (cellRsrp st !! cellId); reflexivity.
  - unfold resolve_sinr at 1. unfold resolve_sinr at 1.
    replace (ueLastSinr st3) with (ueLastSinr st) by (rewrite Hr; reflexivity).
    replace (cellSinr st3) with (cellSinr st) by (rewrite Hr; reflexivity).
    destruct (ueLastSinr st !! imsi) eqn:E.
    + cbn [snd]. rewrite Hr. reflexivity.
    + destruct (0 <? cellId)%N; [|cbn [snd]; rewrite Hr; reflexivity].
      destruct (cellSinr st !! cellId); cbn [snd]; [|rewrite Hr; reflexivity].
      cbn [ueLastSinr set_ueLastSinr]. reflexivity.
Qed.

End SamplerNode.

(** A node of the loop: nothing but the log, the position and speed of the
    node and the two caches change, and a node with a mobility model adds
    exactly one line, for its IMSI and serving cell. *)
Lemma LogEverySecond_body_rows :
  forall time ueDevs i node st lg,
    g_logger st = Some lg ->
    let st' := LogEverySecond_body time ueDevs i node st in
    let imsi := node_imsi ueDevs i in
    ueCurrentCell st' = ueCurrentCell st /\
    match mobility node with
    | Some mob =>
        exists row,
          g_logger st' = Some {| m_file := m_file lg ++ [row] |} /\
          is_measurement_line row /\
          field "UE_ID" row = Some [AU64 imsi] /\
          field "Old_gNB_ID" row = Some [AU16 (resolve_cell imsi st)] /\
          field "New_gNB_ID" row = Some [AU16 (resolve_cell imsi st)]
    | None => st' = st
    end.
Proof.
  intros time ueDevs i node st lg Hlg st' imsi. subst st'.
  destruct (mobility node) as [mob|] eqn:Hmob.
  - rewrite (LogEverySecond_body_logged time ueDevs i node st lg mob Hmob Hlg).
    fold imsi.
    set (st2 := set_ueLastSpeed _ _).
    set (r := resolve_rsrp imsi (resolve_cell imsi st) st2).
    pose proof (resolve_rsrp_frame imsi (resolve_cell imsi st) st2) as Hr.
    cbv zeta in Hr. fold r in Hr.
    set (q := resolve_sinr imsi (resolve_cell imsi st) (snd r)).
    pose proof (resolve_sinr_frame imsi (resolve_cell imsi st) (snd r)) as Hq.
    cbv zeta in Hq. fold q in Hq.
    split.
    + cbn [ueCurrentCell set_g_logger]. rewrite Hq, Hr. reflexivity.
    + eexists. split; [reflexivity|].
      split; [unfold is_measurement_line; do 11 eexists; reflexivity|].
      repeat (split; [field_of_line|]). field_of_line.
  - unfold LogEverySecond_body. rewrite Hmob. split; reflexivity.
Qed.

Lemma LogEverySecond_body_keeps :
  forall time ueDevs i node st k,
    let st' := LogEverySecond_body time ueDevs i node st in
    (forall v, ueLastRsrp st !! k = Some v -> ueLastRsrp st' !! k = Some v) /\
    (forall v, ueLastSinr st !! k = Some v -> ueLastSinr st' !! k = Some v).
Proof.
  intros time ueDevs i node st k st'. subst st'.
  destruct (mobility node) as [mob|] eqn:Hmob;
    [|unfold LogEverySecond_body; rewrite Hmob; split; auto].
  destruct (g_logger st) as [lg|] eqn:Hlg.
  - destruct (LogEverySecond_body_caches time ueDevs i node st lg mob Hmob Hlg)
      as [-> ->].
    split; intros v Hv; [apply resolve_rsrp_keeps | apply resolve_sinr_keeps];
      exact Hv.
  - unfold LogEverySecond_body. rewrite Hmob.
    cbn [g_logger set_ueLastSpeed set_ueLastPosition]. rewrite Hlg.
    split; auto.
Qed.

Lemma LogEverySecond_loop_rows :
  forall time ueDevs nodes i st lg,
    g_logger st = Some lg ->
    Forall has_mobility nodes ->
    let st' := LogEverySecond_loop time ueDevs i nodes st in
    exists new,
      g_logger st' = Some {| m_file := m_file lg ++ new |} /\
      ueCurrentCell st' = ueCurrentCell st /\
      length new = length nodes /\
      Forall is_measurement_line new /\
      forall j row, new !! j = Some row ->
        let imsi := node_imsi ueDevs (i + j) in
        field "UE_ID" row = Some [AU64 imsi] /\
        field "Old_gNB_ID" row = Some [AU16 (resolve_cell imsi st)] /\
        field "New_gNB_ID" row = Some [AU16 (resolve_cell imsi st)].
Proof.
  intros time ueDevs nodes. induction nodes as [|node nodes IH];
    intros i st lg Hlg Hall; cbn [LogEverySecond_loop].
  - exists []. rewrite app_nil_r. destruct lg.
    split; [exact Hlg|]. split; [reflexivity|]. split; [reflexivity|].
    split; [constructor|].
    intros j row Hj. rewrite lookup_nil in Hj. discriminate.
  - inversion Hall as [|? ? [mob Hmob] Hall']; subst.
    pose proof (LogEverySecond_body_rows time ueDevs i node st lg Hlg)
      as [Hcell Hbody].
    cbv zeta in Hbody. rewrite Hmob in Hbody.
    destruct Hbody as (row & Hlg1 & Hline & Hue & Hold & Hnew).
    destruct (IH (S i) _ _ Hlg1 Hall')
      as (new & Hlg2 & Hcell2 & Hlen & Hlines & Hfields).
    exists (row :: new). cbn [m_file] in Hlg2.
    rewrite <- app_assoc in Hlg2. cbn [app] in Hlg2.
    split; [exact Hlg2|]. split; [congruence|].
    split; [cbn; congruence|]. split; [constructor; assumption|].
    intros [|j] row' Hj; cbn in Hj.
    + injection Hj as <-. rewrite Nat.add_0_r. cbv zeta. auto.
    + specialize (Hfields j row' Hj). cbv zeta in Hfields.
      replace (i + S j)%nat with (S i + j)%nat by lia.
      unfold resolve_cell in *. rewrite Hcell in Hfields. exact Hfields.
Qed.

Lemma LogEverySecond_loop_log :
  forall time ueDevs nodes i st lg,
    g_logger st = Some lg ->
    exists new,
      g_logger (LogEverySecond_loop time ueDevs i nodes st) =
        Some {| m_file := m_file lg ++ new |} /\
      Forall is_measurement_line new.
Proof.
  intros time ueDevs nodes. induction nodes as [|node nodes IH];
    intros i st lg Hlg; cbn [LogEverySecond_loop].
  - exists []. rewrite app_nil_r. destruct lg. split; [exact Hlg|constructor].
  - pose proof (LogEverySecond_body_rows time ueDevs i node st lg Hlg)
      as [_ Hbody].
    cbv zeta in Hbody. destruct (mobility node) as [mob|].
    + destruct Hbody as (row & Hlg1 & Hline & _).
      destruct (IH (S i) _ _ Hlg1) as (new & Hlg2 & Hlines).
      exists (row :: new). cbn [m_file] in Hlg2.
      rewrite <- app_assoc in Hlg2. split; [exact Hlg2|].
      constructor; assumption.
    + rewrite Hbody. apply IH. exact Hlg.
Qed.

Lemma LogEverySecond_loop_keeps :
  forall time ueDevs nodes i st k,
    let st' := LogEverySecond_loop time ueDevs i nodes st in
    (forall v, ueLastRsrp st !! k = Some v -> ueLastRsrp st' !! k = Some v) /\
    (forall v, ueLastSinr st !! k = Some v -> ueLastSinr st' !! k = Some v).
Proof.
  intros time ueDevs nodes. induction nodes as [|node nodes IH];
    intros i st k; cbn [LogEverySecond_loop]; [split; auto|].
  destruct (LogEverySecond_body_keeps time ueDevs i node st k) as [B1 B2].
  destruct (IH (S i) (LogEverySecond_body time ueDevs i node st) k) as [L1 L2].
  split; intros v Hv; [apply L1, B1 | apply L2, B2]; exact Hv.
Qed.

(** ** Runs *)

(** Every event leaves the logger in place and only appends lines. *)
Lemma dispatch_log :
  forall e st lg,
    g_logger st = Some lg ->
    exists new,
      g_logger (dispatch e st) = Some {| m_file := m_file lg ++ new |} /\
      Forall log_row new.
Proof.
  intros e st lg Hlg.
  assert (Hsame : forall st', g_logger st' = g_logger st ->
            exists new, g_logger st' = Some {| m_file := m_file lg ++ new |} /\
                        Forall log_row new).
  { intros st' E. exists []. rewrite app_nil_r, E, Hlg. destruct lg.
    split; [reflexivity|constructor]. }
  destruct e; cbn [dispatch].
  - apply Hsame. unfold NotifyHandoverStartEnb.
    destruct (ueCurrentCell st !! imsi); reflexivity.
  - destruct (NotifyHandoverEndOkEnb_logged context imsi cellid rnti time st lg Hlg)
      as (row & -> & Hrow).
    exists [row]. split; [reflexivity|].
    constructor; [|constructor]. right. left. rewrite Hrow.
    unfold is_handover_line. do 15 eexists. reflexivity.
  - apply Hsame. reflexivity.
  - apply Hsame. reflexivity.
  - destruct (NotifyRecvMeasurementReport_log context imsi cellId rnti msg time
                st lg Hlg) as (row & E & Hrow).
    exists [row]. split; [exact E|].
    constructor; [|constructor]. right. right. exact Hrow.
  - destruct (LogEverySecond_loop_log time ueDevs ueNodes 0 st lg Hlg)
      as (new & E & Hnew).
    exists new. split; [exact E|].
    eapply Forall_impl; [exact Hnew|]. intros row Hrow. right. right. exact Hrow.
  - apply Hsame. reflexivity.
Qed.

Lemma run_log :
  forall evs st lg,
    g_logger st = Some lg ->
    exists new,
      g_logger (run evs st) = Some {| m_file := m_file lg ++ new |} /\
      Forall log_row new.
Proof.
  unfold run. induction evs as [|e evs IH]; intros st lg Hlg; cbn [fold_left].
  - exists []. rewrite app_nil_r. destruct lg. split; [exact Hlg|constructor].
  - destruct (dispatch_log e st lg Hlg) as (new1 & Hlg1 & Hnew1).
    destruct (IH _ _ Hlg1) as (new2 & Hlg2 & Hnew2).
    exists (new1 ++ new2). cbn [m_file] in Hlg2. rewrite <- app_assoc in Hlg2.
    split; [exact Hlg2|]. apply Forall_app. split; assumption.
Qed.

(** From program start on, the log holds the header and lines of the two
    kinds only. *)
Lemma run_rows_from_start :
  forall evs, Forall log_row (rows (run evs st_started)).
Proof.
  intros evs.
  destruct (run_log evs st_started {| m_file := [header] |} eq_refl)
    as (new & Hlg & Hnew).
  unfold rows. rewrite Hlg. cbn [m_file]. constructor; [|exact Hnew].
  left. reflexivity.
Qed.

(** [main] creates the logger before it connects any trace, and no
    callback drops it. *)
Lemma logger_in_every_run :
  forall evs, is_Some (g_logger (run evs st_started)).
Proof.
  intros evs.
  destruct (run_log evs st_started {| m_file := [header] |} eq_refl)
    as (new & Hlg & _).
  rewrite Hlg. eexists. reflexivity.
Qed.

(** Once a UE has a value of its own, only a UE-specific observation
    replaces it. *)
Lemma dispatch_keeps :
  forall e st imsi,
    (forall v, ~ observes_rsrp imsi e ->
       ueLastRsrp st !! imsi = Some v ->
       ueLastRsrp (dispatch e st) !! imsi = Some v) /\
    (forall v, ueLastSinr st !! imsi = Some v ->
       ueLastSinr (dispatch e st) !! imsi = Some v).
Proof.
  intros e st imsi. destruct e; cbn [dispatch observes_rsrp].
  - unfold NotifyHandoverStartEnb.
    destruct (ueCurrentCell st !! imsi0); split; auto.
  - unfold NotifyHandoverEndOkEnb.
    destruct (g_logger st); [destruct (last_xy imsi0 st)|]; split; auto.
  - split; auto.
  - split; auto.
  - destruct (NotifyRecvMeasurementReport_maps context imsi0 cellId rnti msg time st)
      as [-> ->].
    split.
    + intros v Hobs Hv. rewrite lookup_insert_ne; [exact Hv|exact Hobs].
    + intros v Hv. apply resolve_sinr_keeps. exact Hv.
  - destruct (LogEverySecond_loop_keeps time ueDevs ueNodes 0 st imsi) as [L1 L2].
    split; [intros v _|]; auto.
  - split; auto.
Qed.

Lemma run_keeps :
  forall evs st imsi,
    (forall v, Forall (fun e => ~ observes_rsrp imsi e) evs ->
       ueLastRsrp st !! imsi = Some v ->
       ueLastRsrp (run evs st) !! imsi = Some v) /\
    (forall v, ueLastSinr st !! imsi = Some v ->
       ueLastSinr (run evs st) !! imsi = Some v).
Proof.
  unfold run. induction evs as [|e evs IH]; intros st imsi; cbn [fold_left];
    [split; auto|].
  destruct (dispatch_keeps e st imsi) as [D1 D2].
  destruct (IH (dispatch e st) imsi) as [R1 R2].
  split.
  - intros v Hall Hv. inversion Hall; subst. apply R1; auto.
  - intros v Hv. apply R2, D2, Hv.
Qed.

(** ** Conversions *)

(** The conversion rounds to nearest, ties to even, over the whole
    [uint64_t] range: above [2^63] the doubles are 2048 apart. *)
Example u2d_examples :
  u2d 255 = 255%float /\
  u2d (2 ^ 53 + 1) = 9007199254740992%float /\
  u2d (2 ^ 63 + 1024) = 9223372036854775808%float /\
  u2d (2 ^ 63 + 1025) = 9223372036854777856%float /\
  u2d (2 ^ 64 - 1) = 18446744073709551616%float.
Proof. repeat split; reflexivity. Qed.

(** ** Decoding of measurement reports *)

Lemma in_codes : forall v, (0 <= v <= 255)%Z -> In v codes.
Proof.
  intros v Hv. unfold codes.
  rewrite <- (Z2Nat.id v) by lia.
  apply in_map. apply in_seq. lia.
Qed.

Lemma decode_exact_all : forallb decode_exact_b codes = true.
Proof. vm_compute. reflexivity. Qed.

Lemma decode_increasing_all :
  forallb (fun v => forallb (decode_increasing_b v) codes) codes = true.
Proof. vm_compute. reflexivity. Qed.

Lemma denotes_spec :
  forall f q, denotes f q = true ->
    exists r, exact_value f = Some r /\ (r == q)%Q.
Proof.
  intros f q. unfold denotes.
  destruct (exact_value f) as [r|]; [|discriminate].
  intros H. exists r. split; [reflexivity|]. apply Qeq_bool_iff. exact H.
Qed.

(** ** The traffic sampler and the traffic summary *)

Lemma overwrite_lookup :
  forall (total global : gmap N float) k,
    overwrite total global !! k =
      match total !! k with
      | Some v => Some v
      | None => global !! k
      end.
Proof.
  intros total global. unfold overwrite.
  apply (map_fold_weak_ind
           (fun r (m : gmap N float) =>
              forall k, r !! k = match m !! k with
                                 | Some v => Some v
                                 | None => global !! k
                                 end)).
  - intros k. rewrite lookup_empty. reflexivity.
  - intros i x m r Hi IH k. destruct (decide (i = k)) as [->|Hne].
    + rewrite !lookup_insert_eq. reflexivity.
    + rewrite !lookup_insert_ne by exact Hne. apply IH.
Qed.

Lemma accumulated_cons :
  forall (old : option float) x xs,
    accumulated (Some (default 0.0%float old + x)%float) xs =
      accumulated old (x :: xs).
Proof. intros old x [|y ys]; reflexivity. Qed.

Lemma contributions_cons :
  forall addr_of bytes_of classifier ipToImsi t imsi it stats,
    contributions addr_of bytes_of classifier ipToImsi t imsi (it :: stats) =
      if bool_decide (ipToImsi !! addr_of (classifier (fst it)) = Some imsi)
      then flowThroughput (bytes_of (snd it)) t
             :: contributions addr_of bytes_of classifier ipToImsi t imsi stats
      else contributions addr_of bytes_of classifier ipToImsi t imsi stats.
Proof.
  intros. unfold contributions. cbn [List.filter].
  destruct (bool_decide _); reflexivity.
Qed.

(** The per-UE totals after the loop over the flows. *)
Lemma accumulate_lookup :
  forall classifier ipToImsi t imsi stats dl ul,
    (0 <? t)%float = true ->
    let totals := fold_left (accumulate_flow classifier ipToImsi t) stats (dl, ul) in
    fst totals !! imsi =
      accumulated (dl !! imsi)
        (contributions destinationAddress rxBytes classifier ipToImsi t imsi stats) /\
    snd totals !! imsi =
      accumulated (ul !! imsi)
        (contributions sourceAddress txBytes classifier ipToImsi t imsi stats).
Proof.
  intros classifier ipToImsi t imsi stats.
  induction stats as [|it stats IH]; intros dl ul Ht; cbn [fold_left].
  - split; reflexivity.
  - unfold accumulate_flow at 2 4. rewrite Ht. cbn [fst snd].
    match goal with |- context [fold_left _ stats (?a, ?b)] =>
      destruct (IH a b Ht) as [IHd IHu] end.
    cbv zeta in IHd, IHu. rewrite IHd, IHu. clear IHd IHu IH.
    rewrite !contributions_cons.
    split.
    + destruct (ipToImsi !! destinationAddress (classifier (fst it))) as [k|] eqn:E.
      * destruct (decide (k = imsi)) as [->|Hne].
        -- rewrite bool_decide_eq_true_2 by reflexivity.
           unfold add_to. rewrite lookup_insert_eq.
           apply accumulated_cons.
        -- rewrite bool_decide_eq_false_2 by congruence.
           unfold add_to. rewrite lookup_insert_ne by exact Hne. reflexivity.
      * rewrite bool_decide_eq_false_2 by congruence. reflexivity.
    + destruct (ipToImsi !! sourceAddress (classifier (fst it))) as [k|] eqn:E.
      * destruct (decide (k = imsi)) as [->|Hne].
        -- rewrite bool_decide_eq_true_2 by reflexivity.
           unfold add_to. rewrite lookup_insert_eq.
           apply accumulated_cons.
        -- rewrite bool_decide_eq_false_2 by congruence.
           unfold add_to. rewrite lookup_insert_ne by exact Hne. reflexivity.
      * rewrite bool_decide_eq_false_2 by congruence. reflexivity.
Qed.

(** The throughput maps after a tick at a positive time. *)
Lemma SampleThroughput_lookup :
  forall stats classifier ueDevs ueIpIfaces numUes period t st imsi,
    (0 <? t)%float = true ->
    let ipToImsi := build_ipToImsi ueDevs ueIpIfaces numUes in
    let st' := SampleThroughput stats classifier ueDevs ueIpIfaces numUes
                 period t st in
    ueThroughputDl st' !! imsi =
      sampled (ueThroughputDl st !! imsi)
        (contributions destinationAddress rxBytes classifier ipToImsi t imsi stats) /\
    ueThroughputUl st' !! imsi =
      sampled (ueThroughputUl st !! imsi)
        (contributions sourceAddress txBytes classifier ipToImsi t imsi stats).
Proof.
  intros stats classifier ueDevs ueIpIfaces numUes period t st imsi Ht ipToImsi st'.
  subst st'. unfold SampleThroughput. fold ipToImsi.
  cbn [ueThroughputDl ueThroughputUl set_ueThroughputDl set_ueThroughputUl].
  rewrite !overwrite_lookup.
  destruct (accumulate_lookup classifier ipToImsi t imsi stats ∅ ∅ Ht)
    as [Hd Hu].
  cbv zeta in Hd, Hu. rewrite Hd, Hu, !lookup_empty.
  unfold sampled, accumulated. cbn [default].
  split.
  - destruct (contributions destinationAddress _ _ _ _ _ _); reflexivity.
  - destruct (contributions sourceAddress _ _ _ _ _ _); reflexivity.
Qed.




(** With one or more packets received the delay divisor is not zero, and
    with two or more neither is the jitter divisor. *)
Lemma divisors_nonzero :
  forall fs,
    ((1 <= rxPackets fs)%Z -> delay_divisor fs <> 0%Z) /\
    ((2 <= rxPackets fs < 2 ^ 32)%Z -> jitter_divisor fs <> 0%Z).
Proof.
  intros fs. unfold delay_divisor, jitter_divisor. split.
  - lia.
  - intros H. rewrite Z.mod_small by lia. lia.
Qed.

(** * The claims *)

(** C1. With the logger in place and serving cell [c1] tracked for the UE,
    a handover-complete notification for cell [c2] appends exactly one row
    to the event log; the row is a HANDOVER row with old cell [c1] and new
    cell [c2], its old and new link-quality columns coincide, and afterwards
    the tracked serving cell of the UE is [c2]. *)
Theorem C1_handover_complete_tracked :
  forall context imsi c2 rnti time st lg c1,
    g_logger st = Some lg ->
    ueCurrentCell st !! imsi = Some c1 ->
    let st' := NotifyHandoverEndOkEnb context imsi c2 rnti time st in
    exists row,
      rows st' = rows st ++ [row] /\
      field "Old_gNB_ID" row = Some [AU16 c1] /\
      field "New_gNB_ID" row = Some [AU16 c2] /\
      field "Handover_Type" row = Some (text "HANDOVER") /\
      field "UE_ID" row = Some [AU64 imsi] /\
      field "RSRP_Old" row = field "RSRP_New" row /\
      field "RSRQ_Old" row = field "RSRQ_New" row /\
      field "SINR_Old" row = field "SINR_New" row /\
      ueCurrentCell st' !! imsi = Some c2.
Proof.
  intros context imsi c2 rnti time st lg c1 Hlg Hcell st'. subst st'.
  destruct (NotifyHandoverEndOkEnb_logged context imsi c2 rnti time st lg Hlg)
    as (row & -> & ->).
  exists (handover_line time imsi
            (default c2 (ueCurrentCell st !! imsi)) c2
            (default (-100.0)%float (ueLastRsrp st !! imsi))
            (default (-100.0)%float (ueLastRsrp st !! imsi))
            (default (-20.0)%float (ueLastRsrq st !! imsi))
            (default (-20.0)%float (ueLastRsrq st !! imsi))
            (default 0.0%float (ueLastSinr st !! imsi))
            (default 0.0%float (ueLastSinr st !! imsi))
            (last_throughputDl imsi st) (last_throughputUl imsi st)
            (fst (last_xy imsi st)) (snd (last_xy imsi st))
            (last_speed imsi st) "HANDOVER").
  rewrite Hcell. cbn [default].
  split; [unfold rows; rewrite Hlg; reflexivity|].
  repeat (split; [field_of_line|]).
  cbn. apply lookup_insert_eq.
Qed.

Lemma C1_handover_complete_tracked_witness :
  exists row,
    rows (NotifyHandoverEndOkEnb "" 7 2 0 5%float st_attached) =
      rows st_attached ++ [row] /\
    field "Old_gNB_ID" row = Some [AU16 1] /\
    field "New_gNB_ID" row = Some [AU16 2] /\
    field "Handover_Type" row = Some (text "HANDOVER") /\
    field "UE_ID" row = Some [AU64 7] /\
    field "RSRP_Old" row = field "RSRP_New" row /\
    field "RSRQ_Old" row = field "RSRQ_New" row /\
    field "SINR_Old" row = field "SINR_New" row /\
    ueCurrentCell (NotifyHandoverEndOkEnb "" 7 2 0 5%float st_attached) !! 7%N
      = Some 2%N.
Proof.
  apply (C1_handover_complete_tracked "" 7 2 0 5%float st_attached
           {| m_file := [header] |} 1); reflexivity.
Defined.

(** C2. With the logger in place and no serving cell tracked for the UE, a
    handover-complete notification still appends exactly one HANDOVER row;
    its old and new cell are both the reported cell, and the callback
    returns normally with that cell tracked. *)
Theorem C2_handover_complete_untracked :
  forall context imsi cellid rnti time st lg,
    g_logger st = Some lg ->
    ueCurrentCell st !! imsi = None ->
    let st' := NotifyHandoverEndOkEnb context imsi cellid rnti time st in
    exists row,
      rows st' = rows st ++ [row] /\
      field "Old_gNB_ID" row = Some [AU16 cellid] /\
      field "New_gNB_ID" row = Some [AU16 cellid] /\
      field "Handover_Type" row = Some (text "HANDOVER") /\
      field "UE_ID" row = Some [AU64 imsi] /\
      ueCurrentCell st' !! imsi = Some cellid.
Proof.
  intros context imsi cellid rnti time st lg Hlg Hcell st'. subst st'.
  destruct (NotifyHandoverEndOkEnb_logged context imsi cellid rnti time st lg Hlg)
    as (row & Hst & Hrow).
  exists row. rewrite Hst. subst row. rewrite Hcell. cbn [default].
  split; [unfold rows; rewrite Hlg; reflexivity|].
  repeat (split; [field_of_line|]).
  cbn. apply lookup_insert_eq.
Qed.

Lemma C2_handover_complete_untracked_witness :
  exists row,
    rows (NotifyHandoverEndOkEnb "" 7 2 0 5%float st_started) =
      rows st_started ++ [row] /\
    field "Old_gNB_ID" row = Some [AU16 2] /\
    field "New_gNB_ID" row = Some [AU16 2] /\
    field "Handover_Type" row = Some (text "HANDOVER") /\
    field "UE_ID" row = Some [AU64 7] /\
    ueCurrentCell (NotifyHandoverEndOkEnb "" 7 2 0 5%float st_started) !! 7%N
      = Some 2%N.
Proof.
  apply (C2_handover_complete_untracked "" 7 2 0 5%float st_started
           {| m_file := [header] |}); reflexivity.
Defined.

(** C3. For every code [v] in 0..255 the decoded RSRP is exactly [v - 140]
    and the decoded RSRQ exactly [-19.5 + v/2] (the binary64 results denote
    these rationals, nothing is rounded); code 0 gives -140.0 and -19.5,
    code 255 gives 115.0 and 108.0; both decodings are strictly increasing
    on 0..255; and these are the values the measurement-report callback
    stores for the UE and writes to its row. *)
Theorem C3_decode_linear :
  (forall v, (0 <= v <= 255)%Z ->
     (exists r, exact_value (rsrp_decode v) = Some r /\
                (r == inject_Z v - 140)%Q) /\
     (exists r, exact_value (rsrq_decode v) = Some r /\
                (r == - (39 # 2) + inject_Z v / 2)%Q)) /\
  rsrp_decode 0 = (-140.0)%float /\ rsrq_decode 0 = (-19.5)%float /\
  rsrp_decode 255 = 115.0%float /\ rsrq_decode 255 = 108.0%float /\
  (forall v w, (0 <= v)%Z -> (v < w)%Z -> (w <= 255)%Z ->
     (rsrp_decode v <? rsrp_decode w)%float = true /\
     (rsrq_decode v <? rsrq_decode w)%float = true) /\
  (forall context imsi cellId rnti msg time st lg,
     g_logger st = Some lg ->
     let st' := NotifyRecvMeasurementReport context imsi cellId rnti msg time st in
     let code := measResultPCell (measResults msg) in
     ueLastRsrp st' !! imsi = Some (rsrp_decode (rsrpResult code)) /\
     ueLastRsrq st' !! imsi = Some (rsrq_decode (rsrqResult code)) /\
     exists row,
       rows st' = rows st ++ [row] /\
       field "RSRP_New" row = Some [ADouble (rsrp_decode (rsrpResult code))] /\
       field "RSRQ_New" row = Some [ADouble (rsrq_decode (rsrqResult code))] /\
       field "Handover_Type" row = Some (text "MEASUREMENT")).
Proof.
  split.
  { intros v Hv.
    pose proof (proj1 (forallb_forall _ _) decode_exact_all v (in_codes v Hv)) as H.
    unfold decode_exact_b in H. apply andb_prop in H as [H1 H2].
    split; apply denotes_spec; assumption. }
  repeat (split; [reflexivity|]).
  split.
  { intros v w Hv Hvw Hw.
    pose proof (proj1 (forallb_forall _ _) decode_increasing_all v
                  (in_codes v ltac:(lia))) as H.
    pose proof (proj1 (forallb_forall _ _) H w (in_codes w ltac:(lia))) as H'.
    unfold decode_increasing_b in H'.
    replace (v <? w)%Z with true in H' by (symmetry; apply Z.ltb_lt; lia).
    cbn [implb] in H'. apply andb_prop in H'. exact H'. }
  exact NotifyRecvMeasurementReport_decoded.
Qed.

Lemma C3_decode_linear_witness :
  ((rsrp_decode 3 <? rsrp_decode 200)%float = true /\
   (rsrq_decode 3 <? rsrq_decode 200)%float = true) /\
  (exists r, exact_value (rsrq_decode 17) = Some r /\
             (r == - (39 # 2) + inject_Z 17 / 2)%Q).
Proof.
  destruct C3_decode_linear as (Hexact & _ & _ & _ & _ & Hmono & _).
  split.
  - apply Hmono; lia.
  - apply (Hexact 17%Z). lia.
Defined.

(** C4. For a UE that no map knows, every field is read as its default:
    serving cell 0, RSRP -100.0, RSRQ -20.0, SINR 0.0, throughput 0.0 both
    ways, position (0,0), speed 0.
    The row of a handover-complete notification carries RSRP -100.0,
    RSRQ -20.0 and SINR 0.0 (old and new), throughput 0.0 both ways,
    position (0,0) and speed 0; the row of the snapshot sampler carries
    serving cell 0 and the same link-quality and throughput defaults
    (position and speed are there the values just read from the mobility
    model of the node). *)
Theorem C4_snapshot_defaults :
  forall imsi st lg,
    g_logger st = Some lg ->
    never_observed imsi st ->
    (resolve_cell imsi st = 0%N /\
     fst (resolve_rsrp imsi (resolve_cell imsi st) st) = (-100.0)%float /\
     resolve_rsrq imsi st = (-20.0)%float /\
     fst (resolve_sinr imsi (resolve_cell imsi st) st) = 0.0%float /\
     last_throughputDl imsi st = 0.0%float /\
     last_throughputUl imsi st = 0.0%float /\
     last_xy imsi st = (0%float, 0%float) /\
     last_speed imsi st = 0%float) /\
    (forall context cellid rnti time,
        exists row,
          rows (NotifyHandoverEndOkEnb context imsi cellid rnti time st) =
            rows st ++ [row] /\
          field "RSRP_Old" row = Some [ADouble (-100.0)%float] /\
          field "RSRP_New" row = Some [ADouble (-100.0)%float] /\
          field "RSRQ_Old" row = Some [ADouble (-20.0)%float] /\
          field "RSRQ_New" row = Some [ADouble (-20.0)%float] /\
          field "SINR_Old" row = Some [ADouble 0.0%float] /\
          field "SINR_New" row = Some [ADouble 0.0%float] /\
          field "Throughput_DL" row = Some [ADouble 0.0%float] /\
          field "Throughput_UL" row = Some [ADouble 0.0%float] /\
          field "X_Position" row = Some [ADouble 0%float] /\
          field "Y_Position" row = Some [ADouble 0%float] /\
          field "Speed" row = Some [ADouble 0%float]) /\
    (forall time ueDevs i node mob,
        mobility node = Some mob ->
        node_imsi ueDevs i = imsi ->
        exists row,
          rows (LogEverySecond_body time ueDevs i node st) =
            rows st ++ [row] /\
          field "Old_gNB_ID" row = Some [AU16 0] /\
          field "New_gNB_ID" row = Some [AU16 0] /\
          field "RSRP_New" row = Some [ADouble (-100.0)%float] /\
          field "RSRQ_New" row = Some [ADouble (-20.0)%float] /\
          field "SINR_New" row = Some [ADouble 0.0%float] /\
          field "Throughput_DL" row = Some [ADouble 0.0%float] /\
          field "Throughput_UL" row = Some [ADouble 0.0%float] /\
          field "X_Position" row = Some [ADouble (v_x (GetPosition mob))] /\
          field "Y_Position" row = Some [ADouble (v_y (GetPosition mob))] /\
          field "Speed" row = Some [ADouble (speed_of (GetVelocity mob))]).
Proof.
  intros imsi st lg Hlg Hnever.
  pose proof (defaults_of_never_observed imsi st Hnever)
    as (Dc & Drp & Drq & Dsi & Dd & Du & Dxy & Dsp).
  destruct Hnever as (Hc & Hp & Hs & Hd & Hu & Hrp & Hrq & Hsi).
  split; [|split].
  - rewrite Drp, Dsi. cbn [fst]. repeat split; assumption || reflexivity.
  - intros context cellid rnti time.
    destruct (NotifyHandoverEndOkEnb_logged context imsi cellid rnti time st lg Hlg)
      as (row & Hst & Hrow).
    exists row. rewrite Hst. subst row.
    rewrite Hc, Hrp, Hrq, Hsi, Dd, Du, Dxy, Dsp. cbn [default fst snd].
    split; [unfold rows; rewrite Hlg; reflexivity|].
    repeat (split; [field_of_line|]). field_of_line.
  - intros time ueDevs i node mob Hmob Himsi.
    rewrite (LogEverySecond_body_logged time ueDevs i node st lg mob Hmob Hlg).
    rewrite Himsi, Dc.
    set (st2 := set_ueLastSpeed _ _).
    assert (E1 : resolve_rsrp imsi 0 st2 = ((-100.0)%float, st2)).
    { unfold resolve_rsrp. subst st2. cbn [ueLastRsrp set_ueLastSpeed
        set_ueLastPosition]. rewrite Hrp. reflexivity. }
    rewrite E1. cbn [fst snd].
    assert (E2 : resolve_sinr imsi 0 st2 = (0.0%float, st2)).
    { unfold resolve_sinr. subst st2. cbn [ueLastSinr set_ueLastSpeed
        set_ueLastPosition]. rewrite Hsi. reflexivity. }
    rewrite E2, Drq, Dd, Du. cbn [fst snd].
    eexists. split; [unfold rows; cbn; rewrite Hlg; reflexivity|].
    repeat (split; [field_of_line|]). field_of_line.
Qed.

Lemma C4_snapshot_defaults_witness :
  (exists row,
      rows (NotifyHandoverEndOkEnb "" 7 2 0 5%float st_started) =
        rows st_started ++ [row] /\
      field "RSRP_Old" row = Some [ADouble (-100.0)%float] /\
      field "RSRP_New" row = Some [ADouble (-100.0)%float] /\
      field "RSRQ_Old" row = Some [ADouble (-20.0)%float] /\
      field "RSRQ_New" row = Some [ADouble (-20.0)%float] /\
      field "SINR_Old" row = Some [ADouble 0.0%float] /\
      field "SINR_New" row = Some [ADouble 0.0%float] /\
      field "Throughput_DL" row = Some [ADouble 0.0%float] /\
      field "Throughput_UL" row = Some [ADouble 0.0%float] /\
      field "X_Position" row = Some [ADouble 0%float] /\
      field "Y_Position" row = Some [ADouble 0%float] /\
      field "Speed" row = Some [ADouble 0%float]) /\
  never_observed 7 st_started.
Proof.
  assert (Hn : never_observed 7 st_started) by (repeat split; reflexivity).
  split; [|exact Hn].
  exact (proj1 (proj2 (C4_snapshot_defaults 7 st_started
                         {| m_file := [header] |} eq_refl Hn))
           "" 2%N 0%N 5%float).
Defined.

(** C5. At a sampler tick each of RSRP, RSRQ and SINR is resolved by the
    same three-step chain: the UE's own last value if there is one, else
    the latest broadcast value of the serving cell if that cell is known
    and has one, else the default (-100.0, -20.0, 0.0). The per-cell
    values are those of the cell's latest PHY sample, which brings an RSRP
    and a SINR and no RSRQ; hence the second step never yields a value for
    RSRQ, which comes out as the UE's own last value or the default. *)
Theorem C5_fallback_chains :
  (forall m,
     resolved_by_chain3 (column_of m) (ue_table m) (cell_table m)
       (default_of m)) /\
  (forall m context cellId rnti rsrp sinr cc st,
     let st' := UePhyRsrpSinr context cellId rnti rsrp sinr cc st in
     cell_table m st' !! cellId = broadcast_value m rsrp sinr /\
     (forall c, c <> cellId -> cell_table m st' !! c = cell_table m st !! c) /\
     ue_table m st' = ue_table m st) /\
  resolved_by_chain2 "RSRQ_New" ueLastRsrq (-20.0)%float.
Proof.
  split; [|split].
  - intros m. unfold resolved_by_chain3.
    intros time ueDevs i node st lg mob Hmob Hlg.
    destruct (LogEverySecond_body_quality time ueDevs i node st lg mob Hmob Hlg)
      as (Hrsrp & Hrsrq & Hsinr).
    destruct m; cbn [column_of ue_table cell_table default_of].
    + exact Hrsrp.
    + rewrite Hrsrq. unfold broadcast_of.
      destruct (0 <? resolve_cell (node_imsi ueDevs i) st)%N;
        [rewrite lookup_empty|]; reflexivity.
    + exact Hsinr.
  - intros m context cellId rnti rsrp sinr cc st st'. subst st'.
    unfold UePhyRsrpSinr.
    destruct m; cbn; repeat split;
      first [ apply lookup_insert_eq
            | apply lookup_empty
            | intros c Hc; apply lookup_insert_ne; congruence
            | reflexivity ].
  - unfold resolved_by_chain2.
    intros time ueDevs i node st lg mob Hmob Hlg.
    apply (LogEverySecond_body_quality time ueDevs i node st lg mob Hmob Hlg).
Qed.

Lemma C5_fallback_chains_witness :
  latest_field "RSRP_New"
    (LogEverySecond_body 1%float [dev_of 7] 0 (node_at 3 4 3 4) st_broadcast) =
    Some [ADouble (-90.0)%float] /\
  latest_field "RSRQ_New"
    (LogEverySecond_body 1%float [dev_of 7] 0 (node_at 3 4 3 4) st_broadcast) =
    Some [ADouble (-20.0)%float] /\
  latest_field "SINR_New"
    (LogEverySecond_body 1%float [dev_of 7] 0 (node_at 3 4 3 4) st_broadcast) =
    Some [ADouble 5.5%float].
Proof.
  destruct C5_fallback_chains as (H & _ & _).
  split; [|split].
  - exact (H RSRP 1%float [dev_of 7] 0%nat (node_at 3 4 3 4) st_broadcast
             {| m_file := [header] |} _ eq_refl eq_refl).
  - exact (H RSRQ 1%float [dev_of 7] 0%nat (node_at 3 4 3 4) st_broadcast
             {| m_file := [header] |} _ eq_refl eq_refl).
  - exact (H SINR 1%float [dev_of 7] 0%nat (node_at 3 4 3 4) st_broadcast
             {| m_file := [header] |} _ eq_refl eq_refl).
Defined.

(** The rows of a tick, entity by entity. *)
Lemma LogEverySecond_tick_rows :
  forall ueNodes imsis time st lg,
    g_logger st = Some lg ->
    Forall has_mobility ueNodes ->
    length ueNodes = length imsis ->
    let st' := LogEverySecond ueNodes (map dev_of imsis) time st in
    exists new,
      g_logger st' = Some {| m_file := m_file lg ++ new |} /\
      ueCurrentCell st' = ueCurrentCell st /\
      tick_rows imsis st new.
Proof.
  intros ueNodes imsis time st lg Hlg Hall Hlen st'. subst st'.
  unfold LogEverySecond.
  destruct (LogEverySecond_loop_rows time (map dev_of imsis) ueNodes 0 st lg
              Hlg Hall) as (new & Hlg' & Hcell & Hlen' & Hlines & Hfields).
  exists new. split; [exact Hlg'|]. split; [exact Hcell|].
  split; [congruence|].
  intros j imsi Himsi.
  assert (Hj : (j < length new)%nat)
    by (apply lookup_lt_Some in Himsi; lia).
  destruct (lookup_lt_is_Some_2 new j Hj) as [row Hrow].
  exists row. split; [exact Hrow|].
  pose proof (proj1 (Forall_lookup _ _) Hlines j row Hrow) as Hline.
  destruct (measurement_line_shape row Hline) as [Htype Hshape].
  specialize (Hfields j row Hrow). cbn [Nat.add] in Hfields.
  cbv zeta in Hfields.
  assert (Hi : node_imsi (map dev_of imsis) j = imsi).
  { unfold node_imsi. change (map dev_of imsis) with (dev_of <$> imsis).
    rewrite list_lookup_fmap, Himsi. reflexivity. }
  rewrite Hi in Hfields. destruct Hfields as (Hue & Hold & Hnew).
  unfold resolve_cell in Hold, Hnew.
  split; [exact Htype|]. split; [exact Hshape|]. split; [exact Hue|].
  split.
  - intros c Hc. rewrite Hc in Hold, Hnew. split; assumption.
  - intros Hc. rewrite Hc in Hold, Hnew. split; assumption.
Qed.

(** With pairwise distinct IMSIs, the rows of a tick hold exactly one row
    of each UE. *)
Lemma tick_rows_one_row :
  forall imsis st new,
    tick_rows imsis st new ->
    NoDup imsis ->
    forall imsi, imsi ∈ imsis -> one_row_of imsi new.
Proof.
  intros imsis st new [Hlen Hrows] Hnd imsi Hin.
  apply list_elem_of_lookup in Hin as [j Hj].
  destruct (Hrows j imsi Hj) as (row & Hrow & _ & _ & Hue & _).
  exists j, row. split; [exact Hrow|]. split; [exact Hue|].
  intros k row' Hk Hue'.
  assert (Hk' : (k < length imsis)%nat)
    by (apply lookup_lt_Some in Hk; lia).
  destruct (lookup_lt_is_Some_2 imsis k Hk') as [imsi' Hi'].
  destruct (Hrows k imsi' Hi') as (row'' & Hrow'' & _ & _ & Hue'' & _).
  rewrite Hk in Hrow''. injection Hrow'' as <-.
  rewrite Hue' in Hue''. injection Hue'' as ->.
  exact (NoDup_lookup imsis k j imsi' Hnd Hi' Hj).
Qed.

Lemma tick_rows_cells :
  forall imsis st st' new,
    ueCurrentCell st' = ueCurrentCell st ->
    tick_rows imsis st' new -> tick_rows imsis st new.
Proof.
  intros imsis st st' new Hcell. unfold tick_rows, serving_cell_row.
  rewrite Hcell. auto.
Qed.

(** The rows of several ticks, tick by tick. *)
Lemma entity_ticks_rows :
  forall imsis ticks st lg,
    g_logger st = Some lg ->
    Forall (fun t => length (fst t) = length imsis /\
                     Forall has_mobility (fst t)) ticks ->
    exists blocks,
      g_logger (run (map (entity_tick imsis) ticks) st) =
        Some {| m_file := m_file lg ++ concat blocks |} /\
      length blocks = length ticks /\
      length (concat blocks) = (length ticks * length imsis)%nat /\
      Forall (tick_rows imsis st) blocks.
Proof.
  intros imsis ticks. unfold run.
  induction ticks as [|[nodes time] ticks IH]; intros st lg Hlg Hall;
    cbn [map fold_left].
  - exists []. cbn [concat]. rewrite app_nil_r. destruct lg.
    split; [exact Hlg|]. split; [reflexivity|]. split; [reflexivity|].
    constructor.
  - inversion Hall as [|? ? [Hlen Hmob] Hall']; subst. cbn [fst snd] in *.
    cbn [entity_tick dispatch fst snd].
    destruct (LogEverySecond_tick_rows nodes imsis time st lg Hlg Hmob Hlen)
      as (new1 & Hlg1 & Hcell1 & Hrows1).
    destruct (IH _ _ Hlg1 Hall') as (blocks & Hlg2 & Hlen2 & Hcount & Hrows2).
    exists (new1 :: blocks). cbn [concat m_file] in *.
    rewrite <- app_assoc in Hlg2.
    split; [exact Hlg2|]. split; [cbn; congruence|].
    split.
    + rewrite length_app, Hcount. destruct Hrows1 as [-> _]. cbn. lia.
    + constructor; [exact Hrows1|].
      eapply Forall_impl; [exact Hrows2|].
      intros new. apply tick_rows_cells. exact Hcell1.
Qed.

(** C6. In the event log of any run from program start, a row whose type
    column reads MEASUREMENT has the same cell in the old-cell and new-cell
    columns, nothing in the RSRP_Old, RSRQ_Old and SINR_Old columns and a
    number in each "_New" column. A snapshot tick over nodes that all have
    a mobility model and whose devices are the UE devices with IMSIs
    [imsis] appends one such row per UE, in order: the row of a UE holds
    its IMSI and, in both cell columns, the serving cell tracked for it (0
    when none is tracked); with pairwise distinct IMSIs it is the only row
    of that UE. Several ticks append one such block of rows each, so [k]
    ticks over [n] UEs append [k * n] rows. The row of a measurement
    report carries in both cell columns the cell that received the
    report. *)
Theorem C6_measurement_rows :
  (forall evs row,
     row ∈ rows (run evs st_started) ->
     field "Handover_Type" row = Some (text "MEASUREMENT") ->
     measurement_shape row) /\
  (forall ueNodes imsis time st lg,
     g_logger st = Some lg ->
     Forall has_mobility ueNodes ->
     length ueNodes = length imsis ->
     exists new,
       rows (LogEverySecond ueNodes (map dev_of imsis) time st) =
         rows st ++ new /\
       tick_rows imsis st new /\
       (NoDup imsis -> forall imsi, imsi ∈ imsis -> one_row_of imsi new)) /\
  (forall imsis ticks st lg,
     g_logger st = Some lg ->
     Forall (fun t => length (fst t) = length imsis /\
                      Forall has_mobility (fst t)) ticks ->
     exists blocks,
       rows (run (map (entity_tick imsis) ticks) st) =
         rows st ++ concat blocks /\
       length blocks = length ticks /\
       length (concat blocks) = (length ticks * length imsis)%nat /\
       Forall (fun new =>
                 tick_rows imsis st new /\
                 (NoDup imsis ->
                  forall imsi, imsi ∈ imsis -> one_row_of imsi new))
         blocks) /\
  (forall context imsi cellId rnti msg time st lg,
     g_logger st = Some lg ->
     let st' := NotifyRecvMeasurementReport context imsi cellId rnti msg time st in
     latest_field "Handover_Type" st' = Some (text "MEASUREMENT") /\
     latest_field "UE_ID" st' = Some [AU64 imsi] /\
     latest_field "Old_gNB_ID" st' = Some [AU16 cellId] /\
     latest_field "New_gNB_ID" st' = Some [AU16 cellId]).
Proof.
  split; [|split; [|split; [|exact NotifyRecvMeasurementReport_cells]]].
  - intros evs row Hin Htype.
    pose proof (proj1 (Forall_forall _ _) (run_rows_from_start evs) row Hin)
      as [-> | [Hho | Hme]].
    + vm_compute in Htype. discriminate.
    + destruct Hho as (time & ueId & oldCellId & newCellId & rsrpOld & rsrpNew
                       & rsrqOld & rsrqNew & sinrOld & sinrNew & tdl & tul
                       & x & y & speed & ->).
      unfold field in Htype. rewrite handover_line_fields in Htype.
      vm_compute in Htype. discriminate.
    + apply measurement_line_shape. exact Hme.
  - intros ueNodes imsis time st lg Hlg Hall Hlen.
    destruct (LogEverySecond_tick_rows ueNodes imsis time st lg Hlg Hall Hlen)
      as (new & Hlg' & _ & Hrows).
    exists new. unfold rows. rewrite Hlg', Hlg. cbn [m_file].
    split; [reflexivity|]. split; [exact Hrows|].
    apply (tick_rows_one_row imsis st new Hrows).
  - intros imsis ticks st lg Hlg Hall.
    destruct (entity_ticks_rows imsis ticks st lg Hlg Hall)
      as (blocks & Hlg' & Hlen & Hcount & Hrows).
    exists blocks. unfold rows. rewrite Hlg', Hlg. cbn [m_file].
    split; [reflexivity|]. split; [exact Hlen|]. split; [exact Hcount|].
    eapply Forall_impl; [exact Hrows|].
    intros new Hnew. split; [exact Hnew|].
    apply (tick_rows_one_row imsis st new Hnew).
Qed.

Lemma C6_measurement_rows_witness :
  exists blocks,
    rows (run (map (entity_tick [1; 2; 3]%N) three_entity_ticks) st_two_cells) =
      rows st_two_cells ++ concat blocks /\
    length (concat blocks) = 9%nat /\
    Forall (fun new =>
              (exists row,
                 new !! 1%nat = Some row /\
                 field "UE_ID" row = Some [AU64 2] /\
                 field "Old_gNB_ID" row = Some [AU16 2] /\
                 field "New_gNB_ID" row = Some [AU16 2]) /\
              (exists row,
                 new !! 2%nat = Some row /\
                 field "UE_ID" row = Some [AU64 3] /\
                 field "Old_gNB_ID" row = Some [AU16 0] /\
                 field "New_gNB_ID" row = Some [AU16 0]) /\
              one_row_of 2 new) blocks.
Proof.
  assert (Hlg : g_logger st_two_cells = Some {| m_file := [header] |})
    by (vm_compute; reflexivity).
  assert (Hc2 : ueCurrentCell st_two_cells !! 2%N = Some 2%N)
    by (vm_compute; reflexivity).
  assert (Hc3 : ueCurrentCell st_two_cells !! 3%N = None)
    by (vm_compute; reflexivity).
  assert (Hnd : NoDup [1; 2; 3]%N) by compute_done.
  assert (H2 : 2%N ∈ [1; 2; 3]%N) by compute_done.
  assert (Hall : Forall (fun t : list Node * float =>
                           length (fst t) = length [1; 2; 3]%N /\
                           Forall has_mobility (fst t)) three_entity_ticks).
  { repeat constructor; eexists; reflexivity. }
  destruct (proj1 (proj2 (proj2 C6_measurement_rows)) [1; 2; 3]%N
              three_entity_ticks st_two_cells _ Hlg Hall)
    as (blocks & Hrows & _ & Hcount & Hblocks).
  exists blocks. split; [exact Hrows|]. split; [exact Hcount|].
  eapply Forall_impl; [exact Hblocks|].
  intros new [[_ Hnew] Hone].
  split; [|split].
  - destruct (Hnew 1%nat 2%N eq_refl) as (row & Hrow & _ & _ & Hue & Hc & _).
    exists row. destruct (Hc 2%N Hc2) as [Hold Hnew2].
    repeat split; assumption.
  - destruct (Hnew 2%nat 3%N eq_refl) as (row & Hrow & _ & _ & Hue & _ & Hc).
    exists row. destruct (Hc Hc3) as [Hold Hnew3].
    repeat split; assumption.
  - exact (Hone Hnd 2%N H2).
Defined.

(** C7. A handover-start notification records the reported source cell as
    the serving cell of the UE only when none is tracked yet; a tracked
    serving cell is kept; every other map and the event log are unchanged
    (in particular no row is written), and no other UE's serving cell
    changes. *)
Theorem C7_handover_start_first_seen :
  forall context imsi cellid rnti targetCellId st,
    let st' := NotifyHandoverStartEnb context imsi cellid rnti targetCellId st in
    (ueCurrentCell st !! imsi = None ->
       ueCurrentCell st' !! imsi = Some cellid) /\
    (forall c, ueCurrentCell st !! imsi = Some c ->
       ueCurrentCell st' !! imsi = Some c) /\
    (forall other, other <> imsi ->
       ueCurrentCell st' !! other = ueCurrentCell st !! other) /\
    st' = set_ueCurrentCell (ueCurrentCell st') st /\
    g_logger st' = g_logger st /\ rows st' = rows st.
Proof.
  intros context imsi cellid rnti targetCellId st st'. subst st'.
  unfold NotifyHandoverStartEnb, rows.
  destruct (ueCurrentCell st !! imsi) as [c0|] eqn:E.
  - split; [discriminate|]. split; [intros c Hc; congruence|].
    split; [reflexivity|]. split; [destruct st; reflexivity|].
    split; reflexivity.
  - split; [intros _; cbn; apply lookup_insert_eq|].
    split; [discriminate|].
    split; [intros other Hne; cbn; apply lookup_insert_ne; congruence|].
    split; [reflexivity|]. split; reflexivity.
Qed.

Lemma C7_handover_start_first_seen_witness :
  ueCurrentCell (NotifyHandoverStartEnb "" 7 1 0 2 st_started) !! 7%N = Some 1%N /\
  ueCurrentCell (NotifyHandoverStartEnb "" 7 3 0 2 st_attached) !! 7%N = Some 1%N.
Proof.
  split.
  - apply (proj1 (C7_handover_start_first_seen "" 7 1 0 2 st_started)).
    reflexivity.
  - apply (proj1 (proj2 (C7_handover_start_first_seen "" 7 3 0 2 st_attached))).
    reflexivity.
Defined.




(** C9. A flow with exactly one received packet passes the guard
    [rxPackets > 0]; its delay mean is [delaySum / 1 * 1000], but the
    divisor of the jitter mean, [rxPackets - 1], is zero there, and the
    jitter mean written for the flow is not a number. *)
Theorem C9_jitter_divisor_zero_for_one_packet :
  forall simTime delay,
    let fs := flow_one_packet delay in
    (0 <? rxPackets fs)%Z = true /\
    delay_divisor fs = 1%Z /\
    row_delayMean (flow_row simTime fs) = (delay / 1 * 1000.0)%float /\
    jitter_divisor fs = 0%Z /\
    row_jitterMean (flow_row simTime fs) = (0.0 / 0.0 * 1000.0)%float /\
    is_nan (row_jitterMean (flow_row simTime fs)) = true.
Proof.
  intros simTime delay fs. subst fs. repeat split; reflexivity.
Qed.

(** C10. When a snapshot tick resolves RSRP or SINR of a UE from the PHY
    value of its serving cell, or a measurement report resolves SINR that
    way, the value is stored as the UE's own. From then on the UE's own
    value is what is logged: whatever events follow that bring no
    UE-specific RSRP for it (for SINR: whatever events follow), a later
    snapshot row of the UE still carries the cached value, also after the
    cell has broadcast new ones. *)
Theorem C10_fallback_is_cached :
  (forall time ueDevs i node st lg mob c,
     mobility node = Some mob ->
     g_logger st = Some lg ->
     let imsi := node_imsi ueDevs i in
     ueCurrentCell st !! imsi = Some c ->
     (0 <? c)%N = true ->
     let st' := LogEverySecond_body time ueDevs i node st in
     (forall v, ueLastRsrp st !! imsi = None -> cellRsrp st !! c = Some v ->
        latest_field "RSRP_New" st' = Some [ADouble v] /\
        ueLastRsrp st' !! imsi = Some v) /\
     (forall v, ueLastSinr st !! imsi = None -> cellSinr st !! c = Some v ->
        latest_field "SINR_New" st' = Some [ADouble v] /\
        ueLastSinr st' !! imsi = Some v)) /\
  (forall context imsi cellId rnti msg time st lg v,
     g_logger st = Some lg ->
     ueLastSinr st !! imsi = None ->
     (0 <? cellId)%N = true ->
     cellSinr st !! cellId = Some v ->
     let st' := NotifyRecvMeasurementReport context imsi cellId rnti msg time st in
     latest_field "SINR_New" st' = Some [ADouble v] /\
     ueLastSinr st' !! imsi = Some v) /\
  (forall evs st imsi time ueDevs i node lg mob,
     mobility node = Some mob ->
     g_logger (run evs st) = Some lg ->
     node_imsi ueDevs i = imsi ->
     let st' := LogEverySecond_body time ueDevs i node (run evs st) in
     (forall v, ueLastRsrp st !! imsi = Some v ->
        Forall (fun e => ~ observes_rsrp imsi e) evs ->
        latest_field "RSRP_New" st' = Some [ADouble v]) /\
     (forall v, ueLastSinr st !! imsi = Some v ->
        latest_field "SINR_New" st' = Some [ADouble v])).
Proof.
  split; [|split].
  - intros time ueDevs i node st lg mob c Hmob Hlg imsi Hc Hpos st'.
    destruct (LogEverySecond_body_quality time ueDevs i node st lg mob Hmob Hlg)
      as (Qp & _ & Qs).
    destruct (LogEverySecond_body_caches time ueDevs i node st lg mob Hmob Hlg)
      as (Cp & Cs).
    cbv zeta in Qp, Qs, Cp, Cs. fold imsi in Qp, Qs, Cp, Cs.
    assert (Ec : resolve_cell imsi st = c) by (unfold resolve_cell; rewrite Hc; reflexivity).
    rewrite Ec in Qp, Qs, Cp, Cs. subst st'.
    split; intros v Hue Hcell.
    + rewrite Qp, Cp, (resolve_rsrp_caches imsi c st v Hue Hpos Hcell), Hue.
      unfold broadcast_of. rewrite Hpos, Hcell. cbn.
      split; [reflexivity|apply lookup_insert_eq].
    + rewrite Qs, Cs, (resolve_sinr_caches imsi c st v Hue Hpos Hcell), Hue.
      unfold broadcast_of. rewrite Hpos, Hcell. cbn.
      split; [reflexivity|apply lookup_insert_eq].
  - intros context imsi cellId rnti msg time st lg v Hlg Hue Hpos Hcell st'.
    subst st'. split.
    + rewrite (NotifyRecvMeasurementReport_sinr context imsi cellId rnti msg
                 time st lg Hlg), Hue.
      unfold broadcast_of. rewrite Hpos, Hcell. reflexivity.
    + destruct (NotifyRecvMeasurementReport_maps context imsi cellId rnti msg
                  time st) as [_ ->].
      rewrite (resolve_sinr_caches imsi cellId st v Hue Hpos Hcell).
      cbn. apply lookup_insert_eq.
  - intros evs st imsi time ueDevs i node lg mob Hmob Hlg Himsi st'. subst st'.
    destruct (LogEverySecond_body_quality time ueDevs i node (run evs st) lg mob
                Hmob Hlg) as (Qp & _ & Qs).
    cbv zeta in Qp, Qs. rewrite Himsi in Qp, Qs.
    destruct (run_keeps evs st imsi) as [R1 R2].
    split.
    + intros v Hv Hall. rewrite Qp, (R1 v Hall Hv). reflexivity.
    + intros v Hv. rewrite Qs, (R2 v Hv). reflexivity.
Qed.

Lemma C10_fallback_is_cached_witness :
  (latest_field "RSRP_New" st_cached = Some [ADouble (-90.0)%float] /\
   ueLastRsrp st_cached !! 7%N = Some (-90.0)%float) /\
  cellRsrp (run later_broadcasts st_cached) !! 2%N = Some (-60.0)%float /\
  latest_field "RSRP_New"
    (LogEverySecond_body 2.0%float [dev_of 7] 0 (node_at 6 8 3 4)
       (run later_broadcasts st_cached)) = Some [ADouble (-90.0)%float].
Proof.
  destruct C10_fallback_is_cached as (Hcache & _ & Hlater).
  split; [|split].
  - apply (proj1 (Hcache 1.0%float [dev_of 7] 0%nat (node_at 3 4 3 4)
                    st_broadcast {| m_file := [header] |} _ 1%N
                    eq_refl eq_refl eq_refl eq_refl)); reflexivity.
  - reflexivity.
  - refine (proj1 (Hlater later_broadcasts st_cached 7%N 2.0%float [dev_of 7]
                     0%nat (node_at 6 8 3 4) _ _ eq_refl eq_refl eq_refl)
              (-90.0)%float eq_refl _).
    repeat constructor; intros [].
Defined.

(** * Further properties *)

(** ** What each callback leaves alone *)

Lemma resolve_pair_frame :
  forall imsi cellId st,
    let st3 := snd (resolve_rsrp imsi cellId st) in
    let st4 := snd (resolve_sinr imsi cellId st3) in
    st4 = set_ueLastSinr (ueLastSinr st4) (set_ueLastRsrp (ueLastRsrp st3) st).
Proof.
  intros imsi cellId st st3 st4.
  pose proof (resolve_rsrp_frame imsi cellId st) as Hr.
  pose proof (resolve_sinr_frame imsi cellId st3) as Hq.
  cbv zeta in Hr, Hq. fold st3 in Hr. fold st4 in Hq.
  rewrite Hq at 1. rewrite Hr at 1. reflexivity.
Qed.

(** The loop body on a node with a mobility model, whether or not the
    logger exists: position and speed are stored; the tracked cell, the
    throughput, RSRQ and the per-cell maps are not written. *)
Lemma LogEverySecond_body_maps :
  forall time ueDevs i node st mob,
    mobility node = Some mob ->
    let imsi := node_imsi ueDevs i in
    let st' := LogEverySecond_body time ueDevs i node st in
    ueLastPosition st' = <[imsi := GetPosition mob]> (ueLastPosition st) /\
    ueLastSpeed st' = <[imsi := speed_of (GetVelocity mob)]> (ueLastSpeed st) /\
    ueCurrentCell st' = ueCurrentCell st /\
    ueThroughputDl st' = ueThroughputDl st /\
    ueThroughputUl st' = ueThroughputUl st /\
    ueLastRsrq st' = ueLastRsrq st /\
    cellRsrp st' = cellRsrp st /\
    cellSinr st' = cellSinr st.
Proof.
  intros time ueDevs i node st mob Hmob imsi st'. subst st'.
  destruct (g_logger st) as [lg|] eqn:Hlg.
  - rewrite (LogEverySecond_body_logged time ueDevs i node st lg mob Hmob Hlg).
    cbv zeta. fold imsi.
    set (st2 := set_ueLastSpeed _ _).
    rewrite (resolve_pair_frame imsi (resolve_cell imsi st) st2).
    repeat split; reflexivity.
  - unfold LogEverySecond_body. rewrite Hmob. cbv zeta.
    cbn [g_logger set_ueLastSpeed set_ueLastPosition]. rewrite Hlg.
    repeat split; reflexivity.
Qed.

Lemma LogEverySecond_body_static :
  forall time ueDevs i node st,
    mobility node = None ->
    LogEverySecond_body time ueDevs i node st = st.
Proof.
  intros time ueDevs i node st Hmob. unfold LogEverySecond_body.
  rewrite Hmob. reflexivity.
Qed.

(** The whole tick never writes the tracked cell, the throughput, RSRQ or
    the per-cell maps. *)
Lemma LogEverySecond_loop_frame :
  forall time ueDevs nodes i st,
    let st' := LogEverySecond_loop time ueDevs i nodes st in
    ueCurrentCell st' = ueCurrentCell st /\
    ueThroughputDl st' = ueThroughputDl st /\
    ueThroughputUl st' = ueThroughputUl st /\
    ueLastRsrq st' = ueLastRsrq st /\
    cellRsrp st' = cellRsrp st /\
    cellSinr st' = cellSinr st.
Proof.
  intros time ueDevs nodes. induction nodes as [|node nodes IH];
    intros i st; cbn [LogEverySecond_loop]; [repeat split; reflexivity|].
  specialize (IH (S i) (LogEverySecond_body time ueDevs i node st)).
  cbv zeta in IH. destruct IH as (I1 & I2 & I3 & I4 & I5 & I6).
  rewrite I1, I2, I3, I4, I5, I6.
  destruct (mobility node) as [mob|] eqn:Hmob.
  - destruct (LogEverySecond_body_maps time ueDevs i node st mob Hmob)
      as (_ & _ & B1 & B2 & B3 & B4 & B5 & B6).
    repeat split; assumption.
  - rewrite (LogEverySecond_body_static time ueDevs i node st Hmob).
    repeat split; reflexivity.
Qed.

(** A measurement report writes RSRP, RSRQ and possibly the SINR cache of
    its UE, and nothing else besides the log. *)
Lemma NotifyRecvMeasurementReport_frame :
  forall context imsi cellId rnti msg time st,
    let st' := NotifyRecvMeasurementReport context imsi cellId rnti msg time st in
    let code := measResultPCell (measResults msg) in
    ueLastRsrq st' = <[imsi := rsrq_decode (rsrqResult code)]> (ueLastRsrq st) /\
    ueCurrentCell st' = ueCurrentCell st /\
    ueLastPosition st' = ueLastPosition st /\
    ueLastSpeed st' = ueLastSpeed st /\
    ueThroughputDl st' = ueThroughputDl st /\
    ueThroughputUl st' = ueThroughputUl st /\
    cellRsrp st' = cellRsrp st /\
    cellSinr st' = cellSinr st.
Proof.
  intros context imsi cellId rnti msg time st st' code. subst st'.
  unfold NotifyRecvMeasurementReport. fold code.
  set (st2 := set_ueLastRsrq _ _).
  pose proof (resolve_sinr_frame imsi cellId st2) as Hq. cbv zeta in Hq.
  destruct (resolve_sinr imsi cellId st2) as [sinr st3]. cbn [fst snd] in Hq.
  destruct (g_logger st3); [destruct (last_xy imsi st3)|];
    rewrite Hq; repeat split; reflexivity.
Qed.

(** The handover-complete callback writes the tracked cell of its UE and
    the log, and only when the logger exists. *)
Lemma NotifyHandoverEndOkEnb_cell :
  forall context imsi cellid rnti time st,
    ueCurrentCell (NotifyHandoverEndOkEnb context imsi cellid rnti time st) =
      match g_logger st with
      | Some _ => <[imsi := cellid]> (ueCurrentCell st)
      | None => ueCurrentCell st
      end.
Proof.
  intros. unfold NotifyHandoverEndOkEnb.
  destruct (g_logger st); [destruct (last_xy imsi st)|]; reflexivity.
Qed.

Lemma dispatch_cell_keeps :
  forall e st imsi c,
    ~ changes_cell imsi e ->
    ueCurrentCell st !! imsi = Some c ->
    ueCurrentCell (dispatch e st) !! imsi = Some c.
Proof.
  intros e st imsi c Hno Hc. destruct e; cbn [dispatch changes_cell] in *.
  - unfold NotifyHandoverStartEnb.
    destruct (ueCurrentCell st !! imsi0) eqn:E; [exact Hc|].
    cbn. rewrite lookup_insert_ne; [exact Hc|]. congruence.
  - rewrite NotifyHandoverEndOkEnb_cell.
    destruct (g_logger st); [|exact Hc].
    rewrite lookup_insert_ne; [exact Hc|exact Hno].
  - cbn. rewrite lookup_insert_ne; [exact Hc|exact Hno].
  - exact Hc.
  - destruct (NotifyRecvMeasurementReport_frame context imsi0 cellId rnti msg
                time st) as (_ & -> & _). exact Hc.
  - destruct (LogEverySecond_loop_frame time ueDevs ueNodes 0 st) as (E & _).
    unfold LogEverySecond. rewrite E. exact Hc.
  - exact Hc.
Qed.

Lemma run_cell_keeps :
  forall evs st imsi c,
    Forall (fun e => ~ changes_cell imsi e) evs ->
    ueCurrentCell st !! imsi = Some c ->
    ueCurrentCell (run evs st) !! imsi = Some c.
Proof.
  unfold run. induction evs as [|e evs IH]; intros st imsi c Hall Hc;
    cbn [fold_left]; [exact Hc|].
  inversion Hall; subst. apply IH; [assumption|].
  apply dispatch_cell_keeps; assumption.
Qed.

(** ** The row a callback writes, column by column *)

Lemma NotifyHandoverEndOkEnb_latest :
  forall context imsi cellid rnti time st lg,
    g_logger st = Some lg ->
    let st' := NotifyHandoverEndOkEnb context imsi cellid rnti time st in
    let rsrp := default (-100.0)%float (ueLastRsrp st !! imsi) in
    let rsrq := default (-20.0)%float (ueLastRsrq st !! imsi) in
    let sinr := default 0.0%float (ueLastSinr st !! imsi) in
    rows st' = rows st ++
      [handover_line time imsi (default cellid (ueCurrentCell st !! imsi))
         cellid rsrp rsrp rsrq rsrq sinr sinr
         (last_throughputDl imsi st) (last_throughputUl imsi st)
         (fst (last_xy imsi st)) (snd (last_xy imsi st))
         (last_speed imsi st) "HANDOVER"].
Proof.
  intros context imsi cellid rnti time st lg Hlg st' rsrp rsrq sinr.
  subst st'.
  destruct (NotifyHandoverEndOkEnb_logged context imsi cellid rnti time st lg Hlg)
    as (row & -> & ->).
  unfold rows. cbn [g_logger set_ueCurrentCell set_g_logger m_file].
  rewrite Hlg. reflexivity.
Qed.

Lemma latest_field_snoc :
  forall name st l row,
    rows st = l ++ [row] -> latest_field name st = field name row.
Proof.
  intros name st l row E. unfold latest_field. rewrite E, last_snoc.
  reflexivity.
Qed.

Lemma LogEverySecond_body_latest :
  forall time ueDevs i node st lg mob,
    mobility node = Some mob ->
    g_logger st = Some lg ->
    let imsi := node_imsi ueDevs i in
    let cellId := resolve_cell imsi st in
    let st' := LogEverySecond_body time ueDevs i node st in
    rows st' = rows st ++
      [measurement_line time imsi cellId
         (spec_chain3 (ueLastRsrp st !! imsi) (broadcast_of (cellRsrp st) cellId)
            (-100.0)%float)
         (spec_chain2 (ueLastRsrq st !! imsi) (-20.0)%float)
         (spec_chain3 (ueLastSinr st !! imsi) (broadcast_of (cellSinr st) cellId)
            0.0%float)
         (v_x (GetPosition mob)) (v_y (GetPosition mob))
         (speed_of (GetVelocity mob))
         (last_throughputDl imsi st) (last_throughputUl imsi st)].
Proof.
  intros time ueDevs i node st lg mob Hmob Hlg imsi cellId st'. subst st'.
  rewrite (LogEverySecond_body_logged time ueDevs i node st lg mob Hmob Hlg).
  cbv zeta. fold imsi. fold cellId.
  set (st2 := set_ueLastSpeed _ _).
  pose proof (resolve_rsrp_frame imsi cellId st2) as Hr. cbv zeta in Hr.
  pose proof (resolve_rsrp_value imsi cellId st2) as Vr.
  pose proof (resolve_sinr_value imsi cellId (snd (resolve_rsrp imsi cellId st2)))
    as Vq.
  rewrite Hr in Vq at 2 3.
  change (ueLastRsrp st2) with (ueLastRsrp st) in Vr.
  change (cellRsrp st2) with (cellRsrp st) in Vr.
  change (ueLastSinr (set_ueLastRsrp _ st2)) with (ueLastSinr st) in Vq.
  change (cellSinr (set_ueLastRsrp _ st2)) with (cellSinr st) in Vq.
  rewrite Vr, Vq.
  unfold rows. cbn [g_logger set_g_logger m_file]. rewrite Hlg.
  reflexivity.
Qed.

Lemma NotifyRecvMeasurementReport_latest :
  forall context imsi cellId rnti msg time st lg,
    g_logger st = Some lg ->
    let st' := NotifyRecvMeasurementReport context imsi cellId rnti msg time st in
    let code := measResultPCell (measResults msg) in
    rows st' = rows st ++
      [measurement_line time imsi cellId
         (rsrp_decode (rsrpResult code)) (rsrq_decode (rsrqResult code))
         (spec_chain3 (ueLastSinr st !! imsi) (broadcast_of (cellSinr st) cellId)
            0.0%float)
         (fst (last_xy imsi st)) (snd (last_xy imsi st)) (last_speed imsi st)
         (last_throughputDl imsi st) (last_throughputUl imsi st)].
Proof.
  intros context imsi cellId rnti msg time st lg Hlg st' code. subst st'.
  unfold NotifyRecvMeasurementReport. fold code.
  set (st2 := set_ueLastRsrq _ _).
  pose proof (resolve_sinr_frame imsi cellId st2) as Hq. cbv zeta in Hq.
  pose proof (resolve_sinr_value imsi cellId st2) as Vq.
  change (ueLastSinr st2) with (ueLastSinr st) in Vq.
  change (cellSinr st2) with (cellSinr st) in Vq.
  destruct (resolve_sinr imsi cellId st2) as [sinr st3]. cbn [fst snd] in *.
  assert (Hlg3 : g_logger st3 = Some lg) by (rewrite Hq; exact Hlg).
  rewrite Hlg3.
  assert (Exy : last_xy imsi st3 = last_xy imsi st) by (rewrite Hq; reflexivity).
  assert (Es : last_speed imsi st3 = last_speed imsi st)
    by (rewrite Hq; reflexivity).
  assert (Ed : last_throughputDl imsi st3 = last_throughputDl imsi st)
    by (rewrite Hq; reflexivity).
  assert (Eu : last_throughputUl imsi st3 = last_throughputUl imsi st)
    by (rewrite Hq; reflexivity).
  rewrite Exy, Es, Ed, Eu, Vq. destruct (last_xy imsi st) as [x y].
  unfold rows. cbn [g_logger set_g_logger LogMeasurement m_file fst snd].
  rewrite Hlg. reflexivity.
Qed.

Ltac latest_of_line E :=
  rewrite (latest_field_snoc _ _ _ _ E); field_of_line.

(** ** The tracked serving cell *)

(** X1. Once a serving cell is tracked for a UE, only a
    connection-established or handover-complete notification of that UE
    replaces it: through any other events (handover-start, notifications of
    other UEs, PHY samples, measurement reports, both samplers) it stays,
    and a snapshot row of the UE is attributed to it. *)
Theorem X1_serving_cell_is_stable :
  forall evs st imsi c,
    ueCurrentCell st !! imsi = Some c ->
    Forall (fun e => ~ changes_cell imsi e) evs ->
    ueCurrentCell (run evs st) !! imsi = Some c /\
    forall time ueDevs i node lg mob,
      mobility node = Some mob ->
      g_logger (run evs st) = Some lg ->
      node_imsi ueDevs i = imsi ->
      let st' := LogEverySecond_body time ueDevs i node (run evs st) in
      latest_field "UE_ID" st' = Some [AU64 imsi] /\
      latest_field "Old_gNB_ID" st' = Some [AU16 c] /\
      latest_field "New_gNB_ID" st' = Some [AU16 c].
Proof.
  intros evs st imsi c Hc Hall.
  pose proof (run_cell_keeps evs st imsi c Hall Hc) as Hrun.
  split; [exact Hrun|].
  intros time ueDevs i node lg mob Hmob Hlg Himsi st'. subst st'.
  pose proof (LogEverySecond_body_latest time ueDevs i node (run evs st) lg mob
                Hmob Hlg) as E.
  cbv zeta in E. rewrite Himsi in E.
  unfold resolve_cell in E. rewrite Hrun in E.
  repeat split; latest_of_line E.
Qed.

Lemma X1_serving_cell_is_stable_witness :
  ueCurrentCell (run other_events st_handed_over) !! 7%N = Some 2%N /\
  latest_field "Old_gNB_ID"
    (LogEverySecond_body 7.0%float [dev_of 7] 0 (node_at 6 8 3 4)
       (run other_events st_handed_over)) = Some [AU16 2].
Proof.
  assert (Hall : Forall (fun e => ~ changes_cell 7 e) other_events).
  { repeat constructor; cbn; try tauto; intros H; discriminate H. }
  assert (Hc : ueCurrentCell st_handed_over !! 7%N = Some 2%N)
    by (vm_compute; reflexivity).
  destruct (X1_serving_cell_is_stable other_events st_handed_over 7 2 Hc Hall)
    as [H1 H2].
  split; [exact H1|].
  refine (proj1 (proj2 (H2 7.0%float [dev_of 7] 0%nat (node_at 6 8 3 4) _ _
                          _ _ _))); vm_compute; reflexivity.
Defined.

(** X2. Handover rows of a UE chain up: with the logger in place, the old
    cell of a HANDOVER row is the cell of the UE's previous handover-complete
    (or connection-established) notification, whatever events came between
    that do not set the UE's cell, also when a handover-start in between
    reported a different source cell. *)
Theorem X2_handover_rows_chain :
  forall evs st lg imsi c1 c2 context rnti time,
    g_logger st = Some lg ->
    Forall (fun e => ~ changes_cell imsi e) evs ->
    (forall context1 rnti1 time1,
       let st1 := NotifyHandoverEndOkEnb context1 imsi c1 rnti1 time1 st in
       let st2 := NotifyHandoverEndOkEnb context imsi c2 rnti time (run evs st1) in
       latest_field "Handover_Type" st2 = Some (text "HANDOVER") /\
       latest_field "Old_gNB_ID" st2 = Some [AU16 c1] /\
       latest_field "New_gNB_ID" st2 = Some [AU16 c2] /\
       ueCurrentCell st2 !! imsi = Some c2) /\
    (forall context1 rnti1,
       let st1 := NotifyConnectionEstablishedUe context1 imsi c1 rnti1 st in
       let st2 := NotifyHandoverEndOkEnb context imsi c2 rnti time (run evs st1) in
       latest_field "Handover_Type" st2 = Some (text "HANDOVER") /\
       latest_field "Old_gNB_ID" st2 = Some [AU16 c1] /\
       latest_field "New_gNB_ID" st2 = Some [AU16 c2] /\
       ueCurrentCell st2 !! imsi = Some c2).
Proof.
  intros evs st lg imsi c1 c2 context rnti time Hlg Hall.
  assert (Hgen : forall st1,
            is_Some (g_logger st1) ->
            ueCurrentCell st1 !! imsi = Some c1 ->
            let st2 := NotifyHandoverEndOkEnb context imsi c2 rnti time
                         (run evs st1) in
            latest_field "Handover_Type" st2 = Some (text "HANDOVER") /\
            latest_field "Old_gNB_ID" st2 = Some [AU16 c1] /\
            latest_field "New_gNB_ID" st2 = Some [AU16 c2] /\
            ueCurrentCell st2 !! imsi = Some c2).
  { intros st1 [lg1 Hlg1] Hc1 st2. subst st2.
    destruct (run_log evs st1 lg1 Hlg1) as (new & Hlg2 & _).
    pose proof (run_cell_keeps evs st1 imsi c1 Hall Hc1) as Hc2.
    pose proof (NotifyHandoverEndOkEnb_latest context imsi c2 rnti time
                  (run evs st1) _ Hlg2) as E.
    cbv zeta in E. rewrite Hc2 in E. cbn [default] in E.
    repeat (split; [latest_of_line E|]).
    rewrite NotifyHandoverEndOkEnb_cell, Hlg2. apply lookup_insert_eq. }
  split.
  - intros context1 rnti1 time1. apply Hgen.
    + destruct (NotifyHandoverEndOkEnb_logged context1 imsi c1 rnti1 time1 st
                  lg Hlg) as (row & -> & _). eexists. reflexivity.
    + rewrite NotifyHandoverEndOkEnb_cell, Hlg. apply lookup_insert_eq.
  - intros context1 rnti1. apply Hgen.
    + cbn. rewrite Hlg. eexists. reflexivity.
    + cbn. apply lookup_insert_eq.
Qed.

Lemma X2_handover_rows_chain_witness :
  latest_field "Old_gNB_ID"
    (NotifyHandoverEndOkEnb "" 7 3 0 8.0%float
       (run other_events (NotifyHandoverEndOkEnb "" 7 2 0 5.0%float st_attached)))
    = Some [AU16 2] /\
  latest_field "New_gNB_ID"
    (NotifyHandoverEndOkEnb "" 7 3 0 8.0%float
       (run other_events (NotifyHandoverEndOkEnb "" 7 2 0 5.0%float st_attached)))
    = Some [AU16 3].
Proof.
  assert (Hall : Forall (fun e => ~ changes_cell 7 e) other_events).
  { repeat constructor; cbn; try tauto; intros H; discriminate H. }
  assert (Hlg : g_logger st_attached = Some {| m_file := [header] |})
    by (vm_compute; reflexivity).
  destruct (X2_handover_rows_chain other_events st_attached _ 7 2 3 "" 0
              8.0%float Hlg Hall) as [H _].
  destruct (H "" 0%N 5.0%float) as (_ & Hold & Hnew & _).
  split; assumption.
Defined.

(** ** Accounting of the event log *)

Lemma LogEverySecond_loop_count :
  forall time ueDevs nodes i st lg,
    g_logger st = Some lg ->
    exists new,
      g_logger (LogEverySecond_loop time ueDevs i nodes st) =
        Some {| m_file := m_file lg ++ new |} /\
      length new = length (List.filter mobile nodes).
Proof.
  intros time ueDevs nodes. induction nodes as [|node nodes IH];
    intros i st lg Hlg; cbn [LogEverySecond_loop List.filter].
  - exists []. rewrite app_nil_r. destruct lg. split; [exact Hlg|reflexivity].
  - pose proof (LogEverySecond_body_rows time ueDevs i node st lg Hlg)
      as [_ Hbody].
    cbv zeta in Hbody. unfold mobile at 1.
    destruct (mobility node) as [mob|].
    + destruct Hbody as (row & Hlg1 & _).
      destruct (IH (S i) _ _ Hlg1) as (new & Hlg2 & Hlen).
      exists (row :: new). cbn [m_file] in Hlg2.
      rewrite <- app_assoc in Hlg2. split; [exact Hlg2|].
      cbn [length]. rewrite Hlen. reflexivity.
    + rewrite Hbody. apply IH. exact Hlg.
Qed.

Lemma dispatch_count :
  forall e st lg,
    g_logger st = Some lg ->
    exists new,
      g_logger (dispatch e st) = Some {| m_file := m_file lg ++ new |} /\
      length new = rows_written e.
Proof.
  intros e st lg Hlg.
  assert (Hsame : forall st', g_logger st' = g_logger st ->
            exists new, g_logger st' = Some {| m_file := m_file lg ++ new |} /\
                        length new = 0%nat).
  { intros st' E. exists []. rewrite app_nil_r, E, Hlg. destruct lg.
    split; reflexivity. }
  destruct e; cbn [dispatch rows_written].
  - apply Hsame. unfold NotifyHandoverStartEnb.
    destruct (ueCurrentCell st !! imsi); reflexivity.
  - destruct (NotifyHandoverEndOkEnb_logged context imsi cellid rnti time st lg Hlg)
      as (row & -> & _).
    exists [row]. split; reflexivity.
  - apply Hsame. reflexivity.
  - apply Hsame. reflexivity.
  - destruct (NotifyRecvMeasurementReport_log context imsi cellId rnti msg time
                st lg Hlg) as (row & E & _).
    exists [row]. split; [exact E|reflexivity].
  - apply LogEverySecond_loop_count. exact Hlg.
  - apply Hsame. reflexivity.
Qed.

(** X3. While the logger exists the event log is append-only: a run leaves
    the rows it found in place and adds one row for each handover-complete
    notification, one for each measurement report and, at each snapshot
    tick, one for each node that has a mobility model; handover-start,
    connection-established, PHY samples and the traffic sampler write no
    row. *)
Theorem X3_event_log_accounting :
  forall evs st lg,
    g_logger st = Some lg ->
    exists new,
      rows (run evs st) = rows st ++ new /\
      length new = sum_list (map rows_written evs).
Proof.
  intros evs st lg Hlg.
  assert (H : exists new,
             g_logger (run evs st) = Some {| m_file := m_file lg ++ new |} /\
             length new = sum_list (map rows_written evs)).
  { revert st lg Hlg. unfold run.
    induction evs as [|e evs IH]; intros st lg Hlg; cbn [fold_left map].
    - exists []. rewrite app_nil_r. destruct lg. split; [exact Hlg|reflexivity].
    - destruct (dispatch_count e st lg Hlg) as (new1 & Hlg1 & Hlen1).
      destruct (IH _ _ Hlg1) as (new2 & Hlg2 & Hlen2).
      exists (new1 ++ new2). cbn [m_file] in Hlg2.
      rewrite <- app_assoc in Hlg2. split; [exact Hlg2|].
      rewrite length_app, Hlen1, Hlen2. reflexivity. }
  destruct H as (new & Hrun & Hlen).
  exists new. unfold rows. rewrite Hrun, Hlg. split; [reflexivity|exact Hlen].
Qed.

Lemma X3_event_log_accounting_witness :
  exists new,
    rows (run other_events st_handed_over) = rows st_handed_over ++ new /\
    length new = 3%nat.
Proof.
  assert (Hlg : exists lg, g_logger st_handed_over = Some lg)
    by (eexists; vm_compute; reflexivity).
  destruct Hlg as [lg Hlg].
  exact (X3_event_log_accounting other_events st_handed_over lg Hlg).
Defined.

(** X4. Every row in the event log of any run from program start has
    exactly sixteen columns, as the header has, and its last column reads
    HANDOVER or MEASUREMENT (or is the header's own name). *)
Theorem X4_rows_match_header :
  length (columns header) = 16%nat /\
  forall evs row,
    row ∈ rows (run evs st_started) ->
    length (columns row) = 16%nat /\
    (field "Handover_Type" row = Some (text "Handover_Type") \/
     field "Handover_Type" row = Some (text "HANDOVER") \/
     field "Handover_Type" row = Some (text "MEASUREMENT")).
Proof.
  split; [reflexivity|].
  intros evs row Hin.
  pose proof (proj1 (Forall_forall _ _) (run_rows_from_start evs) row Hin)
    as [-> | [Hho | Hme]].
  - split; [reflexivity|]. left. reflexivity.
  - destruct Hho as (time & ueId & oldCellId & newCellId & rsrpOld & rsrpNew
                     & rsrqOld & rsrqNew & sinrOld & sinrNew & tdl & tul
                     & x & y & speed & ->).
    split; [rewrite handover_line_fields; reflexivity|].
    right. left. field_of_line.
  - destruct Hme as (time & ueId & cellId & rsrp & rsrq & sinr & x & y & speed
                     & tdl & tul & ->).
    split; [rewrite measurement_line_fields; reflexivity|].
    right. right. field_of_line.
Qed.

Lemma X4_rows_match_header_witness :
  length (columns header) = 16%nat /\
  Forall (fun row => length (columns row) = 16%nat)
    (rows (run whole_run st_started)).
Proof.
  destruct X4_rows_match_header as [Hh Hrows].
  split; [exact Hh|].
  apply Forall_forall. intros row Hin.
  exact (proj1 (Hrows whole_run row Hin)).
Defined.

(** X5. What [LogHandover] and [LogMeasurement] are given is read back
    under the header name it belongs to: each of the sixteen values of a
    handover line, and each of the thirteen values of a measurement line
    (the serving cell under both cell names). *)
Theorem X5_values_under_their_names :
  forall time ueId oldCellId newCellId cellId rsrpOld rsrpNew rsrqOld rsrqNew
         sinrOld sinrNew rsrp rsrq sinr throughputDl throughputUl x y speed,
    let h := handover_line time ueId oldCellId newCellId rsrpOld rsrpNew
               rsrqOld rsrqNew sinrOld sinrNew throughputDl throughputUl
               x y speed "HANDOVER" in
    let m := measurement_line time ueId cellId rsrp rsrq sinr x y speed
               throughputDl throughputUl in
    (field "Time" h = Some [ADouble time] /\
     field "UE_ID" h = Some [AU64 ueId] /\
     field "Old_gNB_ID" h = Some [AU16 oldCellId] /\
     field "New_gNB_ID" h = Some [AU16 newCellId] /\
     field "RSRP_Old" h = Some [ADouble rsrpOld] /\
     field "RSRP_New" h = Some [ADouble rsrpNew] /\
     field "RSRQ_Old" h = Some [ADouble rsrqOld] /\
     field "RSRQ_New" h = Some [ADouble rsrqNew] /\
     field "SINR_Old" h = Some [ADouble sinrOld] /\
     field "SINR_New" h = Some [ADouble sinrNew] /\
     field "Throughput_DL" h = Some [ADouble throughputDl] /\
     field "Throughput_UL" h = Some [ADouble throughputUl] /\
     field "X_Position" h = Some [ADouble x] /\
     field "Y_Position" h = Some [ADouble y] /\
     field "Speed" h = Some [ADouble speed] /\
     field "Handover_Type" h = Some (text "HANDOVER")) /\
    (field "Time" m = Some [ADouble time] /\
     field "UE_ID" m = Some [AU64 ueId] /\
     field "Old_gNB_ID" m = Some [AU16 cellId] /\
     field "New_gNB_ID" m = Some [AU16 cellId] /\
     field "RSRP_New" m = Some [ADouble rsrp] /\
     field "RSRQ_New" m = Some [ADouble rsrq] /\
     field "SINR_New" m = Some [ADouble sinr] /\
     field "Throughput_DL" m = Some [ADouble throughputDl] /\
     field "Throughput_UL" m = Some [ADouble throughputUl] /\
     field "X_Position" m = Some [ADouble x] /\
     field "Y_Position" m = Some [ADouble y] /\
     field "Speed" m = Some [ADouble speed] /\
     field "Handover_Type" m = Some (text "MEASUREMENT")).
Proof.
  intros. subst h m. split; repeat split; field_of_line.
Qed.

(** ** Without the logger *)

Lemma dispatch_without_logger :
  forall e st, g_logger st = None -> g_logger (dispatch e st) = None.
Proof.
  intros e st Hlg. destruct e; cbn [dispatch].
  - unfold NotifyHandoverStartEnb.
    destruct (ueCurrentCell st !! imsi); exact Hlg.
  - unfold NotifyHandoverEndOkEnb. rewrite Hlg. exact Hlg.
  - exact Hlg.
  - exact Hlg.
  - unfold NotifyRecvMeasurementReport.
    set (st2 := set_ueLastRsrq _ _).
    pose proof (resolve_sinr_frame imsi cellId st2) as Hq. cbv zeta in Hq.
    destruct (resolve_sinr imsi cellId st2) as [sinr st3]. cbn [fst snd] in Hq.
    assert (H3 : g_logger st3 = None) by (rewrite Hq; exact Hlg).
    rewrite H3. exact H3.
  - unfold LogEverySecond. generalize 0%nat. revert st Hlg.
    induction ueNodes as [|node nodes IH]; intros st Hlg i;
      cbn [LogEverySecond_loop]; [exact Hlg|].
    apply IH. unfold LogEverySecond_body.
    destruct (mobility node); [|exact Hlg].
    cbn [g_logger set_ueLastSpeed set_ueLastPosition]. rewrite Hlg. exact Hlg.
  - exact Hlg.
Qed.

(** X6. While [g_logger] is null no callback writes a row and none creates
    the logger. A handover-complete notification then changes nothing at
    all, not even the tracked cell; a measurement report still stores the
    decoded RSRP and RSRQ; a snapshot tick still stores position and speed
    of the node but caches no link quality. *)
Theorem X6_without_logger :
  forall st,
    g_logger st = None ->
    (forall evs, g_logger (run evs st) = None /\ rows (run evs st) = []) /\
    (forall context imsi cellid rnti time,
       NotifyHandoverEndOkEnb context imsi cellid rnti time st = st) /\
    (forall context imsi cellId rnti msg time,
       let st' := NotifyRecvMeasurementReport context imsi cellId rnti msg time st in
       let code := measResultPCell (measResults msg) in
       ueLastRsrp st' !! imsi = Some (rsrp_decode (rsrpResult code)) /\
       ueLastRsrq st' !! imsi = Some (rsrq_decode (rsrqResult code))) /\
    (forall time ueDevs i node mob,
       mobility node = Some mob ->
       let imsi := node_imsi ueDevs i in
       LogEverySecond_body time ueDevs i node st =
         set_ueLastSpeed (<[imsi := speed_of (GetVelocity mob)]> (ueLastSpeed st))
           (set_ueLastPosition (<[imsi := GetPosition mob]> (ueLastPosition st))
              st)).
Proof.
  intros st Hlg. split; [|split; [|split]].
  - intros evs.
    assert (H : g_logger (run evs st) = None).
    { revert st Hlg. unfold run. induction evs as [|e evs IH]; intros st Hlg;
        cbn [fold_left]; [exact Hlg|].
      apply IH. apply dispatch_without_logger. exact Hlg. }
    split; [exact H|]. unfold rows. rewrite H. reflexivity.
  - intros. unfold NotifyHandoverEndOkEnb. rewrite Hlg. reflexivity.
  - intros context imsi cellId rnti msg time st' code. subst st'.
    destruct (NotifyRecvMeasurementReport_maps context imsi cellId rnti msg
                time st) as [-> _].
    destruct (NotifyRecvMeasurementReport_frame context imsi cellId rnti msg
                time st) as [-> _].
    split; apply lookup_insert_eq.
  - intros time ueDevs i node mob Hmob imsi.
    unfold LogEverySecond_body. rewrite Hmob. cbv zeta.
    cbn [g_logger set_ueLastSpeed set_ueLastPosition]. rewrite Hlg.
    reflexivity.
Qed.

Lemma X6_without_logger_witness :
  rows (run whole_run initial) = [] /\
  NotifyHandoverEndOkEnb "" 7 2 0 5.0%float initial = initial.
Proof.
  destruct (X6_without_logger initial eq_refl) as (Hrun & Hho & _).
  split; [exact (proj2 (Hrun whole_run))|apply Hho].
Defined.

(** ** What later rows carry *)

Lemma dispatch_position_frame :
  forall e st,
    ~ is_snapshot_tick e ->
    ueLastPosition (dispatch e st) = ueLastPosition st /\
    ueLastSpeed (dispatch e st) = ueLastSpeed st.
Proof.
  intros e st Hno. destruct e; cbn [dispatch is_snapshot_tick] in *.
  - unfold NotifyHandoverStartEnb.
    destruct (ueCurrentCell st !! imsi); split; reflexivity.
  - unfold NotifyHandoverEndOkEnb.
    destruct (g_logger st); [destruct (last_xy imsi st)|]; split; reflexivity.
  - split; reflexivity.
  - split; reflexivity.
  - destruct (NotifyRecvMeasurementReport_frame context imsi cellId rnti msg
                time st) as (_ & _ & -> & -> & _). split; reflexivity.
  - tauto.
  - split; reflexivity.
Qed.

Lemma run_position_frame :
  forall evs st,
    Forall (fun e => ~ is_snapshot_tick e) evs ->
    ueLastPosition (run evs st) = ueLastPosition st /\
    ueLastSpeed (run evs st) = ueLastSpeed st.
Proof.
  unfold run. induction evs as [|e evs IH]; intros st Hall; cbn [fold_left];
    [split; reflexivity|].
  inversion Hall; subst.
  destruct (IH (dispatch e st)) as [-> ->]; [assumption|].
  apply dispatch_position_frame. assumption.
Qed.

(** X7. The position and speed that a snapshot tick reads from the
    mobility model of a node are what later rows of that UE carry until the
    next tick: a HANDOVER row and a measurement-report row written after any
    events other than a tick have the node's X, Y and speed of that tick. *)
Theorem X7_rows_carry_last_position :
  forall time ueDevs i node st lg mob evs,
    mobility node = Some mob ->
    g_logger st = Some lg ->
    Forall (fun e => ~ is_snapshot_tick e) evs ->
    let imsi := node_imsi ueDevs i in
    let st1 := run evs (LogEverySecond_body time ueDevs i node st) in
    (forall context cellid rnti time',
       let st' := NotifyHandoverEndOkEnb context imsi cellid rnti time' st1 in
       latest_field "X_Position" st' = Some [ADouble (v_x (GetPosition mob))] /\
       latest_field "Y_Position" st' = Some [ADouble (v_y (GetPosition mob))] /\
       latest_field "Speed" st' = Some [ADouble (speed_of (GetVelocity mob))]) /\
    (forall context cellId rnti msg time',
       let st' := NotifyRecvMeasurementReport context imsi cellId rnti msg
                    time' st1 in
       latest_field "X_Position" st' = Some [ADouble (v_x (GetPosition mob))] /\
       latest_field "Y_Position" st' = Some [ADouble (v_y (GetPosition mob))] /\
       latest_field "Speed" st' = Some [ADouble (speed_of (GetVelocity mob))]).
Proof.
  intros time ueDevs i node st lg mob evs Hmob Hlg Hall imsi st1.
  destruct (LogEverySecond_body_rows time ueDevs i node st lg Hlg) as [_ Hb].
  cbv zeta in Hb. rewrite Hmob in Hb. destruct Hb as (row & Hlg0 & _).
  destruct (run_log evs _ _ Hlg0) as (new & Hlg1 & _). fold st1 in Hlg1.
  destruct (run_position_frame evs (LogEverySecond_body time ueDevs i node st)
              Hall) as [Hp Hs]. fold st1 in Hp, Hs.
  destruct (LogEverySecond_body_maps time ueDevs i node st mob Hmob)
    as (Bp & Bs & _). cbv zeta in Bp, Bs. fold imsi in Bp, Bs.
  rewrite Bp in Hp. rewrite Bs in Hs.
  assert (Exy : last_xy imsi st1 = (v_x (GetPosition mob), v_y (GetPosition mob))).
  { unfold last_xy. rewrite Hp, lookup_insert_eq. reflexivity. }
  assert (Esp : last_speed imsi st1 = speed_of (GetVelocity mob)).
  { unfold last_speed. rewrite Hs, lookup_insert_eq. reflexivity. }
  split.
  - intros context cellid rnti time' st'. subst st'.
    pose proof (NotifyHandoverEndOkEnb_latest context imsi cellid rnti time'
                  st1 _ Hlg1) as E.
    cbv zeta in E. rewrite Exy, Esp in E. cbn [fst snd] in E.
    repeat split; latest_of_line E.
  - intros context cellId rnti msg time' st'. subst st'.
    pose proof (NotifyRecvMeasurementReport_latest context imsi cellId rnti msg
                  time' st1 _ Hlg1) as E.
    cbv zeta in E. rewrite Exy, Esp in E. cbn [fst snd] in E.
    repeat split; latest_of_line E.
Qed.

Lemma X7_rows_carry_last_position_witness :
  latest_field "X_Position"
    (NotifyHandoverEndOkEnb "" 7 2 0 9.0%float
       (run quiet_events
          (LogEverySecond_body 1.0%float [dev_of 7] 0 (node_at 3 4 6 8)
             st_attached)))
    = Some [ADouble 3%float] /\
  latest_field "Speed"
    (NotifyHandoverEndOkEnb "" 7 2 0 9.0%float
       (run quiet_events
          (LogEverySecond_body 1.0%float [dev_of 7] 0 (node_at 3 4 6 8)
             st_attached)))
    = Some [ADouble 10%float].
Proof.
  assert (Hall : Forall (fun e => ~ is_snapshot_tick e) quiet_events)
    by (repeat constructor; cbn; tauto).
  assert (Hlg : g_logger st_attached = Some {| m_file := [header] |})
    by (vm_compute; reflexivity).
  destruct (X7_rows_carry_last_position 1.0%float [dev_of 7] 0%nat
              (node_at 3 4 6 8) st_attached _ _ quiet_events eq_refl Hlg Hall)
    as [H _].
  destruct (H "" 2%N 0%N 9.0%float) as (Hx & _ & Hs).
  split; [exact Hx|exact Hs].
Defined.

Lemma dispatch_rsrq_keeps :
  forall e st imsi v,
    ~ observes_rsrp imsi e ->
    ueLastRsrq st !! imsi = Some v ->
    ueLastRsrq (dispatch e st) !! imsi = Some v.
Proof.
  intros e st imsi v Hno Hv. destruct e; cbn [dispatch observes_rsrp] in *.
  - unfold NotifyHandoverStartEnb.
    destruct (ueCurrentCell st !! imsi0); exact Hv.
  - unfold NotifyHandoverEndOkEnb.
    destruct (g_logger st); [destruct (last_xy imsi0 st)|]; exact Hv.
  - exact Hv.
  - exact Hv.
  - destruct (NotifyRecvMeasurementReport_frame context imsi0 cellId rnti msg
                time st) as (-> & _).
    rewrite lookup_insert_ne; [exact Hv|exact Hno].
  - destruct (LogEverySecond_loop_frame time ueDevs ueNodes 0 st)
      as (_ & _ & _ & E & _).
    unfold LogEverySecond. rewrite E. exact Hv.
  - exact Hv.
Qed.

Lemma run_rsrq_keeps :
  forall evs st imsi v,
    Forall (fun e => ~ observes_rsrp imsi e) evs ->
    ueLastRsrq st !! imsi = Some v ->
    ueLastRsrq (run evs st) !! imsi = Some v.
Proof.
  unfold run. induction evs as [|e evs IH]; intros st imsi v Hall Hv;
    cbn [fold_left]; [exact Hv|].
  inversion Hall; subst. apply IH; [assumption|].
  apply dispatch_rsrq_keeps; assumption.
Qed.

(** X8. Two measurement reports of a UE in a row, received by the same
    cell, write exactly two MEASUREMENT rows; RSRP and RSRQ of each row are
    the decoded values of its own report, so the second row shows nothing
    of the first report, while its SINR is the same as in the first row. *)
Theorem X8_two_reports :
  forall st lg imsi cellId context1 context2 rnti1 rnti2 msg1 msg2 time1 time2,
    g_logger st = Some lg ->
    let st1 := NotifyRecvMeasurementReport context1 imsi cellId rnti1 msg1
                 time1 st in
    let st2 := NotifyRecvMeasurementReport context2 imsi cellId rnti2 msg2
                 time2 st1 in
    let code1 := measResultPCell (measResults msg1) in
    let code2 := measResultPCell (measResults msg2) in
    exists row1 row2,
      rows st2 = rows st ++ [row1; row2] /\
      field "Handover_Type" row1 = Some (text "MEASUREMENT") /\
      field "Handover_Type" row2 = Some (text "MEASUREMENT") /\
      field "RSRP_New" row1 = Some [ADouble (rsrp_decode (rsrpResult code1))] /\
      field "RSRQ_New" row1 = Some [ADouble (rsrq_decode (rsrqResult code1))] /\
      field "RSRP_New" row2 = Some [ADouble (rsrp_decode (rsrpResult code2))] /\
      field "RSRQ_New" row2 = Some [ADouble (rsrq_decode (rsrqResult code2))] /\
      field "SINR_New" row2 = field "SINR_New" row1 /\
      ueLastRsrp st2 !! imsi = Some (rsrp_decode (rsrpResult code2)) /\
      ueLastRsrq st2 !! imsi = Some (rsrq_decode (rsrqResult code2)).
Proof.
  intros st lg imsi cellId context1 context2 rnti1 rnti2 msg1 msg2 time1 time2
    Hlg st1 st2 code1 code2.
  pose proof (NotifyRecvMeasurementReport_latest context1 imsi cellId rnti1
                msg1 time1 st lg Hlg) as E1.
  destruct (NotifyRecvMeasurementReport_log context1 imsi cellId rnti1 msg1
              time1 st lg Hlg) as (r1 & Hlg1 & _).
  pose proof (NotifyRecvMeasurementReport_latest context2 imsi cellId rnti2
                msg2 time2 st1 _ Hlg1) as E2.
  cbv zeta in E1, E2. fold st1 in E1. fold st2 in E2.
  fold code1 in E1. fold code2 in E2.
  destruct (NotifyRecvMeasurementReport_maps context1 imsi cellId rnti1 msg1
              time1 st) as [_ Hs1].
  destruct (NotifyRecvMeasurementReport_frame context1 imsi cellId rnti1 msg1
              time1 st) as (_ & _ & _ & _ & _ & _ & _ & Hc1).
  cbv zeta in Hs1, Hc1. fold st1 in Hs1, Hc1.
  assert (Esinr :
    spec_chain3 (ueLastSinr st1 !! imsi) (broadcast_of (cellSinr st1) cellId)
      0.0%float =
    spec_chain3 (ueLastSinr st !! imsi) (broadcast_of (cellSinr st) cellId)
      0.0%float).
  { rewrite Hs1, Hc1. unfold resolve_sinr, broadcast_of, spec_chain3.
    destruct (ueLastSinr st !! imsi) as [v|] eqn:Ev; cbn [snd].
    - rewrite Ev. reflexivity.
    - destruct (0 <? cellId)%N; cbn [snd]; [|rewrite Ev; reflexivity].
      destruct (cellSinr st !! cellId) as [w|] eqn:Ew; cbn [snd].
      + cbn [ueLastSinr set_ueLastSinr]. rewrite lookup_insert_eq. reflexivity.
      + rewrite Ev. reflexivity. }
  rewrite Esinr in E2. rewrite E1, <- app_assoc in E2. cbn [app] in E2.
  eexists. eexists. split; [exact E2|].
  repeat (split; [field_of_line|]).
  destruct (NotifyRecvMeasurementReport_maps context2 imsi cellId rnti2 msg2
              time2 st1) as [Hp2 _].
  destruct (NotifyRecvMeasurementReport_frame context2 imsi cellId rnti2 msg2
              time2 st1) as (Hq2 & _).
  cbv zeta in Hp2, Hq2. fold st2 in Hp2, Hq2. fold code2 in Hp2, Hq2.
  rewrite Hp2, Hq2. split; apply lookup_insert_eq.
Qed.

Lemma X8_two_reports_witness :
  exists row1 row2,
    rows (NotifyRecvMeasurementReport "" 7 1 0 (report_of 60 30) 2.0%float
            (NotifyRecvMeasurementReport "" 7 1 0 (report_of 50 20) 1.0%float
               st_broadcast)) = rows st_broadcast ++ [row1; row2] /\
    field "RSRP_New" row1 = Some [ADouble (-90.0)%float] /\
    field "RSRP_New" row2 = Some [ADouble (-80.0)%float] /\
    field "RSRQ_New" row2 = Some [ADouble (-4.5)%float].
Proof.
  assert (Hlg : g_logger st_broadcast = Some {| m_file := [header] |})
    by (vm_compute; reflexivity).
  destruct (X8_two_reports st_broadcast _ 7 1 "" "" 0 0 (report_of 50 20)
              (report_of 60 30) 1.0%float 2.0%float Hlg)
    as (row1 & row2 & Hrows & _ & _ & H1 & _ & H2 & H3 & _).
  exists row1, row2. repeat split; assumption.
Defined.

(** X9. Until the next measurement report of a UE, its last report decides
    the RSRP and RSRQ of every later row: after any events without a report
    of that UE, a snapshot row of the UE carries the decoded values of the
    report, and a HANDOVER row carries them as both the old and the new
    value. *)
Theorem X9_last_report_decides :
  forall context imsi cellId rnti msg time st lg evs,
    g_logger st = Some lg ->
    Forall (fun e => ~ observes_rsrp imsi e) evs ->
    let code := measResultPCell (measResults msg) in
    let rsrp := rsrp_decode (rsrpResult code) in
    let rsrq := rsrq_decode (rsrqResult code) in
    let st1 := run evs (NotifyRecvMeasurementReport context imsi cellId rnti msg
                          time st) in
    (forall time' ueDevs i node mob,
       mobility node = Some mob ->
       node_imsi ueDevs i = imsi ->
       let st' := LogEverySecond_body time' ueDevs i node st1 in
       latest_field "RSRP_New" st' = Some [ADouble rsrp] /\
       latest_field "RSRQ_New" st' = Some [ADouble rsrq]) /\
    (forall context' cellid rnti' time',
       let st' := NotifyHandoverEndOkEnb context' imsi cellid rnti' time' st1 in
       latest_field "RSRP_Old" st' = Some [ADouble rsrp] /\
       latest_field "RSRP_New" st' = Some [ADouble rsrp] /\
       latest_field "RSRQ_Old" st' = Some [ADouble rsrq] /\
       latest_field "RSRQ_New" st' = Some [ADouble rsrq]).
Proof.
  intros context imsi cellId rnti msg time st lg evs Hlg Hall code rsrp rsrq st1.
  set (st0 := NotifyRecvMeasurementReport context imsi cellId rnti msg time st)
    in *.
  destruct (NotifyRecvMeasurementReport_log context imsi cellId rnti msg time
              st lg Hlg) as (r0 & Hlg0 & _). fold st0 in Hlg0.
  destruct (run_log evs st0 _ Hlg0) as (new & Hlg1 & _). fold st1 in Hlg1.
  destruct (NotifyRecvMeasurementReport_maps context imsi cellId rnti msg time st)
    as [Hp0 _].
  destruct (NotifyRecvMeasurementReport_frame context imsi cellId rnti msg time st)
    as (Hq0 & _).
  cbv zeta in Hp0, Hq0. fold st0 code in Hp0, Hq0.
  assert (Hp1 : ueLastRsrp st1 !! imsi = Some rsrp).
  { apply (proj1 (run_keeps evs st0 imsi)); [exact Hall|].
    rewrite Hp0. apply lookup_insert_eq. }
  assert (Hq1 : ueLastRsrq st1 !! imsi = Some rsrq).
  { apply run_rsrq_keeps; [exact Hall|]. rewrite Hq0. apply lookup_insert_eq. }
  split.
  - intros time' ueDevs i node mob Hmob Himsi st'. subst st'.
    pose proof (LogEverySecond_body_latest time' ueDevs i node st1 _ mob Hmob
                  Hlg1) as E.
    cbv zeta in E. rewrite Himsi, Hp1, Hq1 in E. cbn [spec_chain3 spec_chain2] in E.
    split; latest_of_line E.
  - intros context' cellid rnti' time' st'. subst st'.
    pose proof (NotifyHandoverEndOkEnb_latest context' imsi cellid rnti' time'
                  st1 _ Hlg1) as E.
    cbv zeta in E. rewrite Hp1, Hq1 in E. cbn [default] in E.
    repeat split; latest_of_line E.
Qed.

Lemma X9_last_report_decides_witness :
  latest_field "RSRP_New"
    (LogEverySecond_body 3.0%float [dev_of 7] 0 (node_at 3 4 6 8)
       (run quiet_events
          (NotifyRecvMeasurementReport "" 7 1 0 (report_of 50 20) 1.0%float
             st_broadcast))) = Some [ADouble (-90.0)%float] /\
  latest_field "RSRQ_New"
    (LogEverySecond_body 3.0%float [dev_of 7] 0 (node_at 3 4 6 8)
       (run quiet_events
          (NotifyRecvMeasurementReport "" 7 1 0 (report_of 50 20) 1.0%float
             st_broadcast))) = Some [ADouble (-9.5)%float].
Proof.
  assert (Hlg : g_logger st_broadcast = Some {| m_file := [header] |})
    by (vm_compute; reflexivity).
  assert (Hall : Forall (fun e => ~ observes_rsrp 7 e) quiet_events).
  { repeat constructor; cbn; try tauto; intros H; discriminate H. }
  destruct (X9_last_report_decides "" 7 1 0 (report_of 50 20) 1.0%float
              st_broadcast _ quiet_events Hlg Hall) as [H _].
  exact (H 3.0%float [dev_of 7] 0%nat (node_at 3 4 6 8) _ eq_refl eq_refl).
Defined.

(** X10. The throughput columns of a snapshot row are the result of the
    latest traffic sample: the sum of the rates of the UE's flows at that
    sample, or, when no flow was attributed to the UE, the value the maps
    held before it (0.0 when there was none). *)
Theorem X10_rows_carry_last_sample :
  forall stats classifier ueDevs ueIpIfaces numUes period t st lg
         time ueDevs' i node mob,
    (0 <? t)%float = true ->
    g_logger st = Some lg ->
    mobility node = Some mob ->
    let imsi := node_imsi ueDevs' i in
    let ipToImsi := build_ipToImsi ueDevs ueIpIfaces numUes in
    let st1 := SampleThroughput stats classifier ueDevs ueIpIfaces numUes
                 period t st in
    let st' := LogEverySecond_body time ueDevs' i node st1 in
    latest_field "Throughput_DL" st' =
      Some [ADouble (default 0.0%float
              (sampled (ueThroughputDl st !! imsi)
                 (contributions destinationAddress rxBytes classifier ipToImsi
                    t imsi stats)))] /\
    latest_field "Throughput_UL" st' =
      Some [ADouble (default 0.0%float
              (sampled (ueThroughputUl st !! imsi)
                 (contributions sourceAddress txBytes classifier ipToImsi
                    t imsi stats)))].
Proof.
  intros stats classifier ueDevs ueIpIfaces numUes period t st lg
    time ueDevs' i node mob Ht Hlg Hmob imsi ipToImsi st1 st'. subst st'.
  assert (Hlg1 : g_logger st1 = Some lg) by exact Hlg.
  pose proof (LogEverySecond_body_latest time ueDevs' i node st1 lg mob Hmob
                Hlg1) as E.
  cbv zeta in E. fold imsi in E.
  destruct (SampleThroughput_lookup stats classifier ueDevs ueIpIfaces numUes
              period t st imsi Ht) as [Hd Hu].
  cbv zeta in Hd, Hu. fold ipToImsi st1 in Hd, Hu.
  unfold last_throughputDl, last_throughputUl in E. rewrite Hd, Hu in E.
  split; rewrite (latest_field_snoc _ _ _ _ E); unfold field;
    rewrite measurement_line_fields; cbn [nth_error];
    match goal with |- context [sampled ?o ?xs] =>
      destruct (sampled o xs); reflexivity end.
Qed.

Lemma X10_rows_carry_last_sample_witness :
  latest_field "Throughput_DL"
    (LogEverySecond_body 6.0%float [dev_of 7] 0 (node_at 3 4 6 8)
       (SampleThroughput one_flow one_flow_classifier [dev_of 7] [100%N] 1
          0.5%float 5.0%float st_attached))
    = Some [ADouble (0.0 + flowThroughput 5000 5.0)%float].
Proof.
  assert (Hlg : g_logger st_attached = Some {| m_file := [header] |})
    by (vm_compute; reflexivity).
  exact (proj1 (X10_rows_carry_last_sample one_flow one_flow_classifier
                  [dev_of 7] [100%N] 1%nat 0.5%float 5.0%float st_attached _
                  6.0%float [dev_of 7] 0%nat (node_at 3 4 6 8) _
                  eq_refl Hlg eq_refl)).
Defined.

(** ** Attribution of flows *)

Lemma build_ipToImsi_S :
  forall ueDevs ueIpIfaces n,
    build_ipToImsi ueDevs ueIpIfaces (S n) =
      ipToImsi_step ueDevs ueIpIfaces (build_ipToImsi ueDevs ueIpIfaces n) n.
Proof.
  intros. unfold build_ipToImsi.
  rewrite seq_S, fold_left_app. reflexivity.
Qed.

Lemma build_ipToImsi_None :
  forall ueDevs (ueIpIfaces : list N) numUes ip,
    ip ∉ ueIpIfaces ->
    build_ipToImsi ueDevs ueIpIfaces numUes !! ip = None.
Proof.
  intros ueDevs ueIpIfaces numUes ip Hnot.
  induction numUes as [|n IH]; [apply lookup_empty|].
  rewrite build_ipToImsi_S. unfold ipToImsi_step.
  destruct (ueIpIfaces !! n) as [ueIp|] eqn:Eip; [|exact IH].
  destruct (ueDevs !! n) as [ueDev|]; [|exact IH].
  destruct (lteUeDev ueDev); [|exact IH].
  rewrite lookup_insert_ne; [exact IH|].
  intros ->. apply Hnot. eapply list_elem_of_lookup_2. exact Eip.
Qed.

Lemma build_ipToImsi_Some_inv :
  forall ueDevs (ueIpIfaces : list N) numUes ip imsi,
    build_ipToImsi ueDevs ueIpIfaces numUes !! ip = Some imsi ->
    exists i ueDev d,
      (i < numUes)%nat /\ ueIpIfaces !! i = Some ip /\
      ueDevs !! i = Some ueDev /\ lteUeDev ueDev = Some d /\ GetImsi d = imsi.
Proof.
  intros ueDevs ueIpIfaces numUes ip imsi.
  induction numUes as [|n IH].
  { change (build_ipToImsi ueDevs ueIpIfaces 0) with (∅ : gmap N N).
    rewrite lookup_empty. discriminate. }
  rewrite build_ipToImsi_S. unfold ipToImsi_step.
  assert (Hold : build_ipToImsi ueDevs ueIpIfaces n !! ip = Some imsi ->
            exists i ueDev d,
              (i < S n)%nat /\ ueIpIfaces !! i = Some ip /\
              ueDevs !! i = Some ueDev /\ lteUeDev ueDev = Some d /\
              GetImsi d = imsi).
  { intros H. destruct (IH H) as (i & ueDev & d & Hi & Hrest).
    exists i, ueDev, d. split; [lia|exact Hrest]. }
  destruct (ueIpIfaces !! n) as [ueIp|] eqn:Eip; [|exact Hold].
  destruct (ueDevs !! n) as [ueDev|] eqn:Edev; [|exact Hold].
  destruct (lteUeDev ueDev) as [d|] eqn:Elte; [|exact Hold].
  destruct (decide (ueIp = ip)) as [->|Hne].
  - rewrite lookup_insert_eq. intros [= <-].
    exists n, ueDev, d. repeat split; try assumption. lia.
  - rewrite lookup_insert_ne by exact Hne. exact Hold.
Qed.

Lemma build_ipToImsi_Some :
  forall ueDevs (ueIpIfaces : list N) numUes i ip ueDev d,
    NoDup ueIpIfaces ->
    (i < numUes)%nat ->
    ueIpIfaces !! i = Some ip ->
    ueDevs !! i = Some ueDev ->
    lteUeDev ueDev = Some d ->
    build_ipToImsi ueDevs ueIpIfaces numUes !! ip = Some (GetImsi d).
Proof.
  intros ueDevs ueIpIfaces numUes i ip ueDev d Hnd Hi Hip Hdev Hlte.
  induction numUes as [|n IH]; [lia|].
  rewrite build_ipToImsi_S. unfold ipToImsi_step.
  destruct (decide (i = n)) as [->|Hne].
  - rewrite Hip, Hdev, Hlte. apply lookup_insert_eq.
  - assert (IH' : build_ipToImsi ueDevs ueIpIfaces n !! ip = Some (GetImsi d))
      by (apply IH; lia).
    destruct (ueIpIfaces !! n) as [ueIp|] eqn:Eip; [|exact IH'].
    destruct (ueDevs !! n) as [ueDev'|]; [|exact IH'].
    destruct (lteUeDev ueDev'); [|exact IH'].
    rewrite lookup_insert_ne; [exact IH'|].
    intros ->. apply Hne. eapply NoDup_lookup; eassumption.
Qed.

(** X11. The address table of the traffic sampler maps an address to an
    IMSI only if it is the address of one of the first [numUes] UEs and that
    UE has an LTE device with this IMSI; with pairwise distinct UE addresses
    every such UE is found under its address. An address that is not a UE
    address (the remote host) is not in the table, so a flow between two
    such addresses is attributed to nobody. *)
Theorem X11_flow_attribution :
  forall ueDevs (ueIpIfaces : list N) numUes,
    (forall ip imsi,
       build_ipToImsi ueDevs ueIpIfaces numUes !! ip = Some imsi ->
       exists i ueDev d,
         (i < numUes)%nat /\ ueIpIfaces !! i = Some ip /\
         ueDevs !! i = Some ueDev /\ lteUeDev ueDev = Some d /\
         GetImsi d = imsi) /\
    (NoDup ueIpIfaces ->
     forall i ip ueDev d,
       (i < numUes)%nat ->
       ueIpIfaces !! i = Some ip ->
       ueDevs !! i = Some ueDev ->
       lteUeDev ueDev = Some d ->
       build_ipToImsi ueDevs ueIpIfaces numUes !! ip = Some (GetImsi d)) /\
    (forall classifier t totals it,
       sourceAddress (classifier (fst it)) ∉ ueIpIfaces ->
       destinationAddress (classifier (fst it)) ∉ ueIpIfaces ->
       accumulate_flow classifier (build_ipToImsi ueDevs ueIpIfaces numUes) t
         totals it = totals).
Proof.
  intros ueDevs ueIpIfaces numUes. split; [|split].
  - intros ip imsi. apply build_ipToImsi_Some_inv.
  - intros Hnd i ip ueDev d. apply build_ipToImsi_Some. exact Hnd.
  - intros classifier t totals it Hsrc Hdst. unfold accumulate_flow.
    rewrite (build_ipToImsi_None ueDevs ueIpIfaces numUes _ Hsrc),
      (build_ipToImsi_None ueDevs ueIpIfaces numUes _ Hdst).
    destruct (0 <? t)%float; destruct totals; reflexivity.
Qed.

Lemma X11_flow_attribution_witness :
  build_ipToImsi [dev_of 7; dev_of 8] [100%N; 101%N] 2 !! 101%N = Some 8%N /\
  accumulate_flow (fun _ => {| sourceAddress := 200; destinationAddress := 201 |})
    (build_ipToImsi [dev_of 7; dev_of 8] [100%N; 101%N] 2) 5.0%float
    (∅, ∅) (1%N, flow_one_packet 0.0625%float) = (∅, ∅).
Proof.
  destruct (X11_flow_attribution [dev_of 7; dev_of 8] [100%N; 101%N] 2)
    as (_ & Hsome & Hnone).
  split.
  - apply (Hsome ltac:(compute_done) 1%nat 101%N (dev_of 8)
             {| GetImsi := 8 |}); [lia|reflexivity..].
  - apply Hnone; compute_done.
Defined.

(** ** The traffic sampler at the edges *)

Lemma accumulate_nothing :
  forall classifier ipToImsi t stats totals,
    (0 <? t)%float = false ->
    fold_left (accumulate_flow classifier ipToImsi t) stats totals = totals.
Proof.
  intros classifier ipToImsi t stats totals Ht.
  induction stats as [|it stats IH]; cbn [fold_left]; [reflexivity|].
  unfold accumulate_flow at 2. rewrite Ht. exact IH.
Qed.

Lemma overwrite_empty :
  forall global : gmap N float, overwrite ∅ global = global.
Proof. intros. unfold overwrite. apply map_fold_empty. Qed.

(** X12. The traffic sampler writes the two throughput maps and nothing
    else. At a time that is not positive (zero, negative or not a number),
    or when the flow monitor reports no flow, it leaves the whole state as
    it was; stored throughput is then neither reset nor recomputed. *)
Theorem X12_sampler_edges :
  forall stats classifier ueDevs ueIpIfaces numUes period t st,
    let st' := SampleThroughput stats classifier ueDevs ueIpIfaces numUes
                 period t st in
    st' = set_ueThroughputUl (ueThroughputUl st')
            (set_ueThroughputDl (ueThroughputDl st') st) /\
    ((0 <? t)%float = false -> st' = st) /\
    (stats = [] -> st' = st).
Proof.
  intros stats classifier ueDevs ueIpIfaces numUes period t st st'. subst st'.
  split; [reflexivity|]. split.
  - intros Ht. unfold SampleThroughput.
    rewrite accumulate_nothing by exact Ht. cbn [fst snd].
    rewrite !overwrite_empty. destruct st; reflexivity.
  - intros ->. unfold SampleThroughput. cbn [fold_left fst snd].
    rewrite !overwrite_empty. destruct st; reflexivity.
Qed.

Lemma X12_sampler_edges_witness :
  SampleThroughput one_flow one_flow_classifier [dev_of 7] [100%N] 1 0.5%float
    0.0%float st_attached = st_attached /\
  SampleThroughput [] one_flow_classifier [dev_of 7] [100%N] 1 0.5%float
    5.0%float st_attached = st_attached.
Proof.
  destruct (X12_sampler_edges one_flow one_flow_classifier [dev_of 7] [100%N]
              1 0.5%float 0.0%float st_attached) as (_ & H0 & _).
  destruct (X12_sampler_edges [] one_flow_classifier [dev_of 7] [100%N]
              1 0.5%float 5.0%float st_attached) as (_ & _ & He).
  split; [apply H0; reflexivity|apply He; reflexivity].
Defined.

(** ** Set-up in [main] *)

(** X13. Unless the run aborts, exactly one mobility model is installed on
    the UEs. The run aborts exactly when a trace file is named and cannot be
    read; a readable trace is installed whenever one is named; without a
    trace name RandomWaypoint is installed. The [useSumo] flag has no
    influence on the outcome. *)
Theorem X13_mobility_selection :
  forall useSumo sumoTraceFile traceFileGood,
    let outcome := select_mobility useSumo sumoTraceFile traceFileGood in
    outcome = select_mobility (negb useSumo) sumoTraceFile traceFileGood /\
    (sumoTraceFile = "" -> outcome = Installed [RandomWaypoint]) /\
    (sumoTraceFile <> "" -> traceFileGood = true ->
       outcome = Installed [Ns2Trace sumoTraceFile]) /\
    (sumoTraceFile <> "" -> traceFileGood = false ->
       exists message, outcome = FatalError message) /\
    ((exists message, outcome = FatalError message) \/
     (exists model, outcome = Installed [model])).
Proof.
  intros useSumo sumoTraceFile traceFileGood outcome. subst outcome.
  unfold select_mobility.
  destruct (String.eqb_spec sumoTraceFile "") as [E|E];
    destruct useSumo, traceFileGood; cbn;
    repeat split; try congruence; eauto.
Qed.

Lemma X13_mobility_selection_witness :
  select_mobility true "" false = Installed [RandomWaypoint] /\
  select_mobility false "ns3-mobility.tcl" true =
    Installed [Ns2Trace "ns3-mobility.tcl"] /\
  exists message,
    select_mobility true "ns3-mobility.tcl" false = FatalError message.
Proof.
  split; [|split].
  - apply (proj1 (proj2 (X13_mobility_selection true "" false))). reflexivity.
  - apply (proj1 (proj2 (proj2 (X13_mobility_selection false "ns3-mobility.tcl"
                                  true)))); [discriminate|reflexivity].
  - apply (proj1 (proj2 (proj2 (proj2 (X13_mobility_selection true
                                         "ns3-mobility.tcl" false)))));
      [discriminate|reflexivity].
Defined.

(** The nested loops in closed form. *)
Lemma gnb_positions_closed :
  forall (D : Type) (A : GridArith D) (xMin xMax yMin yMax : D) numGnbs,
    gnb_positions xMin xMax yMin yMax numGnbs =
      map (fun k => grid_position xMin xMax yMin yMax (k / 3) (k mod 3))
        (seq 0 (Nat.min numGnbs 9)).
Proof.
  intros D A xMin xMax yMin yMax numGnbs.
  do 9 (destruct numGnbs as [|numGnbs]; [reflexivity|]).
  replace (Nat.min _ 9) with 9%nat by lia. reflexivity.
Qed.

(** X14. The gNB positions are the cells of a 3 x 3 grid filled row by
    row: position [k] lies in row [k / 3] and column [k mod 3], at height
    30. There are as many positions as gNBs, but never more than nine: for
    zero gNBs there is none, and from the tenth gNB on no position is
    added. *)
Theorem X14_gnb_grid :
  forall (D : Type) (A : GridArith D) (xMin xMax yMin yMax : D) numGnbs,
    let positions := gnb_positions xMin xMax yMin yMax numGnbs in
    length positions = Nat.min numGnbs 9 /\
    (forall k, (k < Nat.min numGnbs 9)%nat ->
       positions !! k =
         Some (g_add xMin (g_mul (g_of_int (Z.of_nat (k mod 3) + 1))
                             (xStep xMin xMax)),
               g_add yMin (g_mul (g_of_int (Z.of_nat (k / 3) + 1))
                             (yStep yMin yMax)),
               g_lit_30)) /\
    (forall k, (Nat.min numGnbs 9 <= k)%nat -> positions !! k = None).
Proof.
  intros D A xMin xMax yMin yMax numGnbs positions. subst positions.
  rewrite gnb_positions_closed. split; [|split].
  - rewrite length_map, length_seq. reflexivity.
  - intros k Hk. rewrite list_lookup_fmap, lookup_seq_lt by exact Hk.
    reflexivity.
  - intros k Hk. apply lookup_ge_None. rewrite length_map, length_seq. exact Hk.
Qed.

Lemma X14_gnb_grid_witness :
  length (default_positions 8) = 8%nat /\
  option_map (fun p => (snd (fst p), snd p)) (default_positions 8 !! 7%nat) =
    Some (1817.5%float, 30.0%float) /\
  default_positions 12 !! 9%nat = None.
Proof.
  destruct (X14_gnb_grid float float_grid (-5.0)%float 3230.0%float
              (-5.0)%float 1210.0%float 8) as (Hlen & Hin & _).
  destruct (X14_gnb_grid float float_grid (-5.0)%float 3230.0%float
              (-5.0)%float 1210.0%float 12) as (_ & _ & Hout).
  assert (H7 : (7 < Nat.min 8 9)%nat) by (vm_compute; lia).
  assert (H9 : (Nat.min 12 9 <= 9)%nat) by (vm_compute; lia).
  split; [exact Hlen|]. split.
  - unfold default_positions. rewrite (Hin 7%nat H7). reflexivity.
  - exact (Hout 9%nat H9).
Defined.

Lemma gnb_positions_lookup :
  forall (D : Type) (A : GridArith D) (xMin xMax yMin yMax : D) numGnbs k p,
    gnb_positions xMin xMax yMin yMax numGnbs !! k = Some p ->
    (k < 9)%nat /\ p = grid_position xMin xMax yMin yMax (k / 3) (k mod 3).
Proof.
  intros D A xMin xMax yMin yMax numGnbs k p.
  rewrite gnb_positions_closed, list_lookup_fmap.
  destruct (seq 0 (Nat.min numGnbs 9) !! k) as [j|] eqn:E; [|discriminate].
  apply lookup_seq in E as [-> Hk]. cbn. intros [= <-]. split; [lia|reflexivity].
Qed.

(** X15. The grid divides the width of the area by three but its height
    by two while it has three rows. In exact arithmetic, for an area with
    [yMin < yMax], the first row lies inside the area, the second row lies
    on the upper edge [yMax], and the third row (gNBs 7 to 9) lies above it,
    outside the area. In binary64 with the default area this puts the
    second row at y = 1210.0 and the third at y = 1817.5. *)
Theorem X15_grid_rows_and_area :
  (forall (xMin xMax yMin yMax : Q) numGnbs k x y z,
     (yMin < yMax)%Q ->
     gnb_positions xMin xMax yMin yMax numGnbs !! k = Some (x, y, z) ->
     ((k < 3)%nat -> (yMin < y)%Q /\ (y < yMax)%Q) /\
     ((3 <= k < 6)%nat -> (y == yMax)%Q) /\
     ((6 <= k)%nat -> (yMax < y)%Q)) /\
  (forall numGnbs k x y z,
     default_positions numGnbs !! k = Some (x, y, z) ->
     ((3 <= k < 6)%nat -> y = 1210.0%float) /\
     ((6 <= k)%nat -> y = 1817.5%float)).
Proof.
  split.
  - intros xMin xMax yMin yMax numGnbs k x y z Hy Hk.
    apply gnb_positions_lookup in Hk as [Hk9 E].
    unfold grid_position, yStep in E. injection E as _ Ey _.
    cbn [g_add g_mul g_div g_sub g_of_int g_lit_2 Q_grid] in Ey. subst y.
    unfold Qdiv. change (/ 2)%Q with (1 # 2)%Q.
    do 9 (destruct k as [|k];
          [vm_compute (inject_Z _);
           split; [|split]; intros; try lia; try split; lra|]).
    lia.
  - intros numGnbs k x y z Hk. unfold default_positions in Hk.
    apply gnb_positions_lookup in Hk as [Hk9 E].
    do 9 (destruct k as [|k];
          [vm_compute in E; split; intros; try lia; congruence|]).
    lia.
Qed.

Lemma X15_grid_rows_and_area_witness :
  option_map (fun p => snd (fst p)) (default_positions 8 !! 6%nat) =
    Some 1817.5%float /\
  (1210.0 <? 1817.5)%float = true.
Proof.
  split; [|reflexivity].
  destruct (default_positions 8 !! 6%nat) as [[[x y] z]|] eqn:E.
  - destruct X15_grid_rows_and_area as [_ H].
    rewrite (proj2 (H 8%nat 6%nat x y z E) ltac:(lia)). reflexivity.
  - vm_compute in E. discriminate E.
Defined.

(** ** The traffic summary at the edges *)

(** X16. In the traffic summary a flow with no packet received gets delay
    and jitter means of 0.0, and every flow gets throughput 0.0 when the run
    time is not positive. From two received packets on both divisors are at
    least one, and the means are the sums in seconds divided by [rxPackets]
    resp. [rxPackets - 1], times 1000. *)
Theorem X16_summary_edges :
  forall simTime fs,
    (rxPackets fs = 0%Z ->
       row_delayMean (flow_row simTime fs) = 0.0%float /\
       row_jitterMean (flow_row simTime fs) = 0.0%float) /\
    ((0 <? simTime)%float = false ->
       row_throughputDl (flow_row simTime fs) = 0.0%float /\
       row_throughputUl (flow_row simTime fs) = 0.0%float) /\
    ((2 <= rxPackets fs < 2 ^ 32)%Z ->
       (1 <= jitter_divisor fs)%Z /\ (2 <= delay_divisor fs)%Z /\
       row_delayMean (flow_row simTime fs) =
         (GetSeconds (delaySum fs) / u2d (rxPackets fs) * 1000.0)%float /\
       row_jitterMean (flow_row simTime fs) =
         (GetSeconds (jitterSum fs) / u2d (rxPackets fs - 1) * 1000.0)%float).
Proof.
  intros simTime fs. unfold flow_row, delay_divisor, jitter_divisor.
  cbn [row_delayMean row_jitterMean row_throughputDl row_throughputUl].
  split; [|split].
  - intros ->. split; reflexivity.
  - intros ->. split; reflexivity.
  - intros Hrx. rewrite Z.mod_small by lia.
    replace (0 <? rxPackets fs)%Z with true by (symmetry; apply Z.ltb_lt; lia).
    repeat split; lia || reflexivity.
Qed.

Lemma X16_summary_edges_witness :
  row_delayMean (flow_row 100.0%float flow_five_packets) = 100.0%float /\
  row_jitterMean (flow_row 100.0%float flow_five_packets) = 31.25%float /\
  row_jitterMean (flow_row 100.0%float flow_nothing_received) = 0.0%float.
Proof.
  destruct (X16_summary_edges 100.0%float flow_five_packets) as (_ & _ & H5).
  destruct (X16_summary_edges 100.0%float flow_nothing_received) as (H0 & _).
  destruct (H5 ltac:(cbn; lia)) as (_ & _ & Hd & Hj).
  split; [rewrite Hd; reflexivity|].
  split; [rewrite Hj; reflexivity|].
  exact (proj2 (H0 eq_refl)).
Defined.

(** ** Entries are never removed *)

Lemma dom_keeps :
  forall (A : Type) (m m' : gmap N A),
    (forall k v, m !! k = Some v -> is_Some (m' !! k)) ->
    dom m ⊆ dom m'.
Proof.
  intros A m m' H k. rewrite !elem_of_dom. intros [v Hv]. eauto.
Qed.

Lemma keeps_keys_refl : forall st, keeps_keys st st.
Proof. intros st. unfold keeps_keys. repeat split; reflexivity. Qed.

Lemma keeps_keys_trans :
  forall st1 st2 st3,
    keeps_keys st1 st2 -> keeps_keys st2 st3 -> keeps_keys st1 st3.
Proof.
  unfold keeps_keys. intros st1 st2 st3
    (A1 & A2 & A3 & A4 & A5 & A6 & A7 & A8 & A9 & A10)
    (B1 & B2 & B3 & B4 & B5 & B6 & B7 & B8 & B9 & B10).
  repeat split; etrans; eassumption.
Qed.

Lemma overwrite_dom :
  forall total global : gmap N float, dom global ⊆ dom (overwrite total global).
Proof.
  intros total global. apply dom_keeps. intros k v Hv.
  rewrite overwrite_lookup, Hv. destruct (total !! k); eauto.
Qed.

Lemma LogEverySecond_body_keeps_keys :
  forall time ueDevs i node st,
    keeps_keys st (LogEverySecond_body time ueDevs i node st).
Proof.
  intros time ueDevs i node st.
  destruct (mobility node) as [mob|] eqn:Hmob.
  - destruct (LogEverySecond_body_maps time ueDevs i node st mob Hmob)
      as (Bp & Bs & B1 & B2 & B3 & B4 & B5 & B6).
    unfold keeps_keys. rewrite Bp, Bs, B1, B2, B3, B4, B5, B6.
    repeat split; try reflexivity; try apply dom_insert_subseteq.
    + apply dom_keeps. intros k v Hv.
      rewrite (proj1 (LogEverySecond_body_keeps time ueDevs i node st k) v Hv).
      eauto.
    + apply dom_keeps. intros k v Hv.
      rewrite (proj2 (LogEverySecond_body_keeps time ueDevs i node st k) v Hv).
      eauto.
  - rewrite (LogEverySecond_body_static time ueDevs i node st Hmob).
    apply keeps_keys_refl.
Qed.

Lemma dispatch_keeps_keys :
  forall e st, keeps_keys st (dispatch e st).
Proof.
  intros e st. destruct e; cbn [dispatch].
  - unfold NotifyHandoverStartEnb.
    destruct (ueCurrentCell st !! imsi); [apply keeps_keys_refl|].
    unfold keeps_keys. cbn.
    repeat split; try reflexivity. apply dom_insert_subseteq.
  - unfold NotifyHandoverEndOkEnb.
    destruct (g_logger st); [destruct (last_xy imsi st)|apply keeps_keys_refl].
    unfold keeps_keys. cbn.
    repeat split; try reflexivity. apply dom_insert_subseteq.
  - unfold keeps_keys. cbn.
    repeat split; try reflexivity. apply dom_insert_subseteq.
  - unfold keeps_keys. cbn.
    repeat split; try reflexivity; apply dom_insert_subseteq.
  - destruct (NotifyRecvMeasurementReport_frame context imsi cellId rnti msg
                time st) as (F1 & F2 & F3 & F4 & F5 & F6 & F7 & F8).
    destruct (NotifyRecvMeasurementReport_maps context imsi cellId rnti msg
                time st) as (M1 & M2).
    unfold keeps_keys. rewrite F1, F2, F3, F4, F5, F6, F7, F8, M1, M2.
    repeat split; try reflexivity; try apply dom_insert_subseteq.
    apply dom_keeps. intros k v Hv.
    rewrite (resolve_sinr_keeps imsi cellId st k v Hv). eauto.
  - unfold LogEverySecond. generalize 0%nat. revert st.
    induction ueNodes as [|node nodes IH]; intros st i;
      cbn [LogEverySecond_loop]; [apply keeps_keys_refl|].
    eapply keeps_keys_trans; [apply LogEverySecond_body_keeps_keys|apply IH].
  - unfold keeps_keys, SampleThroughput. cbn.
    repeat split; try reflexivity; apply overwrite_dom.
Qed.

(** X17. Nothing is ever removed from the maps: whatever events a run
    consists of, every IMSI that had a tracked cell, a position, a speed,
    a throughput, an RSRP, RSRQ or SINR value still has one afterwards, and
    so has every cell its PHY values. *)
Theorem X17_entries_are_never_removed :
  forall evs st,
    keeps_keys st (run evs st) /\
    forall imsi c,
      ueCurrentCell st !! imsi = Some c ->
      is_Some (ueCurrentCell (run evs st) !! imsi).
Proof.
  intros evs st.
  assert (H : keeps_keys st (run evs st)).
  { revert st. unfold run. induction evs as [|e evs IH]; intros st;
      cbn [fold_left]; [apply keeps_keys_refl|].
    eapply keeps_keys_trans; [apply dispatch_keeps_keys|apply IH]. }
  split; [exact H|].
  intros imsi c Hc. destruct H as (H1 & _).
  apply elem_of_dom, H1, elem_of_dom. eauto.
Qed.

Lemma X17_entries_are_never_removed_witness :
  is_Some (ueCurrentCell (run other_events st_handed_over) !! 7%N).
Proof.
  assert (Hc : ueCurrentCell st_handed_over !! 7%N = Some 2%N)
    by (vm_compute; reflexivity).
  exact (proj2 (X17_entries_are_never_removed other_events st_handed_over)
           7%N 2%N Hc).
Defined.

(** ** PHY samples *)

Lemma dispatch_cell_maps :
  forall e st,
    cellRsrp (dispatch e st) =
      match e with
      | PhyRsrpSinr _ cellId _ rsrp _ _ => <[cellId := rsrp]> (cellRsrp st)
      | _ => cellRsrp st
      end /\
    cellSinr (dispatch e st) =
      match e with
      | PhyRsrpSinr _ cellId _ _ sinr _ => <[cellId := sinr]> (cellSinr st)
      | _ => cellSinr st
      end.
Proof.
  intros e st. destruct e; cbn [dispatch].
  - unfold NotifyHandoverStartEnb.
    destruct (ueCurrentCell st !! imsi); split; reflexivity.
  - unfold NotifyHandoverEndOkEnb.
    destruct (g_logger st); [destruct (last_xy imsi st)|]; split; reflexivity.
  - split; reflexivity.
  - split; reflexivity.
  - destruct (NotifyRecvMeasurementReport_frame context imsi cellId rnti msg
                time st) as (_ & _ & _ & _ & _ & _ & -> & ->).
    split; reflexivity.
  - destruct (LogEverySecond_loop_frame time ueDevs ueNodes 0 st)
      as (_ & _ & _ & _ & E1 & E2).
    unfold LogEverySecond. rewrite E1, E2. split; reflexivity.
  - split; reflexivity.
Qed.

Lemma run_cell_maps :
  forall evs st c,
    cellRsrp (run evs st) !! c =
      match last_phy c evs with
      | Some s => Some (fst s)
      | None => cellRsrp st !! c
      end /\
    cellSinr (run evs st) !! c =
      match last_phy c evs with
      | Some s => Some (snd s)
      | None => cellSinr st !! c
      end.
Proof.
  unfold run. induction evs as [|e evs IH]; intros st c;
    cbn [fold_left last_phy]; [split; reflexivity|].
  destruct (IH (dispatch e st) c) as [-> ->].
  destruct (last_phy c evs) as [s|]; [split; reflexivity|].
  destruct (dispatch_cell_maps e st) as [-> ->].
  destruct e; try (split; reflexivity).
  destruct (decide (cellId = c)) as [->|Hne].
  - rewrite !lookup_insert_eq. split; reflexivity.
  - rewrite !lookup_insert_ne by exact Hne. split; reflexivity.
Qed.

(** X18. The per-cell values are those of the latest PHY sample of the
    cell: after any run, a cell holds the RSRP and SINR of the last sample
    received for it (samples of other cells and all other events leave them
    alone). A UE on that cell without values of its own gets exactly these
    in its next snapshot row. *)
Theorem X18_latest_phy_sample :
  forall evs st c rsrp sinr,
    last_phy c evs = Some (rsrp, sinr) ->
    cellRsrp (run evs st) !! c = Some rsrp /\
    cellSinr (run evs st) !! c = Some sinr /\
    forall time ueDevs i node lg mob,
      mobility node = Some mob ->
      g_logger (run evs st) = Some lg ->
      let imsi := node_imsi ueDevs i in
      ueCurrentCell (run evs st) !! imsi = Some c ->
      (0 <? c)%N = true ->
      let st' := LogEverySecond_body time ueDevs i node (run evs st) in
      (ueLastRsrp (run evs st) !! imsi = None ->
         latest_field "RSRP_New" st' = Some [ADouble rsrp]) /\
      (ueLastSinr (run evs st) !! imsi = None ->
         latest_field "SINR_New" st' = Some [ADouble sinr]).
Proof.
  intros evs st c rsrp sinr Hlast.
  destruct (run_cell_maps evs st c) as [Hr Hs]. rewrite Hlast in Hr, Hs.
  cbn [fst snd] in Hr, Hs.
  split; [exact Hr|]. split; [exact Hs|].
  intros time ueDevs i node lg mob Hmob Hlg imsi Hc Hpos st'. subst st'.
  pose proof (LogEverySecond_body_latest time ueDevs i node (run evs st) lg mob
                Hmob Hlg) as E.
  cbv zeta in E. fold imsi in E.
  unfold resolve_cell, broadcast_of in E. rewrite Hc, Hpos, Hr, Hs in E.
  split; intros Hnone; rewrite Hnone in E; cbn [spec_chain3] in E;
    latest_of_line E.
Qed.

Lemma X18_latest_phy_sample_witness :
  cellRsrp (run later_broadcasts st_attached) !! 1%N = Some (-70.0)%float /\
  latest_field "RSRP_New"
    (LogEverySecond_body 2.0%float [dev_of 7] 0 (node_at 3 4 6 8)
       (run later_broadcasts st_attached)) = Some [ADouble (-60.0)%float].
Proof.
  destruct (X18_latest_phy_sample later_broadcasts st_attached 1
              (-70.0)%float 12.0%float eq_refl) as (H1 & _ & _).
  destruct (X18_latest_phy_sample later_broadcasts st_attached 2
              (-60.0)%float 20.0%float eq_refl) as (_ & _ & H2).
  split; [exact H1|].
  refine (proj1 (H2 2.0%float [dev_of 7] 0%nat (node_at 3 4 6 8) _ _ _ _ _ _) _);
    vm_compute; reflexivity.
Defined.

(** ** The UE-side measurement callback *)

(** X19. The UE-side measurement callback drops a measurement that is not
    of the serving cell without touching anything. A serving-cell
    measurement is stored as given (no decoding) as the UE's RSRP and RSRQ
    and, with the logger in place, written as one MEASUREMENT row for the
    reported cell, with SINR resolved like in the other callbacks. *)
Theorem X19_ue_side_measurement :
  forall context imsi cellId rsrp rsrq componentCarrierId time st,
    NotifyReportUeMeasurements context imsi cellId rsrp rsrq false
      componentCarrierId time st = st /\
    let st' := NotifyReportUeMeasurements context imsi cellId rsrp rsrq true
                 componentCarrierId time st in
    ueLastRsrp st' !! imsi = Some rsrp /\
    ueLastRsrq st' !! imsi = Some rsrq /\
    ueCurrentCell st' = ueCurrentCell st /\
    forall lg,
      g_logger st = Some lg ->
      rows st' = rows st ++
        [measurement_line time imsi cellId rsrp rsrq
           (spec_chain3 (ueLastSinr st !! imsi)
              (broadcast_of (cellSinr st) cellId) 0.0%float)
           (fst (last_xy imsi st)) (snd (last_xy imsi st)) (last_speed imsi st)
           (last_throughputDl imsi st) (last_throughputUl imsi st)].
Proof.
  intros context imsi cellId rsrp rsrq componentCarrierId time st.
  split; [reflexivity|]. cbv zeta.
  unfold NotifyReportUeMeasurements. cbn [negb].
  set (st2 := set_ueLastRsrq _ _).
  change (g_logger st2) with (g_logger st).
  change (last_xy imsi st2) with (last_xy imsi st).
  change (last_speed imsi st2) with (last_speed imsi st).
  change (last_throughputDl imsi st2) with (last_throughputDl imsi st).
  change (last_throughputUl imsi st2) with (last_throughputUl imsi st).
  pose proof (resolve_sinr_frame imsi cellId st2) as Hq. cbv zeta in Hq.
  pose proof (resolve_sinr_value imsi cellId st2) as Vq.
  change (ueLastSinr st2) with (ueLastSinr st) in Vq.
  change (cellSinr st2) with (cellSinr st) in Vq.
  destruct (g_logger st) as [lg|] eqn:Hlg.
  - destruct (last_xy imsi st) as [x y].
    destruct (resolve_sinr imsi cellId st2) as [sinr st3]. cbn [fst snd] in *.
    rewrite Hq. cbn [ueLastRsrp ueLastRsrq ueCurrentCell set_g_logger
                     set_ueLastSinr].
    subst st2. cbn [ueLastRsrp ueLastRsrq ueCurrentCell set_ueLastRsrq
                    set_ueLastRsrp].
    split; [apply lookup_insert_eq|]. split; [apply lookup_insert_eq|].
    split; [reflexivity|].
    intros lg' [= <-]. unfold rows.
    cbn [g_logger set_g_logger LogMeasurement m_file]. rewrite Hlg, Vq.
    reflexivity.
  - subst st2. cbn [ueLastRsrp ueLastRsrq ueCurrentCell set_ueLastRsrq
                    set_ueLastRsrp].
    split; [apply lookup_insert_eq|]. split; [apply lookup_insert_eq|].
    split; [reflexivity|]. intros lg'. discriminate.
Qed.

Lemma X19_ue_side_measurement_witness :
  rows (NotifyReportUeMeasurements "" 7 1 (-95.0)%float (-11.0)%float true 0
          3.0%float st_broadcast) =
    rows st_broadcast ++
      [measurement_line 3.0%float 7 1 (-95.0)%float (-11.0)%float 5.5%float
         0%float 0%float 0%float 0.0%float 0.0%float].
Proof.
  assert (Hlg : g_logger st_broadcast = Some {| m_file := [header] |})
    by (vm_compute; reflexivity).
  destruct (X19_ue_side_measurement "" 7 1 (-95.0)%float (-11.0)%float 0
              3.0%float st_broadcast) as (_ & _ & _ & _ & H).
  exact (H _ Hlg).
Defined.

(** ** Initial attachment *)

Lemma closest_loop_spec :
  forall pow2 uePos enbs j closestEnb minDistance,
    let r := closest_loop pow2 uePos enbs j closestEnb minDistance in
    (fst r = closestEnb /\ snd r = minDistance \/
     exists k enbPos,
       fst r = (j + k)%nat /\ enbs !! k = Some enbPos /\
       snd r = distance pow2 uePos enbPos) /\
    (forall k enbPos,
       enbs !! k = Some enbPos ->
       (fst r < j + k)%nat ->
       (distance pow2 uePos enbPos <? snd r)%float = false).
Proof.
  intros pow2 uePos enbs. induction enbs as [|enbPos enbs IH];
    intros j closestEnb minDistance; cbn [closest_loop].
  - split; [left; split; reflexivity|].
    intros k p Hk. rewrite lookup_nil in Hk. discriminate.
  - cbv zeta.
    destruct (distance pow2 uePos enbPos <? minDistance)%float eqn:Hlt.
    + specialize (IH (S j) j (distance pow2 uePos enbPos)).
      cbv zeta in IH. destruct IH as [IH1 IH2].
      set (r := closest_loop pow2 uePos enbs (S j) j _) in *.
      assert (Hright : exists k p,
                 fst r = (j + k)%nat /\ (enbPos :: enbs) !! k = Some p /\
                 snd r = distance pow2 uePos p).
      { destruct IH1 as [[E1 E2] | (k & p & E1 & E2 & E3)].
        - exists 0%nat, enbPos. rewrite E1, E2, Nat.add_0_r.
          repeat split; reflexivity.
        - exists (S k), p. rewrite E1. split; [lia|]. split; assumption. }
      split; [right; exact Hright|].
      destruct Hright as (k' & p' & E1 & _).
      intros [|k] p Hk Hcase; cbn in Hk; [lia|].
      apply (IH2 k p Hk). lia.
    + specialize (IH (S j) closestEnb minDistance).
      cbv zeta in IH. destruct IH as [IH1 IH2].
      set (r := closest_loop pow2 uePos enbs (S j) closestEnb minDistance) in *.
      split.
      * destruct IH1 as [[E1 E2] | (k & p & E1 & E2 & E3)];
          [left; split; assumption|].
        right. exists (S k), p. rewrite E1. split; [lia|]. split; assumption.
      * intros [|k] p Hk Hcase; cbn in Hk.
        -- injection Hk as <-.
           destruct IH1 as [[E1 E2] | (k & p & E1 & E2 & E3)]; [|lia].
           rewrite E2. exact Hlt.
        -- apply (IH2 k p Hk). lia.
Qed.

(** *** The comparison of two distances *)

Lemma SFltb_key :
  forall a b, a <> S754_nan -> b <> S754_nan ->
    (SFltb a b = true <-> key_lt (sf_key a) (sf_key b)).
Proof.
  intros a b Ha Hb. unfold SFltb, key_lt.
  destruct a as [sa|sa| |sa ma ea]; [| |congruence|];
    (destruct b as [sb|sb| |sb mb eb]; [| |congruence|]);
    try destruct sa; try destruct sb; cbn;
    try (split; [intros; lia | intros; reflexivity]);
    try (split; [intros; discriminate | intros; lia]).
  - change (Pos.compare_cont Eq ma mb) with (Pos.compare ma mb).
    destruct (Z.compare_spec ea eb); destruct (Pos.compare_spec ma mb); cbn;
      split; intros; try discriminate; try reflexivity; try lia.
  - change (Pos.compare_cont Eq ma mb) with (Pos.compare ma mb).
    destruct (Z.compare_spec ea eb); destruct (Pos.compare_spec ma mb); cbn;
      split; intros; try discriminate; try reflexivity; try lia.
Qed.

Lemma SFltb_key_false :
  forall a b, a <> S754_nan -> b <> S754_nan ->
    (SFltb a b = false <-> ~ key_lt (sf_key a) (sf_key b)).
Proof.
  intros a b Ha Hb. pose proof (SFltb_key a b Ha Hb) as H.
  destruct (SFltb a b).
  - split; [discriminate|]. intros K. exfalso. apply K, H. reflexivity.
  - split; [|reflexivity]. intros _ K. apply H in K. discriminate.
Qed.

Lemma SFltb_nan_l : forall b, SFltb S754_nan b = false.
Proof. intros []; reflexivity. Qed.

Lemma SFltb_nan_r : forall a, SFltb a S754_nan = false.
Proof. intros []; reflexivity. Qed.

Lemma nan_or_not : forall a, a = S754_nan \/ a <> S754_nan.
Proof. intros []; (left; reflexivity) || (right; discriminate). Qed.

Lemma SFltb_trans :
  forall a b c, SFltb a b = true -> SFltb b c = true -> SFltb a c = true.
Proof.
  intros a b c Hab Hbc.
  assert (Ha : a <> S754_nan)
    by (intros ->; rewrite SFltb_nan_l in Hab; discriminate).
  assert (Hb : b <> S754_nan)
    by (intros ->; rewrite SFltb_nan_r in Hab; discriminate).
  assert (Hc : c <> S754_nan)
    by (intros ->; rewrite SFltb_nan_r in Hbc; discriminate).
  apply SFltb_key in Hab; [|assumption..].
  apply SFltb_key in Hbc; [|assumption..].
  apply SFltb_key; [assumption..|].
  unfold key_lt in *. lia.
Qed.

Lemma SFltb_neg_trans :
  forall a b c, b <> S754_nan ->
    SFltb a b = false -> SFltb b c = false -> SFltb a c = false.
Proof.
  intros a b c Hb Hab Hbc.
  destruct (nan_or_not a) as [->|Ha]; [apply SFltb_nan_l|].
  destruct (nan_or_not c) as [->|Hc]; [apply SFltb_nan_r|].
  apply SFltb_key_false in Hab; [|assumption..].
  apply SFltb_key_false in Hbc; [|assumption..].
  apply SFltb_key_false; [assumption..|].
  unfold key_lt in *. lia.
Qed.

Lemma SFltb_irrefl : forall a, SFltb a a = false.
Proof.
  intros a. destruct (nan_or_not a) as [->|Ha]; [reflexivity|].
  apply SFltb_key_false; [assumption..|]. unfold key_lt. lia.
Qed.

(** [<] on [double] is a strict order, and "not below" is transitive
    through a number that is not NaN. *)
Lemma double_lt_trans :
  forall x y z : float,
    (x <? y)%float = true -> (y <? z)%float = true -> (x <? z)%float = true.
Proof. intros x y z. rewrite !FloatAxioms.ltb_spec. apply SFltb_trans. Qed.

Lemma double_lt_irrefl : forall x : float, (x <? x)%float = false.
Proof. intros x. rewrite FloatAxioms.ltb_spec. apply SFltb_irrefl. Qed.

Lemma double_lt_neg_trans :
  forall x y z : float,
    is_nan y = false ->
    (x <? y)%float = false -> (y <? z)%float = false ->
    (x <? z)%float = false.
Proof.
  intros x y z Hy. rewrite !FloatAxioms.ltb_spec. apply SFltb_neg_trans.
  intros E. unfold is_nan in Hy. rewrite FloatAxioms.eqb_spec, E in Hy. discriminate.
Qed.

Lemma double_lt_asym :
  forall x y : float, (x <? y)%float = true -> (y <? x)%float = false.
Proof.
  intros x y H. destruct (y <? x)%float eqn:E; [|reflexivity].
  pose proof (double_lt_trans x y x H E) as K.
  rewrite double_lt_irrefl in K. discriminate.
Qed.

(** The loop finds a least distance and the first eNB that has it. *)
Lemma closest_loop_min :
  forall pow2 uePos enbs j closestEnb minDistance,
    Forall (fun p => is_nan (distance pow2 uePos p) = false) enbs ->
    let r := closest_loop pow2 uePos enbs j closestEnb minDistance in
    (forall k p, enbs !! k = Some p ->
       (distance pow2 uePos p <? snd r)%float = false) /\
    ((fst r = closestEnb /\ snd r = minDistance /\
      forall k p, enbs !! k = Some p ->
        (distance pow2 uePos p <? minDistance)%float = false) \/
     exists k q,
       fst r = (j + k)%nat /\ enbs !! k = Some q /\
       snd r = distance pow2 uePos q /\
       (distance pow2 uePos q <? minDistance)%float = true /\
       forall k' p, (k' < k)%nat -> enbs !! k' = Some p ->
         (distance pow2 uePos q <? distance pow2 uePos p)%float = true).
Proof.
  intros pow2 uePos enbs. induction enbs as [|enbPos enbs IH];
    intros j closestEnb minDistance Hnan; cbn [closest_loop].
  - split; [intros k p Hk; rewrite lookup_nil in Hk; discriminate|].
    left. split; [reflexivity|]. split; [reflexivity|].
    intros k p Hk. rewrite lookup_nil in Hk. discriminate.
  - inversion Hnan as [|? ? Hd0 Hnan']; subst. cbv zeta.
    set (d0 := distance pow2 uePos enbPos) in *.
    destruct (d0 <? minDistance)%float eqn:Hlt.
    + specialize (IH (S j) j d0 Hnan'). cbv zeta in IH.
      destruct IH as [IHmin IHcase].
      set (r := closest_loop pow2 uePos enbs (S j) j d0) in *.
      split.
      * intros [|k] p Hk; cbn in Hk; [|exact (IHmin k p Hk)].
        injection Hk as <-. fold d0.
        destruct IHcase as [(_ & E & _) | (k & q & _ & _ & E & Hq & _)];
          rewrite E; [apply double_lt_irrefl|].
        apply double_lt_asym. exact Hq.
      * right.
        destruct IHcase as [(E1 & E2 & Hall)
                           | (k & q & E1 & Hk & E2 & Hq & Hfirst)].
        -- exists 0%nat, enbPos. rewrite E1, E2, Nat.add_0_r.
           split; [reflexivity|]. split; [reflexivity|].
           split; [reflexivity|]. split; [exact Hlt|].
           intros k' p Hk'. lia.
        -- exists (S k), q. rewrite E1. split; [lia|].
           split; [exact Hk|]. split; [exact E2|].
           split; [exact (double_lt_trans _ _ _ Hq Hlt)|].
           intros [|k'] p Hk' Hp; cbn in Hp.
           ++ injection Hp as <-. exact Hq.
           ++ apply (Hfirst k' p); [lia|exact Hp].
    + specialize (IH (S j) closestEnb minDistance Hnan'). cbv zeta in IH.
      destruct IH as [IHmin IHcase].
      set (r := closest_loop pow2 uePos enbs (S j) closestEnb minDistance) in *.
      split.
      * intros [|k] p Hk; cbn in Hk; [|exact (IHmin k p Hk)].
        injection Hk as <-. fold d0.
        destruct IHcase as [(_ & E & _) | (k & q & _ & _ & E & Hq & _)];
          rewrite E; [exact Hlt|].
        destruct (d0 <? distance pow2 uePos q)%float eqn:E'; [|reflexivity].
        rewrite (double_lt_trans _ _ _ E' Hq) in Hlt. discriminate.
      * destruct IHcase as [(E1 & E2 & Hall)
                           | (k & q & E1 & Hk & E2 & Hq & Hfirst)].
        -- left. split; [exact E1|]. split; [exact E2|].
           intros [|k] p Hk; cbn in Hk; [|exact (Hall k p Hk)].
           injection Hk as <-. exact Hlt.
        -- right. exists (S k), q. rewrite E1. split; [lia|].
           split; [exact Hk|]. split; [exact E2|]. split; [exact Hq|].
           intros [|k'] p Hk' Hp; cbn in Hp.
           ++ injection Hp as <-. fold d0.
              destruct (distance pow2 uePos q <? d0)%float eqn:E';
                [reflexivity|].
              rewrite (double_lt_neg_trans _ _ _ Hd0 E' Hlt) in Hq.
              discriminate.
           ++ apply (Hfirst k' p); [lia|exact Hp].
Qed.

(** X20. For the initial attachment the UE is attached to the eNB with
    index [closest_enb]. With at least one eNB this is a valid index;
    without any eNB the index is 0, which names no device. The minimum
    found is [DBL_MAX] with index 0, or the distance of the chosen eNB, and
    no later eNB is strictly closer than it. When no distance is NaN: no
    eNB at all is strictly closer than the minimum found; if some eNB is
    closer than [DBL_MAX], the chosen eNB is a nearest one (no eNB is
    strictly closer) and every eNB before it in the list is strictly
    farther, so of equally near eNBs the first is chosen; if no eNB is
    closer than [DBL_MAX], index 0 is chosen. *)
Theorem X20_closest_enb :
  forall pow2 uePos enbs,
    let r := closest_loop pow2 uePos enbs 0 0 DBL_MAX in
    let d := distance pow2 uePos in
    closest_enb pow2 uePos enbs = fst r /\
    (enbs <> [] -> (fst r < length enbs)%nat) /\
    (enbs = [] -> fst r = 0%nat /\ enbs !! fst r = None) /\
    (fst r = 0%nat /\ snd r = DBL_MAX \/
     exists enbPos,
       enbs !! fst r = Some enbPos /\ snd r = d enbPos) /\
    (forall k enbPos,
       enbs !! k = Some enbPos ->
       (fst r < k)%nat ->
       (d enbPos <? snd r)%float = false) /\
    (Forall (fun p => is_nan (d p) = false) enbs ->
     (forall k p, enbs !! k = Some p -> (d p <? snd r)%float = false) /\
     (Exists (fun p => (d p <? DBL_MAX)%float = true) enbs ->
      exists q,
        enbs !! fst r = Some q /\ snd r = d q /\
        (forall k p, enbs !! k = Some p -> (d p <? d q)%float = false) /\
        (forall k p, (k < fst r)%nat -> enbs !! k = Some p ->
           (d q <? d p)%float = true)) /\
     (Forall (fun p => (d p <? DBL_MAX)%float = false) enbs ->
      fst r = 0%nat /\ snd r = DBL_MAX)).
Proof.
  intros pow2 uePos enbs r d. subst d.
  destruct (closest_loop_spec pow2 uePos enbs 0 0 DBL_MAX) as [HA HB].
  cbv zeta in HA, HB. fold r in HA, HB.
  split; [reflexivity|]. split; [|split; [|split; [|split]]].
  - intros Hne. destruct HA as [[E _] | (k & p & E & Hk & _)].
    + rewrite E. destruct enbs; [congruence|cbn; lia].
    + rewrite E. apply lookup_lt_Some in Hk. exact Hk.
  - intros ->. split; reflexivity.
  - destruct HA as [[E1 E2] | (k & p & E & Hk & Hd)]; [left; split; assumption|].
    right. exists p. rewrite E. split; assumption.
  - intros k p Hk Hlt. apply (HB k p Hk). exact Hlt.
  - intros Hnan.
    destruct (closest_loop_min pow2 uePos enbs 0 0 DBL_MAX Hnan)
      as [Hmin Hcase].
    cbv zeta in Hmin, Hcase. fold r in Hmin, Hcase.
    split; [exact Hmin|]. split.
    + intros Hex.
      destruct Hcase as [(_ & _ & Hall) | (k & q & E1 & Hk & E2 & _ & Hfirst)].
      * exfalso. apply Exists_exists in Hex as (p & Hp & Hlt).
        apply list_elem_of_lookup in Hp as [k Hk].
        rewrite (Hall k p Hk) in Hlt. discriminate.
      * exists q. rewrite E1. cbn [Nat.add].
        split; [exact Hk|]. split; [exact E2|].
        split; [|exact Hfirst].
        intros k' p Hk'. rewrite <- E2. exact (Hmin k' p Hk').
    + intros Hfar.
      destruct Hcase as [(E1 & E2 & _) | (k & q & _ & Hk & _ & Hq & _)];
        [split; assumption|].
      exfalso.
      pose proof (proj1 (Forall_lookup _ _) Hfar k q Hk) as Hq'.
      cbv beta in Hq'. rewrite Hq in Hq'. discriminate.
Qed.

Lemma X20_closest_enb_witness :
  closest_enb (fun d => d * d)%float (plain_vector 0 0) four_enbs = 1%nat /\
  (closest_enb (fun d => d * d)%float (plain_vector 0 0) four_enbs
     < length four_enbs)%nat /\
  (distance (fun d => d * d) (plain_vector 0 0) (plain_vector 4 3) <?
     distance (fun d => d * d) (plain_vector 0 0) (plain_vector 3 4))%float
    = false /\
  (distance (fun d => d * d) (plain_vector 0 0) (plain_vector 3 4) <?
     distance (fun d => d * d) (plain_vector 0 0) (plain_vector 30 40))%float
    = true.
Proof.
  destruct (X20_closest_enb (fun d => d * d)%float (plain_vector 0 0) four_enbs)
    as (H1 & H2 & _ & _ & _ & H6).
  cbv zeta in H6.
  assert (Hnan : Forall (fun p => is_nan (distance (fun d => d * d)%float
                                            (plain_vector 0 0) p) = false)
                   four_enbs)
    by (repeat constructor).
  assert (Hex : Exists (fun p => (distance (fun d => d * d)%float
                                    (plain_vector 0 0) p <? DBL_MAX)%float
                                 = true) four_enbs)
    by (constructor; reflexivity).
  destruct (H6 Hnan) as (_ & Hnear & _).
  destruct (Hnear Hex) as (q & Hq & _ & Hle & Hfirst).
  assert (Eq : q = plain_vector 3 4).
  { apply (f_equal (from_option id q)) in Hq. symmetry. exact Hq. }
  subst q.
  split; [reflexivity|].
  split; [rewrite H1; apply H2; discriminate|].
  split.
  - exact (Hle 2%nat (plain_vector 4 3) eq_refl).
  - exact (Hfirst 0%nat (plain_vector 30 40) (le_n 1) eq_refl).
Defined.

(** ** Handover-start and handover-complete together *)

(** X21. For a UE without a tracked cell, the source cell reported by a
    handover-start notification is the old cell of the HANDOVER row that
    the following handover-complete notification writes (whatever events
    come between that do not set the UE's cell); a second handover-start
    with another source cell does not change that. *)
Theorem X21_handover_start_gives_old_cell :
  forall evs st lg imsi c1 c2 context1 context2 rnti1 rnti2 target time,
    g_logger st = Some lg ->
    ueCurrentCell st !! imsi = None ->
    Forall (fun e => ~ changes_cell imsi e) evs ->
    let st1 := NotifyHandoverStartEnb context1 imsi c1 rnti1 target st in
    let st2 := NotifyHandoverEndOkEnb context2 imsi c2 rnti2 time (run evs st1) in
    latest_field "Handover_Type" st2 = Some (text "HANDOVER") /\
    latest_field "UE_ID" st2 = Some [AU64 imsi] /\
    latest_field "Old_gNB_ID" st2 = Some [AU16 c1] /\
    latest_field "New_gNB_ID" st2 = Some [AU16 c2].
Proof.
  intros evs st lg imsi c1 c2 context1 context2 rnti1 rnti2 target time
    Hlg Hnone Hall st1 st2. subst st2.
  assert (Hlg1 : g_logger st1 = Some lg).
  { subst st1. unfold NotifyHandoverStartEnb. rewrite Hnone. exact Hlg. }
  assert (Hc1 : ueCurrentCell st1 !! imsi = Some c1).
  { subst st1. unfold NotifyHandoverStartEnb. rewrite Hnone. cbn.
    apply lookup_insert_eq. }
  destruct (run_log evs st1 lg Hlg1) as (new & Hlg2 & _).
  pose proof (run_cell_keeps evs st1 imsi c1 Hall Hc1) as Hc2.
  pose proof (NotifyHandoverEndOkEnb_latest context2 imsi c2 rnti2 time
                (run evs st1) _ Hlg2) as E.
  cbv zeta in E. rewrite Hc2 in E. cbn [default] in E.
  repeat split; latest_of_line E.
Qed.

Lemma X21_handover_start_gives_old_cell_witness :
  latest_field "Old_gNB_ID"
    (NotifyHandoverEndOkEnb "" 7 2 0 8.0%float
       (run other_events (NotifyHandoverStartEnb "" 7 1 0 2 st_started)))
    = Some [AU16 1] /\
  latest_field "New_gNB_ID"
    (NotifyHandoverEndOkEnb "" 7 2 0 8.0%float
       (run other_events (NotifyHandoverStartEnb "" 7 1 0 2 st_started)))
    = Some [AU16 2].
Proof.
  assert (Hall : Forall (fun e => ~ changes_cell 7 e) other_events).
  { repeat constructor; cbn; try tauto; intros H; discriminate H. }
  destruct (X21_handover_start_gives_old_cell other_events st_started
              {| m_file := [header] |} 7 1 2 "" "" 0 0 2 8.0%float
              eq_refl eq_refl Hall) as (_ & _ & Hold & Hnew).
  split; assumption.
Defined.

(** ** UEs do not interfere *)

Lemma resolve_rsrp_other :
  forall imsi cellId st k,
    k <> imsi ->
    ueLastRsrp (snd (resolve_rsrp imsi cellId st)) !! k = ueLastRsrp st !! k.
Proof.
  intros imsi cellId st k Hne. unfold resolve_rsrp.
  destruct (ueLastRsrp st !! imsi); [reflexivity|].
  destruct (0 <? cellId)%N; [|reflexivity].
  destruct (cellRsrp st !! cellId); [|reflexivity].
  cbn. apply lookup_insert_ne. congruence.
Qed.

Lemma resolve_sinr_other :
  forall imsi cellId st k,
    k <> imsi ->
    ueLastSinr (snd (resolve_sinr imsi cellId st)) !! k = ueLastSinr st !! k.
Proof.
  intros imsi cellId st k Hne. unfold resolve_sinr.
  destruct (ueLastSinr st !! imsi); [reflexivity|].
  destruct (0 <? cellId)%N; [|reflexivity].
  destruct (cellSinr st !! cellId); [|reflexivity].
  cbn. apply lookup_insert_ne. congruence.
Qed.

Lemma LogEverySecond_body_other :
  forall time ueDevs i node st imsi,
    mobile node = false \/ node_imsi ueDevs i <> imsi ->
    ue_view (LogEverySecond_body time ueDevs i node st) imsi = ue_view st imsi.
Proof.
  intros time ueDevs i node st imsi Hcase. unfold mobile in Hcase.
  destruct (mobility node) as [mob|] eqn:Hmob.
  - destruct Hcase as [Hcase|Hne]; [discriminate|].
    destruct (LogEverySecond_body_maps time ueDevs i node st mob Hmob)
      as (Bp & Bs & B1 & B2 & B3 & B4 & _).
    cbv zeta in Bp, Bs.
    assert (Hcaches :
      ueLastRsrp (LogEverySecond_body time ueDevs i node st) !! imsi =
        ueLastRsrp st !! imsi /\
      ueLastSinr (LogEverySecond_body time ueDevs i node st) !! imsi =
        ueLastSinr st !! imsi).
    { destruct (g_logger st) as [lg|] eqn:Hlg.
      - destruct (LogEverySecond_body_caches time ueDevs i node st lg mob
                    Hmob Hlg) as [-> ->].
        split; [apply resolve_rsrp_other|apply resolve_sinr_other]; congruence.
      - unfold LogEverySecond_body. rewrite Hmob. cbv zeta.
        cbn [g_logger set_ueLastSpeed set_ueLastPosition]. rewrite Hlg.
        split; reflexivity. }
    destruct Hcaches as [Cp Cs].
    unfold ue_view. rewrite Bp, Bs, B1, B2, B3, B4, Cp, Cs.
    rewrite !lookup_insert_ne by exact Hne. reflexivity.
  - rewrite (LogEverySecond_body_static time ueDevs i node st Hmob).
    reflexivity.
Qed.

Lemma LogEverySecond_loop_other :
  forall time ueDevs nodes i st imsi,
    (forall j node,
       nodes !! j = Some node ->
       mobile node = false \/ node_imsi ueDevs (i + j) <> imsi) ->
    ue_view (LogEverySecond_loop time ueDevs i nodes st) imsi = ue_view st imsi.
Proof.
  intros time ueDevs nodes. induction nodes as [|node nodes IH];
    intros i st imsi Hall; cbn [LogEverySecond_loop]; [reflexivity|].
  rewrite IH.
  - apply LogEverySecond_body_other.
    specialize (Hall 0%nat node eq_refl). rewrite Nat.add_0_r in Hall.
    exact Hall.
  - intros j n Hj. specialize (Hall (S j) n Hj).
    replace (S i + j)%nat with (i + S j)%nat by lia. exact Hall.
Qed.

Lemma dispatch_other :
  forall e st imsi,
    ~ involves imsi e ->
    ue_view (dispatch e st) imsi = ue_view st imsi.
Proof.
  intros e st imsi Hno. destruct e; cbn [dispatch involves] in *.
  - unfold NotifyHandoverStartEnb.
    destruct (ueCurrentCell st !! imsi0); [reflexivity|].
    unfold ue_view. cbn. rewrite lookup_insert_ne by exact Hno. reflexivity.
  - unfold NotifyHandoverEndOkEnb.
    destruct (g_logger st); [destruct (last_xy imsi0 st)|reflexivity].
    unfold ue_view. cbn. rewrite lookup_insert_ne by exact Hno. reflexivity.
  - unfold ue_view. cbn. rewrite lookup_insert_ne by exact Hno. reflexivity.
  - reflexivity.
  - destruct (NotifyRecvMeasurementReport_frame context imsi0 cellId rnti msg
                time st) as (F1 & F2 & F3 & F4 & F5 & F6 & _).
    destruct (NotifyRecvMeasurementReport_maps context imsi0 cellId rnti msg
                time st) as (M1 & M2).
    unfold ue_view. rewrite F1, F2, F3, F4, F5, F6, M1, M2.
    rewrite !lookup_insert_ne by exact Hno.
    rewrite resolve_sinr_other by congruence. reflexivity.
  - unfold LogEverySecond. apply LogEverySecond_loop_other.
    intros j node Hj. cbn [Nat.add].
    destruct (mobile node) eqn:Hm; [|left; reflexivity].
    right. intros Himsi. apply Hno. exists j, node. repeat split; assumption.
  - destruct (0 <? currentTime)%float eqn:Ht.
    + destruct (SampleThroughput_lookup stats classifier ueDevs ueIpIfaces
                  numUes period currentTime st imsi Ht) as [Hd Hu].
      cbv zeta in Hd, Hu, Hno.
      destruct (contributions destinationAddress rxBytes classifier _ _ imsi stats)
        as [|x xs] eqn:Ed;
        [|exfalso; apply Hno; split; [reflexivity|left; discriminate]].
      destruct (contributions sourceAddress txBytes classifier _ _ imsi stats)
        as [|y ys] eqn:Eu;
        [|exfalso; apply Hno; split; [reflexivity|right; discriminate]].
      cbn [sampled] in Hd, Hu.
      unfold ue_view. rewrite Hd, Hu. reflexivity.
    + unfold SampleThroughput. rewrite accumulate_nothing by exact Ht.
      cbn [fst snd]. unfold ue_view. cbn. rewrite !overwrite_empty.
      reflexivity.
Qed.

(** X22. UEs do not interfere: a run in which no event is about a given
    UE (none of its own notifications, no snapshot tick over a node with its
    IMSI, no traffic sample with a flow of its own) leaves everything the
    maps hold for that UE as it was: tracked cell, position, speed,
    throughput, RSRP, RSRQ and SINR. PHY samples never touch it. *)
Theorem X22_ues_do_not_interfere :
  forall evs st imsi,
    Forall (fun e => ~ involves imsi e) evs ->
    ue_view (run evs st) imsi = ue_view st imsi.
Proof.
  unfold run. induction evs as [|e evs IH]; intros st imsi Hall;
    cbn [fold_left]; [reflexivity|].
  inversion Hall; subst. rewrite IH by assumption.
  apply dispatch_other. assumption.
Qed.

Lemma X22_ues_do_not_interfere_witness :
  ue_view (run events_of_ue8 st_handed_over) 7 = ue_view st_handed_over 7.
Proof.
  apply X22_ues_do_not_interfere.
  repeat constructor; cbn; try tauto; try (intros H; discriminate H).
  intros (j & node & Hj & _ & Himsi).
  destruct j as [|j]; [vm_compute in Himsi|cbn in Hj]; discriminate.
Defined.
